(** * gdoc2md: the document-to-Markdown conversion engine

    A shallow embedding of [converter.go] and of the conversion phase of
    [export.go], together with the parts of Go's [strings] and [fmt]
    packages they call.

    Conventions.
    - A Go [string] is a sequence of bytes: Rocq's [string].
    - Go's [int] and [int64] are 64-bit on every platform the Makefile
      builds for; they are modelled as [Z] with the wrap-around of the
      additions written out ([int_add]).
    - A Go pointer that the code tests against [nil] is an [option]; a
      slice is a [list] (the elements of the slices of the Docs API are
      pointers that the JSON decoder never leaves nil, so the lists hold
      the pointed-to values); a Go map is an [option (gmap K V)], [None]
      being the nil map.
    - A run-time panic is the result [Panic]; code that cannot panic is a
      plain function. *)

From Stdlib Require Import ZArith Lia Ascii Decimal DecimalZ DecimalString.
From stdpp Require Import gmap strings list.

#[local] Set Warnings "-register-all".
#[local] Open Scope Z_scope.

(** ** Results of code that may panic *)

Inductive Res (A : Type) : Type :=
| Ok (a : A)
| Panic (msg : string).
Arguments Ok {A} a.
Arguments Panic {A} msg.

Definition res_bind {A B} (r : Res A) (k : A -> Res B) : Res B :=
  match r with
  | Ok a => k a
  | Panic msg => Panic msg
  end.

Notation "x <-! r ; k" := (res_bind r (fun x => k))
  (at level 100, r at next level, right associativity).

(** ** The Go run-time and library functions the converter calls *)

Module Go.

(** *** 64-bit signed integers *)

Definition maxInt : Z := 2 ^ 63 - 1.
Definition minInt : Z := - 2 ^ 63.

Definition int_wrap (z : Z) : Z := (z + 2 ^ 63) mod 2 ^ 64 - 2 ^ 63.

Definition int_add (a b : Z) : Z := int_wrap (a + b).

(** *** Bytes *)

Definition byte (n : nat) : ascii := Ascii.ascii_of_nat n.
Definition code (a : ascii) : nat := Ascii.nat_of_ascii a.

Fixpoint bytes (l : list nat) : string :=
  match l with
  | [] => EmptyString
  | n :: l' => String (byte n) (bytes l')
  end.

(** ["\n"], and the double quote that a Rocq literal cannot hold. *)
Definition newline : string := bytes [10%nat].
Definition dquote : string := bytes [34%nat].

(** *** package strings *)

Definition HasSuffix (s suffix : string) : bool :=
  String.prefix (String.rev suffix) (String.rev s).

Fixpoint Contains (s substr : string) : bool :=
  String.prefix substr s
  || match s with
     | EmptyString => false
     | String _ s' => Contains s' substr
     end.

(** [strings.TrimRight(s, cutset)] for a cutset of ASCII bytes (Go takes
    its byte-set path for such a cutset): trailing bytes of [s] that
    occur in [cutset] are removed. *)
Fixpoint in_cutset (cutset : string) (a : ascii) : bool :=
  match cutset with
  | EmptyString => false
  | String b rest => Ascii.eqb a b || in_cutset rest a
  end.

Fixpoint trim_left_bytes (cutset s : string) : string :=
  match s with
  | EmptyString => EmptyString
  | String a s' => if in_cutset cutset a then trim_left_bytes cutset s' else s
  end.

Definition TrimRight (s cutset : string) : string :=
  String.rev (trim_left_bytes cutset (String.rev s)).

(** [unicode.IsSpace] on the UTF-8 encoding.  The white-space code points
    are U+0009..U+000D, U+0020, U+0085, U+00A0, U+1680, U+2000..U+200A,
    U+2028, U+2029, U+202F, U+205F and U+3000; their encodings take one,
    two or three bytes. *)
Definition asciiSpace (a : ascii) : bool :=
  let n := code a in
  ((9 <=? n) && (n <=? 13))%nat || (n =? 32)%nat.

Definition space2 (a b : ascii) : bool :=
  (code a =? 194)%nat && ((code b =? 133) || (code b =? 160))%nat.

Definition space3 (a b c : ascii) : bool :=
  let '(x, y, z) := (code a, code b, code c) in
  ((x =? 225) && (y =? 154) && (z =? 128))%nat
  || ((x =? 226) && (y =? 128)
      && (((128 <=? z) && (z <=? 138)) || (z =? 168) || (z =? 169) || (z =? 175)))%nat
  || ((x =? 226) && (y =? 129) && (z =? 159))%nat
  || ((x =? 227) && (y =? 128) && (z =? 128))%nat.

(** [strings.TrimSpace] is [TrimFunc(s, unicode.IsSpace)]: leading runes
    are decoded and dropped while they are white space, then trailing
    ones.  A white-space rune at either end of [s] is exactly an
    occurrence of one of the encodings above there (invalid bytes decode
    to U+FFFD, which is not white space), so the two loops are written
    over the bytes; [backwards] reads the bytes of a rune last one first. *)
Fixpoint trim_space_run (backwards : bool) (s : string) : string :=
  match s with
  | EmptyString => EmptyString
  | String a s1 =>
      if asciiSpace a then trim_space_run backwards s1
      else
        match s1 with
        | EmptyString => s
        | String b s2 =>
            if (if backwards then space2 b a else space2 a b)
            then trim_space_run backwards s2
            else
              match s2 with
              | EmptyString => s
              | String c s3 =>
                  if (if backwards then space3 c b a else space3 a b c)
                  then trim_space_run backwards s3
                  else s
              end
        end
  end.

Definition TrimSpace (s : string) : string :=
  String.rev (trim_space_run true (String.rev (trim_space_run false s))).

(** [strings.ReplaceAll(s, old, new)] for a non-empty [old] (the converter
    replaces ["|"] and ["\n"]): the non-overlapping occurrences of [old]
    are replaced from the left.  [skip] counts the bytes of an occurrence
    still to be passed over. *)
Fixpoint replace_from (old new s : string) (skip : nat) : string :=
  match s with
  | EmptyString => EmptyString
  | String a s' =>
      match skip with
      | S k => replace_from old new s' k
      | O =>
          if String.prefix old s
          then new +:+ replace_from old new s' (String.length old - 1)
          else String a (replace_from old new s' 0)
      end
  end.

Definition ReplaceAll (s old new : string) : string := replace_from old new s 0.

Fixpoint Join (elems : list string) (sep : string) : string :=
  match elems with
  | [] => EmptyString
  | [e] => e
  | e :: rest => e +:+ sep +:+ Join rest sep
  end.

Fixpoint repeat_string (s : string) (n : nat) : string :=
  match n with
  | O => EmptyString
  | S n' => s +:+ repeat_string s n'
  end.

(** [strings.Repeat] panics on a negative count and when the length of
    the result overflows [int]. *)
Definition Repeat (s : string) (count : Z) : Res string :=
  if count =? 0 then Ok EmptyString
  else if count =? 1 then Ok s
  else if count <? 0 then Panic "strings: negative Repeat count"
  else if maxInt <? Z.of_nat (String.length s) * count
       then Panic "strings: Repeat output length overflow"
       else Ok (repeat_string s (Z.to_nat count)).

(** [strings.ToLower]: a string of ASCII bytes is lowered byte by byte;
    any other string goes through [strings.Map(unicode.ToLower, s)],
    whose case tables are Go's, not this repository's: they are the
    interface [UnicodeTables]. *)
Class UnicodeTables := { map_unicode_ToLower : string -> string }.

Fixpoint isASCII (s : string) : bool :=
  match s with
  | EmptyString => true
  | String a s' => (code a <? 128)%nat && isASCII s'
  end.

Definition lower_byte (a : ascii) : ascii :=
  let n := code a in
  if ((65 <=? n) && (n <=? 90))%nat then byte (n + 32) else a.

Fixpoint map_bytes (f : ascii -> ascii) (s : string) : string :=
  match s with
  | EmptyString => EmptyString
  | String a s' => String (f a) (map_bytes f s')
  end.

Definition ToLower `{UnicodeTables} (s : string) : string :=
  if isASCII s then map_bytes lower_byte s else map_unicode_ToLower s.

(** *** package fmt: the verbs [%d] and [%03d] on an [int] *)

Definition fmt_d (z : Z) : string := NilEmpty.string_of_int (Z.to_int z).

(** The decimal digits of a natural number, at least [width] of them. *)
Definition pad_digits (width : nat) (z : Z) : string :=
  let ds := NilEmpty.string_of_uint (N.to_uint (Z.to_N z)) in
  repeat_string "0" (width - String.length ds) +:+ ds.

(** With the [0] flag and width 3 the digits are padded with zeros to
    the width, less one when a sign is printed. *)
Definition fmt_03d (z : Z) : string :=
  if z <? 0 then "-" +:+ pad_digits 2 (- z) else pad_digits 3 z.

(** [strings.Trim(s, cutset)] for a cutset of ASCII bytes: the bytes of
    the cutset are removed at both ends. *)
Definition Trim (s cutset : string) : string :=
  TrimRight (trim_left_bytes cutset s) cutset.

(** [strings.Split(s, sep)] for a non-empty [sep]: the fields between the
    non-overlapping occurrences of [sep], taken from the left; one more
    field than occurrences.  The head of the result is the field being
    read; [skip] counts the bytes of an occurrence still to be passed
    over. *)
Fixpoint split_from (sep s : string) (skip : nat) : list string :=
  match s with
  | EmptyString => [EmptyString]
  | String a s' =>
      match skip with
      | S k => split_from sep s' k
      | O =>
          if String.prefix sep s
          then EmptyString :: split_from sep s' (String.length sep - 1)
          else
            match split_from sep s' 0 with
            | field :: fields => String a field :: fields
            | [] => [String a EmptyString]
            end
      end
  end.

Definition Split (s sep : string) : list string := split_from sep s 0.

(** [fmt.Sprintf("%x", b)] on a byte slice: two lower-case hexadecimal
    digits for each byte. *)
Definition hex_digit (n : nat) : ascii :=
  match String.get n "0123456789abcdef" with
  | Some a => a
  | None => byte 48
  end.

Fixpoint fmt_x (b : list ascii) : string :=
  match b with
  | [] => EmptyString
  | a :: b' =>
      String (hex_digit (code a / 16))
        (String (hex_digit (code a mod 16)) (fmt_x b'))
  end.

End Go.

Import Go.

(** ** The Google Docs API types ([google.golang.org/api/docs/v1])

    Only the fields the converter reads.  A field keeps its Go name; where
    Go uses one name twice (a field named after its type, or [Content] and
    [Title] in several structs) the struct's name is put in front. *)

Module docsv1.

Record Link := { Url : string }.
Record WeightedFontFamily := { FontFamily : string }.

Record TextStyle := {
  Bold : bool;
  Italic : bool;
  Strikethrough : bool;
  TextStyle_Link : option Link;
  TextStyle_WeightedFontFamily : option WeightedFontFamily
}.

Record TextRun := {
  TextRun_Content : string;
  TextRun_TextStyle : option TextStyle
}.

Record InlineObjectElement := { InlineObjectId : string }.

Inductive HorizontalRule := mkHorizontalRule.

Record ParagraphElement := {
  PE_TextRun : option TextRun;
  PE_InlineObjectElement : option InlineObjectElement;
  PE_HorizontalRule : option HorizontalRule
}.

Record ParagraphStyle := { NamedStyleType : string }.

Record Bullet := {
  Bullet_NestingLevel : Z;   (* int64 *)
  ListId : string
}.

Record Paragraph := {
  Paragraph_ParagraphStyle : option ParagraphStyle;
  Paragraph_Bullet : option Bullet;
  Elements : list ParagraphElement
}.

Inductive SectionBreak := mkSectionBreak.
Inductive TableOfContents := mkTableOfContents.

Inductive StructuralElement := mkStructuralElement {
  SE_Paragraph : option Paragraph;
  SE_Table : option Table;
  SE_SectionBreak : option SectionBreak;
  SE_TableOfContents : option TableOfContents
}
with Table := mkTable { TableRows : list TableRow }
with TableRow := mkTableRow { TableCells : list TableCell }
with TableCell := mkTableCell { TableCell_Content : list StructuralElement }.

Record Body := { Body_Content : list StructuralElement }.

Record ImageProperties := { ContentUri : string }.

Record EmbeddedObject := {
  EmbeddedObject_ImageProperties : option ImageProperties;
  EmbeddedObject_Title : string;
  Description : string
}.

Record InlineObjectProperties := {
  IOP_EmbeddedObject : option EmbeddedObject
}.

Record InlineObject := {
  InlineObject_InlineObjectProperties : option InlineObjectProperties
}.

Record NestingLevel := { GlyphType : string }.
Record ListProperties := { NestingLevels : list NestingLevel }.
Record List := { List_ListProperties : option ListProperties }.

Record TabProperties := { TabProperties_Title : string }.

Record DocumentTab := {
  DocumentTab_Body : option Body;
  InlineObjects : option (gmap string InlineObject);
  Lists : option (gmap string List)
}.

Inductive Tab := mkTab {
  ChildTabs : list Tab;
  Tab_DocumentTab : option DocumentTab;
  Tab_TabProperties : option TabProperties
}.

Record Document := { Tabs : list Tab }.

End docsv1.

Import docsv1.

(** ** converter.go: data *)

Record ImageRef := {
  ObjectID : string;
  ContentURI : string;
  Filename : string
}.

Record ConvertResult := {
  Markdown : string;
  Images : list ImageRef
}.

Record listTracker := {
  listID : string;
  nestingLevel : Z;                  (* int64 *)
  itemCounts : option (gmap Z Z)     (* map[int64]int *)
}.

(** [listTracker{}] *)
Definition listTracker_zero : listTracker :=
  {| listID := ""; nestingLevel := 0; itemCounts := None |}.

Record converter := {
  tab : Tab;
  tabIndex : Z;
  buf : string;                      (* strings.Builder *)
  images : list ImageRef;
  imageCount : Z;
  listState : listTracker
}.

(** [c.buf.WriteString(s)] *)
Definition WriteString (s : string) (c : converter) : converter :=
  {| tab := tab c; tabIndex := tabIndex c; buf := buf c +:+ s;
     images := images c; imageCount := imageCount c; listState := listState c |}.

(** [c.listState = ls] *)
Definition set_listState (ls : listTracker) (c : converter) : converter :=
  {| tab := tab c; tabIndex := tabIndex c; buf := buf c;
     images := images c; imageCount := imageCount c; listState := ls |}.

(** ** converter.go: the pure helpers *)

Definition headingLevelFromStyle (style : string) : Z :=
  if String.eqb style "HEADING_1" then 1
  else if String.eqb style "HEADING_2" then 2
  else if String.eqb style "HEADING_3" then 3
  else if String.eqb style "HEADING_4" then 4
  else if String.eqb style "HEADING_5" then 5
  else if String.eqb style "HEADING_6" then 6
  else if String.eqb style "TITLE" then 1
  else if String.eqb style "SUBTITLE" then 2
  else 0.

Definition ordered_glyphs : list string :=
  ["DECIMAL"; "ALPHA"; "UPPER_ALPHA"; "ROMAN"; "UPPER_ROMAN"; "ZERO_DECIMAL"].

Definition isOrderedGlyph (glyphType : string) : bool :=
  existsb (String.eqb glyphType) ordered_glyphs.

Definition monospace_families : list string :=
  ["courier new"; "consolas"; "roboto mono"; "source code pro";
   "fira code"; "jetbrains mono"; "ubuntu mono"; "ibm plex mono";
   "dejavu sans mono"; "menlo"; "monaco"; "andale mono"].

Definition image_extensions : list string := [".png"; ".gif"; ".svg"; ".webp"].

Section Converter.

Context `{UnicodeTables}.

Definition isMonospace (style : TextStyle) : bool :=
  match TextStyle_WeightedFontFamily style with
  | None => false
  | Some wff =>
      let family := ToLower (FontFamily wff) in
      if existsb (String.eqb family) monospace_families then true
      else Contains family "mono" || Contains family "courier"
  end.

Definition guessImageExtension (uri : string) : string :=
  let lower := ToLower uri in
  if Contains lower ".png" then ".png"
  else if Contains lower ".gif" then ".gif"
  else if Contains lower ".svg" then ".svg"
  else if Contains lower ".webp" then ".webp"
  else ".jpg".

(** *** The style renderer *)

(** Lines 212-219: bold and italic. *)
Definition emphasis (style : TextStyle) (text : string) : string :=
  if Bold style && Italic style then "***" +:+ text +:+ "***"
  else if Bold style then "**" +:+ text +:+ "**"
  else if Italic style then "*" +:+ text +:+ "*"
  else text.

(** Lines 220-222. *)
Definition strike (style : TextStyle) (text : string) : string :=
  if Strikethrough style then "~~" +:+ text +:+ "~~" else text.

(** Lines 224-227. *)
Definition link_wrap (style : TextStyle) (text : string) : string :=
  match TextStyle_Link style with
  | Some l =>
      if negb (String.eqb (Url l) "")
      then "[" +:+ text +:+ "](" +:+ Url l +:+ ")"
      else text
  | None => text
  end.

Definition renderTextRun (tr : TextRun) : string :=
  let text := TextRun_Content tr in
  if String.eqb text newline then text
  else
    match TextRun_TextStyle tr with
    | None => text
    | Some style =>
        if isMonospace style && negb (String.eqb (TrimSpace text) "")
        then "`" +:+ TrimSpace text +:+ "`"
        else
          let trailingNewline := HasSuffix text newline in
          let text := TrimRight text newline in
          if String.eqb text ""
          then (if trailingNewline then newline else "")
          else
            let text := emphasis style text in
            let text := strike style text in
            let text := link_wrap style text in
            if trailingNewline then text +:+ newline else text
    end.

(** *** The image extractor *)

(** [fmt.Sprintf("tab%d_image_%03d%s", tabIndex, imageCount, ext)] *)
Definition image_filename (tabIndex imageCount : Z) (ext : string) : string :=
  "tab" +:+ fmt_d tabIndex +:+ "_image_" +:+ fmt_03d imageCount +:+ ext.

Definition renderInlineObject (elem : InlineObjectElement) (c : converter)
  : string * converter :=
  match Tab_DocumentTab (tab c) with
  | None => ("", c)
  | Some dt =>
  match InlineObjects dt with
  | None => ("", c)
  | Some objs =>
  match objs !! InlineObjectId elem with
  | None => ("", c)
  | Some obj =>
  match InlineObject_InlineObjectProperties obj with
  | None => ("", c)
  | Some props =>
  match IOP_EmbeddedObject props with
  | None => ("", c)
  | Some embedded =>
  match EmbeddedObject_ImageProperties embedded with
  | None => ("", c)
  | Some ip =>
      if String.eqb (ContentUri ip) "" then ("", c)
      else
        let imageCount' := int_add (imageCount c) 1 in
        let ext := guessImageExtension (ContentUri ip) in
        let filename := image_filename (tabIndex c) imageCount' ext in
        let alt := EmbeddedObject_Title embedded in
        let alt := if String.eqb alt "" then Description embedded else alt in
        let alt := if String.eqb alt "" then filename else alt in
        ("![" +:+ alt +:+ "](images/" +:+ filename +:+ ")",
         {| tab := tab c; tabIndex := tabIndex c; buf := buf c;
            images := images c ++ [ {| ObjectID := InlineObjectId elem;
                                       ContentURI := ContentUri ip;
                                       Filename := filename |} ];
            imageCount := imageCount';
            listState := listState c |})
  end end end end end end.

(** The [switch] of one iteration of the loop of
    [renderParagraphElements]. *)
Definition renderParagraphElement (elem : ParagraphElement) (c : converter)
  : string * converter :=
  match PE_TextRun elem with
  | Some tr => (renderTextRun tr, c)
  | None =>
      match PE_InlineObjectElement elem with
      | Some io => renderInlineObject io c
      | None =>
          match PE_HorizontalRule elem with
          | Some _ => (newline +:+ "---" +:+ newline, c)
          | None => ("", c)
          end
      end
  end.

Fixpoint renderParagraphElements (elements : list ParagraphElement) (c : converter)
  : string * converter :=
  match elements with
  | [] => ("", c)
  | elem :: rest =>
      let '(s, c1) := renderParagraphElement elem c in
      let '(s', c2) := renderParagraphElements rest c1 in
      (s +:+ s', c2)
  end.

(** *** The list state tracker *)

(** Lines 126-135 of [handleListItem].  [NestingLevels[nestingLevel]] is
    reached whenever [int(nestingLevel) < len(NestingLevels)], also for a
    negative level, where the index expression panics. *)
Definition list_is_ordered (t : Tab) (listID : string) (nestingLevel : Z) : Res bool :=
  if negb (String.eqb listID "") then
    match Tab_DocumentTab t with
    | None => Ok false
    | Some dt =>
    match Lists dt with
    | None => Ok false
    | Some lists =>
    match lists !! listID with
    | None => Ok false
    | Some list =>
    match List_ListProperties list with
    | None => Ok false
    | Some lp =>
        if nestingLevel <? Z.of_nat (length (NestingLevels lp)) then
          if nestingLevel <? 0 then Panic "index out of range"
          else
            match NestingLevels lp !! Z.to_nat nestingLevel with
            | Some nl => Ok (isOrderedGlyph (GlyphType nl))
            | None => Panic "index out of range"
            end
        else Ok false
    end end end end
  else Ok false.

(** [m[k]] on a map that has been made: the zero value when [k] is absent. *)
Definition count_at (m : gmap Z Z) (k : Z) : Z := default 0 (m !! k).

(** Lines 137-159 of [handleListItem]: the transition of the tracker on an
    item of list [id] at level [lvl]. *)
Definition track_item (id : string) (lvl : Z) (ls : listTracker) : listTracker :=
  (* Reset counters when switching to a different list. *)
  let ls1 :=
    if negb (String.eqb (listID ls) id)
    then {| listID := id; nestingLevel := 0; itemCounts := Some ∅ |}
    else ls in
  let counts1 : gmap Z Z :=
    match itemCounts ls1 with
    | None => ∅
    | Some m => m
    end in
  (* Reset counts for deeper levels when nesting decreases. *)
  let counts2 : gmap Z Z :=
    if lvl <? nestingLevel ls1
    then filter (fun kv : Z * Z => ¬ (lvl < kv.1)) counts1
    else counts1 in
  {| listID := listID ls1;
     nestingLevel := lvl;
     itemCounts := Some (<[lvl := int_add (count_at counts2 lvl) 1]> counts2) |}.

(** [ls.itemCounts[k]]; reading a nil map gives the zero value too. *)
Definition item_count (ls : listTracker) (k : Z) : Z :=
  match itemCounts ls with
  | Some m => count_at m k
  | None => 0
  end.

Definition handleListItem (p : Paragraph) (headingLevel : Z) (c : converter)
  : Res converter :=
  match Paragraph_Bullet p with
  | None => Panic "nil pointer dereference"
  | Some bullet =>
      let nestingLevel := Bullet_NestingLevel bullet in
      let listID := ListId bullet in
      ordered <-! list_is_ordered (tab c) listID nestingLevel;
      let c1 := set_listState (track_item listID nestingLevel (listState c)) c in
      indent <-! Repeat "  " nestingLevel;
      let '(rendered, c2) := renderParagraphElements (Elements p) c1 in
      let text := TrimSpace rendered in
      if (ordered : bool)
      then Ok (WriteString
                 (indent +:+ fmt_d (item_count (listState c2) nestingLevel) +:+ ". "
                  +:+ text +:+ newline) c2)
      else Ok (WriteString (indent +:+ "- " +:+ text +:+ newline) c2)
  end.

(** *** The structural walker *)

Definition writeHeading (text : string) (level : Z) (c : converter) : Res converter :=
  hashes <-! Repeat "#" level;
  Ok (WriteString (newline +:+ newline)
        (WriteString (TrimSpace text)
           (WriteString " "
              (WriteString hashes c)))).

Definition convertParagraph (p : Paragraph) (c : converter) : Res converter :=
  let namedStyle :=
    match Paragraph_ParagraphStyle p with
    | Some style => NamedStyleType style
    | None => ""
    end in
  let headingLevel := headingLevelFromStyle namedStyle in
  match Paragraph_Bullet p with
  | Some _ => handleListItem p headingLevel c
  | None =>
      let c1 := set_listState listTracker_zero c in
      let '(text, c2) := renderParagraphElements (Elements p) c1 in
      if String.eqb (TrimSpace text) "" then Ok (WriteString newline c2)
      else if 0 <? headingLevel then writeHeading text headingLevel c2
      else Ok (WriteString (newline +:+ newline)
                 (WriteString (TrimRight text newline) c2))
  end.

(** *** The table renderer *)

(** Lines 280-286: the text of one cell. *)
Fixpoint cell_text (content : list StructuralElement) (c : converter)
  : string * converter :=
  match content with
  | [] => ("", c)
  | elem :: rest =>
      match SE_Paragraph elem with
      | Some p =>
          let '(text, c1) := renderParagraphElements (Elements p) c in
          let '(more, c2) := cell_text rest c1 in
          (TrimSpace text +:+ more, c2)
      | None => cell_text rest c
      end
  end.

(** Lines 287-288. *)
Definition escape_cell (cellText : string) : string :=
  ReplaceAll (ReplaceAll cellText "|" "\|") newline " ".

(** Lines 278-289: the cells of one row. *)
Fixpoint row_cells (cells : list TableCell) (c : converter)
  : list string * converter :=
  match cells with
  | [] => ([], c)
  | cell :: rest =>
      let '(cellText, c1) := cell_text (TableCell_Content cell) c in
      let '(more, c2) := row_cells rest c1 in
      (escape_cell cellText :: more, c2)
  end.

(** Lines 276-291. *)
Fixpoint table_rows (rows : list TableRow) (c : converter)
  : list (list string) * converter :=
  match rows with
  | [] => ([], c)
  | row :: rest =>
      let '(cells, c1) := row_cells (TableCells row) c in
      let '(more, c2) := table_rows rest c1 in
      (cells :: more, c2)
  end.

(** Lines 305-307: [for len(row) < n { row = append(row, "") }]; the loop
    runs [n - len(row)] times. *)
Definition pad_row (n : nat) (row : list string) : list string :=
  Nat.iter (n - length row) (fun row => row ++ [""]) row.

Definition table_line (row : list string) : string :=
  "| " +:+ Join row " | " +:+ " |" +:+ newline.

(** Lines 304-309. *)
Fixpoint data_lines (n : nat) (rows : list (list string)) : string :=
  match rows with
  | [] => ""
  | row :: rest => table_line (pad_row n row) +:+ data_lines n rest
  end.

(** Lines 297-310: what is written for the rendered rows. *)
Definition table_markdown (rows : list (list string)) : string :=
  match rows with
  | [] => ""
  | header :: data =>
      table_line header
      +:+ table_line (replicate (length header) "---")
      +:+ data_lines (length header) data
      +:+ newline
  end.

Definition convertTable (table : option Table) (c : converter) : converter :=
  match table with
  | None => c
  | Some t =>
      if (length (TableRows t) =? 0)%nat then c
      else
        let '(rows, c1) := table_rows (TableRows t) c in
        if (length rows =? 0)%nat then c1
        else WriteString (table_markdown rows) c1
  end.

Definition convertStructuralElement (elem : StructuralElement) (c : converter)
  : Res converter :=
  match SE_Paragraph elem with
  | Some p => convertParagraph p c
  | None =>
      match SE_Table elem with
      | Some t => Ok (convertTable (Some t) c)
      | None =>
          match SE_SectionBreak elem with
          | Some _ => Ok c  (* ignore *)
          | None =>
              match SE_TableOfContents elem with
              | Some _ => Ok c  (* ignore *)
              | None => Ok c
              end
          end
      end
  end.

(** The loop of [convertBody]. *)
Fixpoint convertElements (content : list StructuralElement) (c : converter)
  : Res converter :=
  match content with
  | [] => Ok c
  | elem :: rest =>
      c1 <-! convertStructuralElement elem c;
      convertElements rest c1
  end.

Definition convertBody (body : option Body) (c : converter) : Res converter :=
  match body with
  | None => Ok c
  | Some b => convertElements (Body_Content b) c
  end.

Definition ConvertTab (tab : Tab) (tabTitle : string) (tabIndex : Z)
  : Res ConvertResult :=
  let c := {| tab := tab; tabIndex := tabIndex; buf := "";
              images := []; imageCount := 0; listState := listTracker_zero |} in
  c1 <-! writeHeading tabTitle 1 c;
  c2 <-! match Tab_DocumentTab tab with
         | Some dt => convertBody (DocumentTab_Body dt) c1
         | None => Ok c1
         end;
  Ok {| Markdown := buf c2; Images := images c2 |}.

End Converter.

(** ** export.go *)

(** *** The tab flattener *)

(** [flattenTabs] recurses into the children of each tab of its argument.
    Rocq takes the recursion on the tab, with the loop over a slice inside
    it; [flattenTabs_nil] and [flattenTabs_cons] below give back the
    equations of the source. *)
Fixpoint flattenTab (t : Tab) : list Tab :=
  t :: (fix over (tabs : list Tab) : list Tab :=
          match tabs with
          | [] => []
          | tab :: rest => flattenTab tab ++ over rest
          end) (ChildTabs t).

Fixpoint flattenTabs (tabs : list Tab) : list Tab :=
  match tabs with
  | [] => []
  | tab :: rest => flattenTab tab ++ flattenTabs rest
  end.

Definition tabTitle (t : Tab) : string :=
  match Tab_TabProperties t with
  | Some props =>
      if negb (String.eqb (TabProperties_Title props) "")
      then TabProperties_Title props
      else "Untitled"
  | None => "Untitled"
  end.

(** The pairs given to [strings.NewReplacer]; every old string is one byte,
    so [Replace] rewrites the name byte by byte. *)
Definition replacer_pairs : list (string * string) :=
  [("/", "-"); ("\", "-"); (":", "-"); ("*", ""); ("?", "");
   (dquote, ""); ("<", ""); (">", ""); ("|", "")].

Fixpoint replace_byte (pairs : list (string * string)) (a : ascii) : string :=
  match pairs with
  | [] => String a EmptyString
  | (old, new) :: rest =>
      if String.eqb old (String a EmptyString) then new else replace_byte rest a
  end.

Fixpoint replacer_Replace (pairs : list (string * string)) (s : string) : string :=
  match s with
  | EmptyString => EmptyString
  | String a s' => replace_byte pairs a +:+ replacer_Replace pairs s'
  end.

Definition sanitizeFilename (name : string) : string :=
  let name := replacer_Replace replacer_pairs name in
  let name := TrimSpace name in
  if String.eqb name "" then "untitled" else name.

Record tabResult := {
  title : string;
  filename : string;
  result : ConvertResult
}.

Definition tabResult_zero : tabResult :=
  {| title := ""; filename := ""; result := {| Markdown := ""; Images := [] |} |}.

Record imageDownload := {
  ref : ImageRef;
  imagesDir : string
}.

Fixpoint generateIndex_items (results : list tabResult) : string :=
  match results with
  | [] => ""
  | r :: rest =>
      "- [" +:+ title r +:+ "](" +:+ filename r +:+ ")" +:+ newline
      +:+ generateIndex_items rest
  end.

Definition generateIndex (results : list tabResult) : string :=
  "# Table of Contents" +:+ newline +:+ newline
  +:+ generateIndex_items results +:+ newline.

(** *** The orchestrator *)

Definition error := string.

(** What [ExportDoc] gets from outside: the outcome of each call it makes
    to the Docs service, the file system and the network. *)
Record World := {
  docs_NewService : option error;
  Documents_Get : string -> error + Document;
  filepath_Join : string -> string -> string;
  os_MkdirAll : string -> option error;
  os_WriteFile : string -> string -> option error;
  (* the error of [downloadImage(ctx, client, uri, destPath)], if any *)
  downloadImage : string -> string -> option error
}.

(** What [ExportDoc] does to the outside. *)
Inductive Event :=
| Printf (s : string)
| MkdirAll (path : string)
| Download (uri destPath : string)
| WriteFile (path data : string).

Section Orchestrator.

Context `{UnicodeTables}.

(** The body of the goroutine of tab [i] (lines 430-440): it converts the
    tab and stores the outcome in [results[i]]. *)
Definition convert_task (tabs : list Tab) (i : nat) (results : list tabResult)
  : Res (list tabResult) :=
  match tabs !! i with
  | None => Ok results
  | Some tab =>
      let title := tabTitle tab in
      let filename := sanitizeFilename title +:+ ".md" in
      result <-! ConvertTab tab title (Z.of_nat i);
      Ok (<[i := {| title := title; filename := filename; result := result |}]> results)
  end.

(** The goroutines run in an order the scheduler chooses: [sched] lists
    the indices of the tabs in the order in which their tasks run.  A
    task shares nothing with the others but its own slot of [results],
    so interleaving tasks as wholes loses nothing. *)
Fixpoint run_tasks (tabs : list Tab) (sched : list nat) (results : list tabResult)
  : Res (list tabResult) :=
  match sched with
  | [] => Ok results
  | i :: rest =>
      results' <-! convert_task tabs i results;
      run_tasks tabs rest results'
  end.

(** Lines 426-444. *)
Definition convertTabs (tabs : list Tab) (sched : list nat) : Res (list tabResult) :=
  run_tasks tabs sched (replicate (length tabs) tabResult_zero).

(** Lines 452-460. *)
Definition collectImages (dir : string) (results : list tabResult) : list imageDownload :=
  flat_map (fun r => map (fun img => {| ref := img; imagesDir := dir |})
                         (Images (result r))) results.

(** [downloadImages]: every task returns nil, so the function does; a
    failed download leaves a warning.  The downloads are listed in the
    order of [images], the order in which their tasks are started. *)
Definition download_warning (w : World) (img : imageDownload) : list string :=
  match downloadImage w (ContentURI (ref img))
                      (filepath_Join w (imagesDir img) (Filename (ref img))) with
  | Some err => [Filename (ref img) +:+ ": " +:+ err]
  | None => []
  end.

Definition downloadImages (w : World) (images : list imageDownload) : list Event :=
  let warnings := flat_map (download_warning w) images in
  map (fun img => Download (ContentURI (ref img))
                           (filepath_Join w (imagesDir img) (Filename (ref img))))
      images
  ++ (if (0 <? length warnings)%nat
      then Printf ("Warning: failed to download "
                   +:+ fmt_d (Z.of_nat (length warnings)) +:+ " image(s):" +:+ newline)
           :: map (fun wn => Printf ("  - " +:+ wn +:+ newline)) warnings
      else []).

(** Lines 470-476: the Markdown files, up to the first failed write. *)
Fixpoint writeFiles (w : World) (outputDir : string) (results : list tabResult)
  : list Event * option error :=
  match results with
  | [] => ([], None)
  | r :: rest =>
      let outPath := filepath_Join w outputDir (filename r) in
      match os_WriteFile w outPath (Markdown (result r)) with
      | Some err =>
          ([WriteFile outPath (Markdown (result r))],
           Some ("failed to write " +:+ outPath +:+ ": " +:+ err))
      | None =>
          let '(evs, e) := writeFiles w outputDir rest in
          (WriteFile outPath (Markdown (result r))
           :: Printf ("  Wrote: " +:+ outPath +:+ newline) :: evs, e)
      end
  end.

(** [ExportDoc]: the events it causes, in order, and what it returns
    ([None] is a nil error; [Panic] when a conversion task panics). *)
Definition ExportDoc (w : World) (sched : list nat) (docID outputDir : string)
  : list Event * Res (option error) :=
  match docs_NewService w with
  | Some err => ([], Ok (Some ("failed to create Docs service: " +:+ err)))
  | None =>
  let ev0 := [Printf ("Fetching document " +:+ docID +:+ "..." +:+ newline)] in
  match Documents_Get w docID with
  | inl err => (ev0, Ok (Some ("failed to fetch document: " +:+ err)))
  | inr doc =>
  (* Flatten tab tree. *)
  let tabs := flattenTabs (Tabs doc) in
  if (length tabs =? 0)%nat then (ev0, Ok (Some "document has no tabs"))
  else
  let ev1 := ev0 ++ [Printf ("Found " +:+ fmt_d (Z.of_nat (length tabs))
                             +:+ " tab(s)" +:+ newline)] in
  (* Ensure output and images directories exist. *)
  let imagesDir := filepath_Join w outputDir "images" in
  let ev2 := ev1 ++ [MkdirAll imagesDir] in
  match os_MkdirAll w imagesDir with
  | Some err => (ev2, Ok (Some ("failed to create images directory: " +:+ err)))
  | None =>
  (* Process tabs in parallel. *)
  match convertTabs tabs sched with
  | Panic msg => (ev2, Panic msg)
  | Ok results =>
  let ev3 := ev2 ++ map (fun r => Printf ("  Converted: " +:+ title r +:+ newline))
                        results in
  (* Collect all images from all tabs and download in parallel. *)
  let allImages := collectImages imagesDir results in
  let ev4 :=
    ev3 ++ (if (0 <? length allImages)%nat
            then Printf ("Downloading " +:+ fmt_d (Z.of_nat (length allImages))
                         +:+ " image(s)..." +:+ newline)
                 :: downloadImages w allImages
            else []) in
  (* Write markdown files. *)
  match writeFiles w outputDir results with
  | (evs, Some err) => (ev4 ++ evs, Ok (Some err))
  | (evs, None) =>
  (* Write tabs.md index file. *)
  let indexPath := filepath_Join w outputDir "tabs.md" in
  let index := generateIndex results in
  let ev5 := ev4 ++ evs ++ [WriteFile indexPath index] in
  match os_WriteFile w indexPath index with
  | Some err => (ev5, Ok (Some ("failed to write tabs.md: " +:+ err)))
  | None =>
      (ev5 ++ [Printf ("  Wrote: " +:+ indexPath +:+ newline);
               Printf ("Done!" +:+ newline)],
       Ok None)
  end end end end end end.

End Orchestrator.

(** ** Notions of the specification *)

(** What the spec calls a run resolved as monospace: the lower-cased name
    of the font family is one of the known families, or has ["mono"] or
    ["courier"] in it. *)
Definition monospace_name `{UnicodeTables} (family : string) : Prop :=
  In (ToLower family) monospace_families
  \/ Contains (ToLower family) "mono" = true
  \/ Contains (ToLower family) "courier" = true.

(** The markers of the spec, by flag. *)
Definition emphasis_marker (bold italic : bool) : string :=
  match bold, italic with
  | true, true => "***"
  | true, false => "**"
  | false, true => "*"
  | false, false => ""
  end.

Definition strike_marker (strikethrough : bool) : string :=
  if strikethrough then "~~" else "".

(** A substitution applied to the bytes of a string one by one. *)
Fixpoint bytewise (f : ascii -> string) (s : string) : string :=
  match s with
  | EmptyString => EmptyString
  | String a s' => f a +:+ bytewise f s'
  end.

(** What the table renderer does to a byte of a cell: a pipe gets a
    backslash, a newline becomes one space. *)
Definition escape_byte (a : ascii) : string :=
  if Ascii.eqb a (byte 124) then "\|"
  else if Ascii.eqb a (byte 10) then " "
  else String a EmptyString.

(** The lines of a pipe table, one per row. *)
Fixpoint pipe_lines (rows : list (list string)) : string :=
  match rows with
  | [] => ""
  | row :: rest => "| " +:+ Join row " | " +:+ " |" +:+ newline +:+ pipe_lines rest
  end.

(** The paragraphs of a cell and of a row, in order.  A cell can hold other
    elements; they have no text in the table. *)
Definition cell_paragraphs (cell : TableCell) : list Paragraph :=
  omap SE_Paragraph (TableCell_Content cell).

Definition row_paragraphs (row : TableRow) : list Paragraph :=
  flat_map cell_paragraphs (TableCells row).

(** The converter once the paragraphs [ps] have been rendered one after
    the other from [c]: their images are recorded and counted. *)
Definition rendered_from `{UnicodeTables} (c : converter) (ps : list Paragraph)
  : converter :=
  fold_left (fun c p => (renderParagraphElements (Elements p) c).2) ps c.

(** The text of paragraphs in a cell: the rendered text of each, trimmed,
    one after the other. *)
Fixpoint paragraphs_text `{UnicodeTables} (ps : list Paragraph) (c : converter)
  : string :=
  match ps with
  | [] => ""
  | p :: rest =>
      TrimSpace (renderParagraphElements (Elements p) c).1
      +:+ paragraphs_text rest (renderParagraphElements (Elements p) c).2
  end.

(** The text of a cell, rendered from [c]. *)
Definition spec_cell_text `{UnicodeTables} (c : converter) (cell : TableCell) : string :=
  paragraphs_text (cell_paragraphs cell) c.

(** The cells of a row as the table shows them.  The cells are rendered in
    reading order: cell [j] of the row is rendered once the paragraphs
    [before] the row and those of the cells to its left have been; its
    text is then escaped byte by byte. *)
Definition expected_row `{UnicodeTables} (c : converter) (before : list Paragraph)
    (row : TableRow) : list string :=
  imap (fun j cell =>
          bytewise escape_byte
            (spec_cell_text
               (rendered_from c (before ++ flat_map cell_paragraphs
                                             (take j (TableCells row))))
               cell))
       (TableCells row).

(** The rows of a table as it shows them: row [i] comes after the
    paragraphs of the rows above it. *)
Definition expected_rows `{UnicodeTables} (c : converter) (rows : list TableRow)
  : list (list string) :=
  imap (fun i row => expected_row c (flat_map row_paragraphs (take i rows)) row) rows.

(** ** Sample inputs

    The strings of the samples are ASCII, so that [ToLower] never consults
    the Unicode tables; the samples are run with tables that change
    nothing. *)

Definition sample_tables : UnicodeTables :=
  {| map_unicode_ToLower := fun s => s |}.

Definition sample_style (bold italic strikethrough : bool) (url family : option string)
  : TextStyle :=
  {| Bold := bold; Italic := italic; Strikethrough := strikethrough;
     TextStyle_Link := (fun u => {| Url := u |}) <$> url;
     TextStyle_WeightedFontFamily := (fun f => {| FontFamily := f |}) <$> family |}.

Definition sample_run (content : string) (style : option TextStyle) : TextRun :=
  {| TextRun_Content := content; TextRun_TextStyle := style |}.

Definition text_element (content : string) (style : option TextStyle) : ParagraphElement :=
  {| PE_TextRun := Some (sample_run content style);
     PE_InlineObjectElement := None;
     PE_HorizontalRule := None |}.

Definition image_element (id : string) : ParagraphElement :=
  {| PE_TextRun := None;
     PE_InlineObjectElement := Some {| InlineObjectId := id |};
     PE_HorizontalRule := None |}.

Definition paragraph (named : option string) (bullet : option Bullet)
    (elements : list ParagraphElement) : Paragraph :=
  {| Paragraph_ParagraphStyle := (fun n => {| NamedStyleType := n |}) <$> named;
     Paragraph_Bullet := bullet;
     Elements := elements |}.

Definition paragraph_element (p : Paragraph) : StructuralElement :=
  {| SE_Paragraph := Some p; SE_Table := None;
     SE_SectionBreak := None; SE_TableOfContents := None |}.

Definition table_element (t : Table) : StructuralElement :=
  {| SE_Paragraph := None; SE_Table := Some t;
     SE_SectionBreak := None; SE_TableOfContents := None |}.

Definition plain_style : TextStyle := sample_style false false false None None.

(** A cell holding one paragraph of plain text. *)
Definition text_cell (content : string) : TableCell :=
  {| TableCell_Content :=
       [paragraph_element (paragraph None None [text_element content (Some plain_style)])] |}.

Definition text_row (cells : list string) : TableRow :=
  {| TableCells := text_cell <$> cells |}.

Definition text_table (rows : list (list string)) : Table :=
  {| TableRows := text_row <$> rows |}.

(** A cell holding one paragraph with one run of text without style; the
    rendered text of such a run is its content. *)
Definition unstyled_cell (content : string) : TableCell :=
  {| TableCell_Content :=
       [paragraph_element (paragraph None None [text_element content None])] |}.

Definition unstyled_row (cells : list string) : TableRow :=
  {| TableCells := unstyled_cell <$> cells |}.

Definition unstyled_table (rows : list (list string)) : Table :=
  {| TableRows := unstyled_row <$> rows |}.

(** The text of a cell as the table shows it: trimmed, pipes escaped and
    newlines replaced. *)
Definition shown (content : string) : string :=
  bytewise escape_byte (TrimSpace content).

Definition leaf_tab (dt : option DocumentTab) : Tab :=
  {| ChildTabs := []; Tab_DocumentTab := dt; Tab_TabProperties := None |}.

(** The converter as [ConvertTab] creates it. *)
Definition new_converter (t : Tab) (index : Z) : converter :=
  {| tab := t; tabIndex := index; buf := ""; images := []; imageCount := 0;
     listState := listTracker_zero |}.

(** Header of two columns, a short row, and a row that is longer than the
    header and has a pipe and a newline in a cell. *)
Definition sample_table : Table :=
  text_table [["name"; "value"]; ["a"]; ["b|c"; "d" +:+ newline +:+ "e"; "f"]].

(** ** Notions of the proofs *)

(** Rendering paragraph elements leaves everything but the image list and
    the image counter as it was. *)
Definition same_frame (c c' : converter) : Prop :=
  tab c' = tab c /\ tabIndex c' = tabIndex c /\ buf c' = buf c
  /\ listState c' = listState c.

(** A world in which every call succeeds and [Documents.Get] returns [doc]. *)
Definition sample_world (doc : Document) : World :=
  {| docs_NewService := None;
     Documents_Get := fun _ => inr doc;
     filepath_Join := fun dir name => dir +:+ "/" +:+ name;
     os_MkdirAll := fun _ => None;
     os_WriteFile := fun _ _ => None;
     downloadImage := fun _ _ => None |}.

Definition titled_tab (name : string) (children : list Tab) : Tab :=
  {| ChildTabs := children; Tab_DocumentTab := None;
     Tab_TabProperties := Some {| TabProperties_Title := name |} |}.

(** a(b(c), d), e *)
Definition sample_tree : list Tab :=
  [titled_tab "a" [titled_tab "b" [titled_tab "c" []]; titled_tab "d" []];
   titled_tab "e" []].

(** The named styles of headings with their levels, as the spec lists them. *)
Definition heading_styles : list (string * Z) :=
  [("HEADING_1", 1); ("HEADING_2", 2); ("HEADING_3", 3); ("HEADING_4", 4);
   ("HEADING_5", 5); ("HEADING_6", 6); ("TITLE", 1); ("SUBTITLE", 2)].

(** An ATX heading with its trailing blank line. *)
Definition atx_heading (level : Z) (text : string) : string :=
  repeat_string "#" (Z.to_nat level) +:+ " " +:+ TrimSpace text +:+ newline +:+ newline.

(** What a step of the converter has written in all, if it did not panic. *)
Definition written (r : Res converter) : Res string :=
  c <-! r; Ok (buf c).

(** A nesting level whose indentation [strings.Repeat] can build: not
    negative, and two bytes for each level fit an [int]. *)
Definition valid_nesting_level (lvl : Z) : Prop := 0 <= lvl /\ 2 * lvl <= maxInt.

Definition bullet (lvl : Z) (id : string) : option Bullet :=
  Some {| Bullet_NestingLevel := lvl; ListId := id |}.

Definition list_item (lvl : Z) (id : string) (text : string) : StructuralElement :=
  paragraph_element
    (paragraph None (bullet lvl id) [text_element (text +:+ newline) (Some plain_style)]).

Definition decimal_list : List :=
  {| List_ListProperties :=
       Some {| NestingLevels := [ {| GlyphType := "DECIMAL" |};
                                  {| GlyphType := "DECIMAL" |} ] |} |}.

Definition body_tab (content : list StructuralElement)
    (objects : option (gmap string InlineObject)) (lists : option (gmap string List)) : Tab :=
  leaf_tab (Some {| DocumentTab_Body := Some {| Body_Content := content |};
                    InlineObjects := objects;
                    Lists := lists |}).

(** Items at the levels 0, 0, 1, 1, 0 of one list, ordered at each level. *)
Definition sample_list_tab : Tab :=
  body_tab [list_item 0 "L" "a"; list_item 0 "L" "b"; list_item 1 "L" "c";
            list_item 1 "L" "d"; list_item 0 "L" "e"]
           None (Some {[ "L" := decimal_list ]}).

(** The list definition of a list identifier in a tab, if there is one. *)
Definition list_definition (t : Tab) (id : string) : option List :=
  dt ← Tab_DocumentTab t; lists ← Lists dt; lists !! id.

(** The inline object of a reference in a tab, if there is one. *)
Definition inline_object (t : Tab) (id : string) : option InlineObject :=
  dt ← Tab_DocumentTab t; objs ← InlineObjects dt; objs !! id.

(** The content URI of the embedded image of an inline object; empty when
    the object has none. *)
Definition content_uri (obj : InlineObject) : string :=
  default "" (props ← InlineObject_InlineObjectProperties obj;
              embedded ← IOP_EmbeddedObject props;
              ip ← EmbeddedObject_ImageProperties embedded;
              Some (ContentUri ip)).

(** The bullets of the paragraphs of a body have valid nesting levels. *)
Definition valid_bullets (content : list StructuralElement) : Prop :=
  Forall (fun elem =>
            forall p b, SE_Paragraph elem = Some p ->
                        Paragraph_Bullet p = Some b ->
                        valid_nesting_level (Bullet_NestingLevel b))
         content.

Definition valid_tab (t : Tab) : Prop :=
  forall dt body, Tab_DocumentTab t = Some dt ->
                  DocumentTab_Body dt = Some body ->
                  valid_bullets (Body_Content body).

Definition markdown_of (r : Res ConvertResult) : Res string :=
  x <-! r; Ok (Markdown x).

Definition images_of (r : Res ConvertResult) : Res (list ImageRef) :=
  x <-! r; Ok (Images x).

Definition png_object : InlineObject :=
  {| InlineObject_InlineObjectProperties :=
       Some {| IOP_EmbeddedObject :=
                 Some {| EmbeddedObject_ImageProperties :=
                           Some {| ContentUri := "https://host/pic.png" |};
                         EmbeddedObject_Title := "";
                         Description := "" |} |} |}.

(** An object whose embedded image has no content URI. *)
Definition empty_object : InlineObject :=
  {| InlineObject_InlineObjectProperties :=
       Some {| IOP_EmbeddedObject :=
                 Some {| EmbeddedObject_ImageProperties := Some {| ContentUri := "" |};
                         EmbeddedObject_Title := "t";
                         Description := "" |} |} |}.

(** A tab with a broken image reference, an image without URI, and an item
    of a list that has no definition. *)
Definition sample_broken_tab : Tab :=
  body_tab [paragraph_element
              (paragraph None None
                 [text_element "x" (Some plain_style); image_element "missing";
                  image_element "empty"; text_element newline (Some plain_style)]);
            list_item 1 "nowhere" "item"]
           (Some {[ "empty" := empty_object ]}) None.

Definition is_digit (a : ascii) : bool :=
  ((48 <=? code a) && (code a <=? 57))%nat.

Fixpoint all_bytes (P : ascii -> bool) (s : string) : bool :=
  match s with
  | EmptyString => true
  | String a s' => P a && all_bytes P s'
  end.

(** The number that a string of decimal digits denotes. *)
Definition digits_value (s : string) : option N :=
  N.of_uint <$> NilEmpty.uint_of_string s.

(** The invariant of the image extractor in the tab of index [index]: the
    counter is the number of images recorded so far (as an [int]), and the
    image recorded at position [k] is named after [index] and [k + 1]. *)
Definition numbered `{UnicodeTables} (index : Z) (c : converter) : Prop :=
  tabIndex c = index
  /\ imageCount c = int_wrap (Z.of_nat (length (images c)))
  /\ forall (k : nat) (img : ImageRef),
       images c !! k = Some img ->
       Filename img
       = image_filename index (int_wrap (Z.of_nat (S k)))
           (guessImageExtension (ContentURI img)).

(** The names at the positions [k] of a list are those of the images
    [k + 1] of the tab of index [index]. *)
Definition named_by `{UnicodeTables} (index : Z) (names : list string) : Prop :=
  forall (k : nat) (name : string),
    names !! k = Some name ->
    exists uri, name = image_filename index (Z.of_nat (S k)) (guessImageExtension uri).

(** What the task of tab [i] stores, if there is such a tab. *)
Definition task_value `{UnicodeTables} (tabs : list Tab) (i : nat)
  : option (Res tabResult) :=
  t ← tabs !! i;
  Some (res <-! ConvertTab t (tabTitle t) (Z.of_nat i);
        Ok {| title := tabTitle t;
              filename := sanitizeFilename (tabTitle t) +:+ ".md";
              result := res |}).

Definition jpg_object : InlineObject :=
  {| InlineObject_InlineObjectProperties :=
       Some {| IOP_EmbeddedObject :=
                 Some {| EmbeddedObject_ImageProperties :=
                           Some {| ContentUri := "https://host/photo" |};
                         EmbeddedObject_Title := "A photo";
                         Description := "" |} |} |}.

(** Two tabs with the same two images each. *)
Definition sample_image_tab : Tab :=
  body_tab [paragraph_element
              (paragraph None None
                 [image_element "pic"; image_element "photo";
                  text_element newline (Some plain_style)])]
           (Some {[ "pic" := png_object; "photo" := jpg_object ]}) None.

(** A table in that tab: a header of two images and a row of one. *)
Definition image_cell (id : string) : TableCell :=
  {| TableCell_Content := [paragraph_element (paragraph None None [image_element id])] |}.

Definition sample_image_table : Table :=
  {| TableRows := [ {| TableCells := [image_cell "pic"; image_cell "photo"] |};
                    {| TableCells := [image_cell "pic"] |} ] |}.

Definition sample_image_tabs : list Tab := [sample_image_tab; sample_image_tab].

Definition sample_results : list tabResult :=
  match @convertTabs sample_tables sample_image_tabs [1%nat; 0%nat] with
  | Ok results => results
  | Panic _ => []
  end.

(** ** main.go *)

(** [net/url.URL], of which [extractDocID] reads the path. *)
Record URL := { Path : string }.

(** The loop of [extractDocID]: the part that follows the first part ["d"]
    that has a part after it. *)
Fixpoint part_after_d (parts : list string) : option string :=
  match parts with
  | [] => None
  | part :: rest =>
      if String.eqb part "d"
      then match rest with
           | next :: _ => Some next
           | [] => part_after_d rest
           end
      else part_after_d rest
  end.

(** [extractDocID]; [url_Parse] is [net/url.Parse], [None] a nil error. *)
Definition extractDocID (url_Parse : string -> error + URL) (input : string)
  : string * option error :=
  let input := TrimSpace input in
  (* If it doesn't look like a URL, treat as a raw document ID. *)
  if negb (Contains input "/") then (input, None)
  else
    match url_Parse input with
    | inl err => ("", Some ("invalid URL: " +:+ err))
    | inr u =>
        (* Expected path: /document/d/DOC_ID/... *)
        let parts := Split (Trim (Path u) "/") "/" in
        match part_after_d parts with
        | Some id => (id, None)
        | None => ("", Some ("could not extract document ID from URL: " +:+ input))
        end
    end.

(** ** auth.go *)

(** [randomState]; [b] is the slice of 16 bytes as [rand.Read] leaves it. *)
Definition randomState (b : list ascii) : string := fmt_x b.

(** ** More notions of the statements *)

(** The embedded object of an inline object, if it has one. *)
Definition embedded_object (obj : InlineObject) : option EmbeddedObject :=
  props ← InlineObject_InlineObjectProperties obj; IOP_EmbeddedObject props.

(** How often a byte occurs in a string. *)
Fixpoint count_byte (a : ascii) (s : string) : nat :=
  match s with
  | EmptyString => 0%nat
  | String b s' => ((if Ascii.eqb b a then 1 else 0) + count_byte a s')%nat
  end.

(** [s] starts with [p]. *)
Definition starts_with (p s : string) : Prop := exists rest, s = p +:+ rest.

(** [t] is one of [tabs] or below one of them in the tree. *)
Inductive in_forest (t : Tab) : list Tab -> Prop :=
| in_forest_here (rest : list Tab) : in_forest t (t :: rest)
| in_forest_child (tab : Tab) (rest : list Tab) :
    in_forest t (ChildTabs tab) -> in_forest t (tab :: rest)
| in_forest_later (tab : Tab) (rest : list Tab) :
    in_forest t rest -> in_forest t (tab :: rest).

(** The number of tabs of a tree: one for the tab and those of its
    children. *)
Fixpoint tab_count (t : Tab) : nat :=
  S ((fix over (tabs : list Tab) : nat :=
        match tabs with
        | [] => 0
        | tab :: rest => tab_count tab + over rest
        end)%nat (ChildTabs t)).

Fixpoint forest_count (tabs : list Tab) : nat :=
  match tabs with
  | [] => 0%nat
  | tab :: rest => (tab_count tab + forest_count rest)%nat
  end.

(** The bytes that [sanitizeFilename] replaces or removes. *)
Definition hostile_bytes : string := "/\:*?" +:+ dquote +:+ "<>|".

Definition is_hostile (a : ascii) : bool := in_cutset hostile_bytes a.

(** The files an event trace writes, the downloads it starts and the
    directories it makes, in order. *)
Definition written_files (evs : list Event) : list (string * string) :=
  flat_map (fun ev => match ev with WriteFile path data => [(path, data)] | _ => [] end) evs.

Definition downloads (evs : list Event) : list (string * string) :=
  flat_map (fun ev => match ev with Download uri dest => [(uri, dest)] | _ => [] end) evs.

Definition made_directories (evs : list Event) : list string :=
  flat_map (fun ev => match ev with MkdirAll path => [path] | _ => [] end) evs.

(** What a trace does to the outside: its events but the messages. *)
Definition is_action (ev : Event) : bool :=
  match ev with
  | Printf _ => false
  | _ => true
  end.

Definition actions (evs : list Event) : list Event := List.filter is_action evs.

(** The world [w] with other outcomes of the downloads. *)
Definition with_downloads (w : World) (outcome : string -> string -> option error) : World :=
  {| docs_NewService := docs_NewService w;
     Documents_Get := Documents_Get w;
     filepath_Join := filepath_Join w;
     os_MkdirAll := os_MkdirAll w;
     os_WriteFile := os_WriteFile w;
     downloadImage := outcome |}.

(** The Markdown file of a result and the index, as [ExportDoc] writes them. *)
Definition tab_file (w : World) (outputDir : string) (r : tabResult) : string * string :=
  (filepath_Join w outputDir (filename r), Markdown (result r)).

Definition index_file (w : World) (outputDir : string) (results : list tabResult)
  : string * string :=
  (filepath_Join w outputDir "tabs.md", generateIndex results).

(** A parser that takes its whole input for the path. *)
Definition path_only_parse (input : string) : error + URL := inr {| Path := input |}.

(** [c'] comes from [c] by appending to the buffer and to the images:
    nothing written or recorded before is changed. *)
Definition extends (c c' : converter) : Prop :=
  tab c' = tab c /\ tabIndex c' = tabIndex c
  /\ starts_with (buf c) (buf c')
  /\ images c `prefix_of` images c'.

(** The names of the heading styles. *)
Definition heading_names : list string := heading_styles.*1.

(** The value of a hexadecimal digit. *)
Definition hex_value (a : ascii) : nat :=
  let n := code a in
  if (n <? 58)%nat then (n - 48)%nat else (n - 87)%nat.

Definition is_hex (a : ascii) : bool :=
  let n := code a in
  ((48 <=? n) && (n <=? 57) || (97 <=? n) && (n <=? 102))%nat.

(** The bytes that two hexadecimal digits each denote. *)
Fixpoint unhex (s : string) : list ascii :=
  match s with
  | String hi (String lo rest) => byte (16 * hex_value hi + hex_value lo) :: unhex rest
  | _ => []
  end.

(** The download that [downloadImages] starts for an image. *)
Definition image_download (w : World) (img : imageDownload) : string * string :=
  (ContentURI (ref img), filepath_Join w (imagesDir img) (Filename (ref img))).

(** The events of the download of an image, of the write of the Markdown
    file of a result and of the write of the index. *)
Definition download_event (w : World) (img : imageDownload) : Event :=
  Download (ContentURI (ref img)) (filepath_Join w (imagesDir img) (Filename (ref img))).

Definition tab_write (w : World) (outputDir : string) (r : tabResult) : Event :=
  WriteFile (filepath_Join w outputDir (filename r)) (Markdown (result r)).



(** A world like [sample_world] in which every write fails. *)
Definition full_disk_world (doc : Document) : World :=
  {| docs_NewService := None;
     Documents_Get := fun _ => inr doc;
     filepath_Join := fun dir name => dir +:+ "/" +:+ name;
     os_MkdirAll := fun _ => None;
     os_WriteFile := fun _ _ => Some "disk full";
     downloadImage := fun _ _ => None |}.

Definition not_slash (a : ascii) : bool := negb (Ascii.eqb a (byte 47)).

(** * Facts *)

(** ** Strings *)

Section StringFacts.

Lemma append_cons (a : ascii) (s t : string) :
  String a s +:+ t = String a (s +:+ t).
Proof. reflexivity. Qed.

Lemma append_nil_r (s : string) : s +:+ "" = s.
Proof. induction s as [|a s IH]; [reflexivity|]. rewrite append_cons, IH. reflexivity. Qed.

Lemma append_assoc (s t u : string) : (s +:+ t) +:+ u = s +:+ t +:+ u.
Proof.
  induction s as [|a s IH]; [reflexivity|].
  rewrite !append_cons, IH. reflexivity.
Qed.

Lemma rev_app_append (s acc : string) :
  String.rev_app s acc = String.rev s +:+ acc.
Proof.
  unfold String.rev. revert acc.
  induction s as [|a s IH]; intros acc; [reflexivity|].
  cbn [String.rev_app]. rewrite IH, (IH (String a "")), append_assoc.
  reflexivity.
Qed.

Lemma rev_append (s t : string) :
  String.rev (s +:+ t) = String.rev t +:+ String.rev s.
Proof.
  induction s as [|a s IH].
  - change ("" +:+ t) with t. rewrite append_nil_r. reflexivity.
  - rewrite append_cons. unfold String.rev at 1 3. cbn [String.rev_app].
    rewrite !rev_app_append, IH, append_assoc. reflexivity.
Qed.

Lemma prefix_nil (s : string) : String.prefix "" s = true.
Proof. destruct s; reflexivity. Qed.

Lemma prefix_append (p s : string) : String.prefix p (p +:+ s) = true.
Proof.
  induction p as [|a p IH]; [apply prefix_nil|].
  rewrite append_cons. cbn [String.prefix].
  destruct (ascii_dec a a); [exact IH | congruence].
Qed.

Lemma HasSuffix_append (s t : string) : HasSuffix (s +:+ t) t = true.
Proof. unfold HasSuffix. rewrite rev_append. apply prefix_append. Qed.

Lemma HasSuffix_refl (s : string) : HasSuffix s s = true.
Proof. apply (HasSuffix_append "" s). Qed.

(** A string that ends in the byte [a] does not end in another byte. *)
Lemma HasSuffix_last_byte (s : string) (a b : ascii) :
  a ≠ b -> HasSuffix (s +:+ String a "") (String b "") = false.
Proof.
  intros Hab. unfold HasSuffix. rewrite rev_append.
  change (String.rev (String a "")) with (String a "").
  change (String.rev (String b "")) with (String b "").
  rewrite append_cons. cbn [String.prefix].
  destruct (ascii_dec b a); [congruence | reflexivity].
Qed.

Lemma existsb_eqb_In (x : string) (l : list string) :
  existsb (String.eqb x) l = true <-> In x l.
Proof.
  rewrite existsb_exists. split.
  - intros (y & Hy & Heq). apply String.eqb_eq in Heq. congruence.
  - intros Hin. exists x. split; [exact Hin | apply String.eqb_refl].
Qed.

End StringFacts.

(** ** The style renderer *)

Section StyleRenderer.

Context `{UnicodeTables}.

Lemma isMonospace_iff (style : TextStyle) :
  isMonospace style = true
  <-> exists wff, TextStyle_WeightedFontFamily style = Some wff
                  /\ monospace_name (FontFamily wff).
Proof.
  unfold isMonospace, monospace_name.
  destruct (TextStyle_WeightedFontFamily style) as [wff|].
  - destruct (existsb _ monospace_families) eqn:Hex.
    + split; [|reflexivity]. intros _. exists wff. split; [reflexivity|].
      left. apply existsb_eqb_In. exact Hex.
    + rewrite orb_true_iff. split.
      * intros Hc. exists wff. split; [reflexivity|]. right. exact Hc.
      * intros (wff' & [= <-] & [Hin | Hc]); [|exact Hc].
        apply existsb_eqb_In in Hin. congruence.
  - split; [discriminate|]. intros (wff & Hw & _). discriminate.
Qed.

Lemma TrimSpace_newline : TrimSpace newline = "".
Proof. reflexivity. Qed.

(** The monospace branch of [renderTextRun]. *)
Lemma renderTextRun_monospace (content : string) (style : TextStyle) :
  isMonospace style = true ->
  TrimSpace content <> "" ->
  renderTextRun {| TextRun_Content := content; TextRun_TextStyle := Some style |}
  = "`" +:+ TrimSpace content +:+ "`".
Proof.
  intros Hmono Hne. unfold renderTextRun. cbn [TextRun_Content TextRun_TextStyle].
  destruct (String.eqb_spec content newline) as [-> | _].
  - exfalso. apply Hne. apply TrimSpace_newline.
  - rewrite Hmono. apply String.eqb_neq in Hne. rewrite Hne. reflexivity.
Qed.

(** The styled branch of [renderTextRun], for a run that is not rendered
    as code. *)
Lemma renderTextRun_styled (content : string) (style : TextStyle) :
  isMonospace style && negb (String.eqb (TrimSpace content) "") = false ->
  renderTextRun {| TextRun_Content := content; TextRun_TextStyle := Some style |}
  = let body := TrimRight content newline in
    let nl := if HasSuffix content newline then newline else "" in
    if String.eqb body "" then nl
    else link_wrap style (strike style (emphasis style body)) +:+ nl.
Proof.
  intros Hcode. unfold renderTextRun. cbn [TextRun_Content TextRun_TextStyle].
  destruct (String.eqb_spec content newline) as [-> | _]; [reflexivity|].
  rewrite Hcode. cbv zeta.
  destruct (String.eqb (TrimRight content newline) ""); [reflexivity|].
  destruct (HasSuffix content newline); [reflexivity|].
  rewrite append_nil_r. reflexivity.
Qed.

Lemma styled_explicit (style : TextStyle) (body : string) :
  link_wrap style (strike style (emphasis style body))
  = let em := emphasis_marker (Bold style) (Italic style) in
    let st := strike_marker (Strikethrough style) in
    let label := st +:+ em +:+ body +:+ em +:+ st in
    match TextStyle_Link style with
    | Some l => if String.eqb (Url l) "" then label
                else "[" +:+ label +:+ "](" +:+ Url l +:+ ")"
    | None => label
    end.
Proof.
  assert (Hlabel : strike style (emphasis style body)
                   = strike_marker (Strikethrough style)
                     +:+ emphasis_marker (Bold style) (Italic style) +:+ body
                     +:+ emphasis_marker (Bold style) (Italic style)
                     +:+ strike_marker (Strikethrough style)).
  { unfold strike, emphasis, strike_marker, emphasis_marker.
    destruct (Bold style), (Italic style), (Strikethrough style);
      cbn [andb]; rewrite ?append_assoc, ?append_nil_r; reflexivity. }
  unfold link_wrap. cbv zeta. rewrite Hlabel.
  destruct (TextStyle_Link style) as [l|]; [|reflexivity].
  destruct (String.eqb (Url l) ""); reflexivity.
Qed.

End StyleRenderer.

(** ** Claims on the style renderer *)

(** C4. A text run whose font family is a monospace one (its lower-cased
    name is a known family, or has "mono" or "courier" in it) and whose
    content is not blank after trimming renders as exactly the trimmed
    content between backticks, whatever the bold, italic and
    strikethrough flags and the link of its style are. *)
Theorem monospace_run_renders_as_inline_code `{UnicodeTables}
    (content family : string) (bold italic strikethrough : bool) (link : option Link) :
  monospace_name family ->
  TrimSpace content <> "" ->
  renderTextRun
    {| TextRun_Content := content;
       TextRun_TextStyle :=
         Some {| Bold := bold; Italic := italic; Strikethrough := strikethrough;
                 TextStyle_Link := link;
                 TextStyle_WeightedFontFamily := Some {| FontFamily := family |} |} |}
  = "`" +:+ TrimSpace content +:+ "`".
Proof.
  intros Hname Hcontent. apply renderTextRun_monospace; [|exact Hcontent].
  apply isMonospace_iff. eexists. split; [reflexivity|]. exact Hname.
Qed.

Lemma monospace_run_renders_as_inline_code_witness :
  @monospace_name sample_tables "Consolas"
  /\ TrimSpace " x " <> ""
  /\ @renderTextRun sample_tables
       (sample_run " x " (Some (sample_style true true true (Some "https://x") (Some "Consolas"))))
     = "`x`".
Proof.
  assert (Hname : @monospace_name sample_tables "Consolas").
  { left. vm_compute. tauto. }
  assert (Hcontent : TrimSpace " x " <> "") by (vm_compute; discriminate).
  split; [exact Hname|]. split; [exact Hcontent|].
  exact (@monospace_run_renders_as_inline_code sample_tables " x " "Consolas"
           true true true (Some {| Url := "https://x" |}) Hname Hcontent).
Defined.

(** C5. For a text run that is not monospace, the markers nest in a fixed
    order around what is left of the content once its trailing newlines
    are detached: the bold/italic marker innermost (three stars for bold
    and italic, two for bold, one for italic), the strikethrough marker
    around it, the link around both when the URL is not empty, and one
    newline appended last when the content ended in one.  (When nothing is
    left of the content, the result is that newline alone, or nothing.)  In
    particular bold, strikethrough, link https://x and content "hi" give
    [~~**hi**~~](https://x). *)
Theorem style_markers_nest_in_fixed_order `{UnicodeTables}
    (content : string) (style : TextStyle) :
  isMonospace style = false ->
  renderTextRun {| TextRun_Content := content; TextRun_TextStyle := Some style |}
  = (let body := TrimRight content newline in
     let nl := if HasSuffix content newline then newline else "" in
     let em := emphasis_marker (Bold style) (Italic style) in
     let st := strike_marker (Strikethrough style) in
     let label := st +:+ em +:+ body +:+ em +:+ st in
     if String.eqb body "" then nl
     else match TextStyle_Link style with
          | Some l => if String.eqb (Url l) "" then label
                      else "[" +:+ label +:+ "](" +:+ Url l +:+ ")"
          | None => label
          end +:+ nl)
  /\ renderTextRun
       (sample_run "hi" (Some (sample_style true false true (Some "https://x") None)))
     = "[~~**hi**~~](https://x)".
Proof.
  intros Hmono. split; [|reflexivity].
  rewrite renderTextRun_styled by (rewrite Hmono; reflexivity).
  cbv zeta. rewrite styled_explicit. reflexivity.
Qed.

Lemma style_markers_nest_in_fixed_order_witness :
  @isMonospace sample_tables (sample_style true true false None (Some "Arial")) = false
  /\ @renderTextRun sample_tables
       (sample_run ("hi" +:+ newline) (Some (sample_style true true false None (Some "Arial"))))
     = "***hi***" +:+ newline.
Proof.
  assert (Hmono : @isMonospace sample_tables
                    (sample_style true true false None (Some "Arial")) = false)
    by reflexivity.
  split; [exact Hmono|].
  exact (proj1 (@style_markers_nest_in_fixed_order sample_tables ("hi" +:+ newline)
                  (sample_style true true false None (Some "Arial")) Hmono)).
Defined.

(** C9. A monospace run whose content is not blank loses any trailing
    newline of its content: its rendering is the trimmed content between
    backticks and does not end in a newline, whereas a run with the same
    content and a style that is not monospace ends in a newline whenever
    the content does. *)
Theorem monospace_run_drops_trailing_newline `{UnicodeTables}
    (content : string) (style : TextStyle) :
  isMonospace style = true ->
  TrimSpace content <> "" ->
  renderTextRun {| TextRun_Content := content; TextRun_TextStyle := Some style |}
  = "`" +:+ TrimSpace content +:+ "`"
  /\ HasSuffix
       (renderTextRun {| TextRun_Content := content; TextRun_TextStyle := Some style |})
       newline = false
  /\ forall plain : TextStyle,
       isMonospace plain = false ->
       HasSuffix content newline = true ->
       HasSuffix
         (renderTextRun {| TextRun_Content := content; TextRun_TextStyle := Some plain |})
         newline = true.
Proof.
  intros Hmono Hcontent.
  rewrite (renderTextRun_monospace content style Hmono Hcontent).
  split; [reflexivity|]. split.
  - rewrite <- append_assoc. apply HasSuffix_last_byte. discriminate.
  - intros plain Hplain Hnl.
    rewrite renderTextRun_styled by (rewrite Hplain; reflexivity).
    cbv zeta. rewrite Hnl.
    destruct (String.eqb (TrimRight content newline) "").
    + apply HasSuffix_refl.
    + apply HasSuffix_append.
Qed.

Lemma monospace_run_drops_trailing_newline_witness :
  @isMonospace sample_tables (sample_style false false false None (Some "Roboto Mono")) = true
  /\ TrimSpace ("let x" +:+ newline) <> ""
  /\ @renderTextRun sample_tables
       (sample_run ("let x" +:+ newline)
                   (Some (sample_style false false false None (Some "Roboto Mono"))))
     = "`let x`".
Proof.
  assert (Hmono : @isMonospace sample_tables
                    (sample_style false false false None (Some "Roboto Mono")) = true)
    by reflexivity.
  assert (Hcontent : TrimSpace ("let x" +:+ newline) <> "") by (vm_compute; discriminate).
  split; [exact Hmono|]. split; [exact Hcontent|].
  exact (proj1 (@monospace_run_drops_trailing_newline sample_tables ("let x" +:+ newline)
                  (sample_style false false false None (Some "Roboto Mono"))
                  Hmono Hcontent)).
Defined.

(** ** The table renderer *)

Section TableFacts.

Context `{UnicodeTables}.

Lemma same_frame_refl (c : converter) : same_frame c c.
Proof. repeat split. Qed.

Lemma same_frame_trans (c1 c2 c3 : converter) :
  same_frame c1 c2 -> same_frame c2 c3 -> same_frame c1 c3.
Proof.
  intros (Ha & Hb & Hc & Hd) (Ha' & Hb' & Hc' & Hd').
  repeat split; congruence.
Qed.

(** [renderInlineObject] either skips the element and leaves the
    converter alone, or records one image under the next number. *)
Lemma renderInlineObject_cases (elem : InlineObjectElement) (c : converter) :
  renderInlineObject elem c = ("", c)
  \/ exists uri alt : string,
       let n := int_add (imageCount c) 1 in
       let name := image_filename (tabIndex c) n (guessImageExtension uri) in
       renderInlineObject elem c
       = ("![" +:+ alt +:+ "](images/" +:+ name +:+ ")",
          {| tab := tab c; tabIndex := tabIndex c; buf := buf c;
             images := images c ++ [ {| ObjectID := InlineObjectId elem;
                                        ContentURI := uri;
                                        Filename := name |} ];
             imageCount := n;
             listState := listState c |}).
Proof.
  unfold renderInlineObject.
  destruct (Tab_DocumentTab (tab c)) as [dt|]; [|left; reflexivity].
  destruct (InlineObjects dt) as [objs|]; [|left; reflexivity].
  destruct (objs !! InlineObjectId elem) as [obj|]; [|left; reflexivity].
  destruct (InlineObject_InlineObjectProperties obj) as [props|]; [|left; reflexivity].
  destruct (IOP_EmbeddedObject props) as [embedded|]; [|left; reflexivity].
  destruct (EmbeddedObject_ImageProperties embedded) as [ip|]; [|left; reflexivity].
  destruct (String.eqb (ContentUri ip) ""); [left; reflexivity|].
  right. eexists _, _. reflexivity.
Qed.

Lemma renderInlineObject_frame (elem : InlineObjectElement) (c : converter) :
  same_frame c (renderInlineObject elem c).2.
Proof.
  destruct (renderInlineObject_cases elem c) as [-> | (uri & alt & ->)];
    repeat split.
Qed.

Lemma renderParagraphElement_frame (elem : ParagraphElement) (c : converter) :
  same_frame c (renderParagraphElement elem c).2.
Proof.
  unfold renderParagraphElement.
  destruct (PE_TextRun elem); [apply same_frame_refl|].
  destruct (PE_InlineObjectElement elem); [apply renderInlineObject_frame|].
  destruct (PE_HorizontalRule elem); apply same_frame_refl.
Qed.

Lemma renderParagraphElements_frame (elements : list ParagraphElement) (c : converter) :
  same_frame c (renderParagraphElements elements c).2.
Proof.
  revert c. induction elements as [|elem rest IH]; intros c; cbn.
  - apply same_frame_refl.
  - pose proof (renderParagraphElement_frame elem c) as H1.
    destruct (renderParagraphElement elem c) as [s c1].
    pose proof (IH c1) as H2.
    destruct (renderParagraphElements rest c1) as [s' c2].
    eapply same_frame_trans; eassumption.
Qed.

Lemma cell_text_frame (content : list StructuralElement) (c : converter) :
  same_frame c (cell_text content c).2.
Proof.
  revert c. induction content as [|elem rest IH]; intros c; cbn.
  - apply same_frame_refl.
  - destruct (SE_Paragraph elem) as [p|]; [|apply IH].
    pose proof (renderParagraphElements_frame (Elements p) c) as H1.
    destruct (renderParagraphElements (Elements p) c) as [text c1].
    pose proof (IH c1) as H2.
    destruct (cell_text rest c1) as [more c2].
    eapply same_frame_trans; eassumption.
Qed.

Lemma row_cells_frame (cells : list TableCell) (c : converter) :
  same_frame c (row_cells cells c).2.
Proof.
  revert c. induction cells as [|cell rest IH]; intros c; cbn.
  - apply same_frame_refl.
  - pose proof (cell_text_frame (TableCell_Content cell) c) as H1.
    destruct (cell_text (TableCell_Content cell) c) as [text c1].
    pose proof (IH c1) as H2.
    destruct (row_cells rest c1) as [more c2].
    eapply same_frame_trans; eassumption.
Qed.

Lemma table_rows_frame (rows : list TableRow) (c : converter) :
  same_frame c (table_rows rows c).2.
Proof.
  revert c. induction rows as [|row rest IH]; intros c; cbn.
  - apply same_frame_refl.
  - pose proof (row_cells_frame (TableCells row) c) as H1.
    destruct (row_cells (TableCells row) c) as [cells c1].
    pose proof (IH c1) as H2.
    destruct (table_rows rest c1) as [more c2].
    eapply same_frame_trans; eassumption.
Qed.

(** Replacing a one-byte string is a substitution on bytes. *)
Lemma ReplaceAll_byte (s : string) (old : ascii) (new : string) :
  ReplaceAll s (String old "") new
  = bytewise (fun a => if Ascii.eqb a old then new else String a "") s.
Proof.
  unfold ReplaceAll. induction s as [|a s IH]; [reflexivity|].
  cbn [replace_from String.prefix bytewise].
  destruct (ascii_dec old a) as [<- | Hne].
  - rewrite prefix_nil, Ascii.eqb_refl. cbn [String.length Nat.sub].
    rewrite IH. reflexivity.
  - destruct (Ascii.eqb_spec a old) as [-> | _]; [congruence|].
    rewrite IH. reflexivity.
Qed.

Lemma bytewise_append (f : ascii -> string) (s t : string) :
  bytewise f (s +:+ t) = bytewise f s +:+ bytewise f t.
Proof.
  induction s as [|a s IH]; [reflexivity|].
  rewrite append_cons. cbn [bytewise]. rewrite IH, append_assoc. reflexivity.
Qed.

Lemma bytewise_bytewise (f g : ascii -> string) (s : string) :
  bytewise g (bytewise f s) = bytewise (fun a => bytewise g (f a)) s.
Proof.
  induction s as [|a s IH]; [reflexivity|].
  cbn [bytewise]. rewrite bytewise_append, IH. reflexivity.
Qed.

Lemma bytewise_ext (f g : ascii -> string) (s : string) :
  (forall a, f a = g a) -> bytewise f s = bytewise g s.
Proof.
  intros Hfg. induction s as [|a s IH]; [reflexivity|].
  cbn [bytewise]. rewrite Hfg, IH. reflexivity.
Qed.

(** Lines 287-288 escape a cell byte by byte. *)
Lemma escape_cell_bytewise (cellText : string) :
  escape_cell cellText = bytewise escape_byte cellText.
Proof.
  unfold escape_cell.
  change "|" with (String (byte 124) "").
  change newline with (String (byte 10) "").
  rewrite !ReplaceAll_byte, bytewise_bytewise.
  apply bytewise_ext. intros a. unfold escape_byte.
  destruct (Ascii.eqb_spec a (byte 124)) as [-> | Hpipe]; [reflexivity|].
  cbn [bytewise]. rewrite append_nil_r.
  destruct (Ascii.eqb a (byte 10)); reflexivity.
Qed.

Lemma rendered_from_app (c : converter) (ps qs : list Paragraph) :
  rendered_from c (ps ++ qs) = rendered_from (rendered_from c ps) qs.
Proof. apply fold_left_app. Qed.

(** The loop over the content of a cell gives the text of its
    paragraphs and leaves the converter as they do. *)
Lemma cell_text_spec (content : list StructuralElement) (c : converter) :
  cell_text content c
  = (paragraphs_text (omap SE_Paragraph content) c,
     rendered_from c (omap SE_Paragraph content)).
Proof.
  revert c. induction content as [|elem rest IH]; intros c; [reflexivity|].
  cbn [cell_text omap list_omap]. destruct (SE_Paragraph elem) as [p|]; [|apply IH].
  cbn [paragraphs_text rendered_from fold_left].
  destruct (renderParagraphElements (Elements p) c) as [text c1]. cbn [fst snd].
  rewrite IH. reflexivity.
Qed.

(** The cells of a row of which the cells [done] are rendered already. *)
Lemma row_cells_from (c : converter) (before : list Paragraph)
    (done todo : list TableCell) :
  row_cells todo (rendered_from c (before ++ flat_map cell_paragraphs done))
  = (imap (fun j cell =>
             bytewise escape_byte
               (spec_cell_text
                  (rendered_from c
                     (before ++ flat_map cell_paragraphs
                                  (take (length done + j) (done ++ todo))))
                  cell))
          todo,
     rendered_from c (before ++ flat_map cell_paragraphs (done ++ todo))).
Proof.
  revert done. induction todo as [|cell rest IH]; intros done.
  - rewrite app_nil_r. reflexivity.
  - cbn [row_cells]. rewrite cell_text_spec.
    fold (cell_paragraphs cell).
    rewrite <- rendered_from_app, <- app_assoc.
    replace (flat_map cell_paragraphs done ++ cell_paragraphs cell)
      with (flat_map cell_paragraphs (done ++ [cell]))
      by (rewrite flat_map_app; cbn [flat_map]; rewrite app_nil_r; reflexivity).
    rewrite IH, <- app_assoc. cbn [app].
    rewrite imap_cons. f_equal. f_equal.
    + rewrite Nat.add_0_r, take_app_length, escape_cell_bytewise. reflexivity.
    + apply imap_ext. intros j x _. cbn.
      rewrite length_app. cbn [length].
      replace (length done + 1 + j)%nat with (length done + S j)%nat by lia.
      reflexivity.
Qed.

Lemma row_cells_expected (c : converter) (before : list Paragraph) (row : TableRow) :
  row_cells (TableCells row) (rendered_from c before)
  = (expected_row c before row, rendered_from c (before ++ row_paragraphs row)).
Proof.
  pose proof (row_cells_from c before [] (TableCells row)) as Hrow.
  cbn [flat_map app length Nat.add] in Hrow. rewrite app_nil_r in Hrow.
  exact Hrow.
Qed.

(** The rows of a table of which the rows [done] are rendered already. *)
Lemma table_rows_from (c : converter) (done todo : list TableRow) :
  table_rows todo (rendered_from c (flat_map row_paragraphs done))
  = (imap (fun i row =>
             expected_row c
               (flat_map row_paragraphs (take (length done + i) (done ++ todo))) row)
          todo,
     rendered_from c (flat_map row_paragraphs (done ++ todo))).
Proof.
  revert done. induction todo as [|row rest IH]; intros done.
  - rewrite app_nil_r. reflexivity.
  - cbn [table_rows]. rewrite row_cells_expected.
    replace (flat_map row_paragraphs done ++ row_paragraphs row)
      with (flat_map row_paragraphs (done ++ [row]))
      by (rewrite flat_map_app; cbn [flat_map]; rewrite app_nil_r; reflexivity).
    rewrite IH, <- app_assoc. cbn [app].
    rewrite imap_cons. f_equal. f_equal.
    + rewrite Nat.add_0_r, take_app_length. reflexivity.
    + apply imap_ext. intros i x _. cbn.
      rewrite length_app. cbn [length].
      replace (length done + 1 + i)%nat with (length done + S i)%nat by lia.
      reflexivity.
Qed.

(** The rendered rows of a table are the rows as the table shows them,
    cell for cell. *)
Lemma table_rows_renders (rows : list TableRow) (c : converter) :
  (table_rows rows c).1 = expected_rows c rows.
Proof.
  pose proof (table_rows_from c [] rows) as Hrows.
  cbn [flat_map app length Nat.add] in Hrows.
  change (rendered_from c []) with c in Hrows.
  rewrite Hrows. reflexivity.
Qed.

(** Every row is shown with as many cells as it has. *)
Lemma expected_rows_cells (rows : list TableRow) (c : converter) :
  Forall2 (fun row cells => length cells = length (TableCells row))
          rows (expected_rows c rows).
Proof.
  apply Forall2_same_length_lookup. split.
  - unfold expected_rows. rewrite length_imap. reflexivity.
  - intros i row cells Hrow Hcells. unfold expected_rows in Hcells.
    rewrite list_lookup_imap, Hrow in Hcells. injection Hcells as <-.
    unfold expected_row. apply length_imap.
Qed.

(** A table of cells of text without style: the cells are the trimmed
    and escaped contents, and no image is recorded. *)
Lemma row_cells_unstyled (cells : list string) (c : converter) :
  row_cells (unstyled_cell <$> cells) c = (shown <$> cells, c).
Proof.
  induction cells as [|s rest IH]; [reflexivity|].
  cbn [fmap list_fmap row_cells]. fold (fmap unstyled_cell rest).
  assert (Hcell : cell_text (TableCell_Content (unstyled_cell s)) c = (TrimSpace s, c)).
  { cbn. unfold renderTextRun. cbn [TextRun_Content TextRun_TextStyle sample_run].
    destruct (String.eqb s newline); rewrite !append_nil_r; reflexivity. }
  rewrite Hcell, IH, escape_cell_bytewise. reflexivity.
Qed.

Lemma table_rows_unstyled (rows : list (list string)) (c : converter) :
  table_rows (unstyled_row <$> rows) c
  = (list_fmap _ _ (list_fmap _ _ shown) rows, c).
Proof.
  induction rows as [|row rest IH]; [reflexivity|].
  cbn [fmap list_fmap table_rows]. fold (fmap unstyled_row rest).
  cbn [unstyled_row TableCells]. rewrite row_cells_unstyled, IH. reflexivity.
Qed.

(** The padding loop appends empty cells and never removes a cell. *)
Lemma pad_row_spec (n : nat) (row : list string) :
  pad_row n row = row ++ replicate (n - length row) "".
Proof.
  unfold pad_row. generalize (n - length row)%nat as k. intros k.
  induction k as [|k IH].
  - cbn. rewrite app_nil_r. reflexivity.
  - rewrite Nat.iter_succ, IH, replicate_S_end, app_assoc. reflexivity.
Qed.

Lemma data_lines_pipe_lines (n : nat) (data : list (list string)) :
  data_lines n data
  = pipe_lines ((fun row => row ++ replicate (n - length row) "") <$> data).
Proof.
  induction data as [|row rest IH]; [reflexivity|].
  cbn [data_lines fmap list_fmap pipe_lines]. unfold table_line.
  rewrite pad_row_spec, IH, !append_assoc. reflexivity.
Qed.

Lemma pipe_lines_app (rows rows' : list (list string)) :
  pipe_lines (rows ++ rows') = pipe_lines rows +:+ pipe_lines rows'.
Proof.
  induction rows as [|row rest IH]; [reflexivity|].
  cbn [app pipe_lines]. rewrite IH, !append_assoc. reflexivity.
Qed.

(** [convertTable] appends the Markdown of the rendered rows. *)
Lemma convertTable_buf (t : Table) (c : converter) :
  buf (convertTable (Some t) c)
  = buf c +:+ table_markdown (table_rows (TableRows t) c).1.
Proof.
  unfold convertTable.
  pose proof (table_rows_frame (TableRows t) c) as (_ & _ & Hbuf & _).
  destruct (TableRows t) as [|hrow drows] eqn:Hrows.
  - cbn. rewrite append_nil_r. reflexivity.
  - cbn [length Nat.eqb].
    destruct (table_rows (hrow :: drows) c) as [rows c1]. cbn [fst snd] in *.
    destruct rows as [|header data].
    + cbn. rewrite append_nil_r. exact Hbuf.
    + cbn [length Nat.eqb WriteString buf]. rewrite Hbuf. reflexivity.
Qed.

(** What [convertTable] writes for rendered rows that begin with
    [header]. *)
Lemma convertTable_rows (t : Table) (c : converter) (header : list string)
    (data : list (list string)) :
  (table_rows (TableRows t) c).1 = header :: data ->
  buf (convertTable (Some t) c)
  = buf c
    +:+ pipe_lines [header; replicate (length header) "---"]
    +:+ pipe_lines ((fun row => row ++ replicate (length header - length row) "")
                      <$> data)
    +:+ newline.
Proof.
  intros Hrows. rewrite convertTable_buf, Hrows.
  cbn [table_markdown pipe_lines]. rewrite data_lines_pipe_lines. unfold table_line.
  rewrite !append_assoc. reflexivity.
Qed.

End TableFacts.

(** ** Claims on the table renderer *)

(** C6. A table without rows produces nothing.  Otherwise the first row is
    the header: its line is followed by a separator line with one [---]
    cell for each cell of the header row, then by one line for each further
    row, a row shorter than the header being filled up with empty cells to
    the length of the header, and by an empty line.  Every row is shown
    with the cells it has, and a cell is shown as its text (the rendered
    texts of its paragraphs, each trimmed) with every pipe escaped with a
    backslash and every newline replaced by one space; the cells are
    rendered in reading order, which decides the numbers of their images.
    For a table of cells of text without style these texts are the
    trimmed contents themselves. *)
Theorem table_renders_as_pipe_table `{UnicodeTables} (t : Table) (c : converter) :
  (TableRows t = [] -> convertTable (Some t) c = c)
  /\ (forall (hrow : TableRow) (drows : list TableRow),
        TableRows t = hrow :: drows ->
        exists (header : list string) (data : list (list string)),
          expected_rows c (TableRows t) = header :: data
          /\ header = expected_row c [] hrow
          /\ length header = length (TableCells hrow)
          /\ Forall2 (fun row cells => length cells = length (TableCells row))
                     drows data
          /\ buf (convertTable (Some t) c)
             = buf c
               +:+ pipe_lines [header; replicate (length header) "---"]
               +:+ pipe_lines
                     ((fun row => row ++ replicate (length header - length row) "")
                        <$> data)
               +:+ newline)
  /\ (forall (hcells : list string) (drows : list (list string)),
        buf (convertTable (Some (unstyled_table (hcells :: drows))) c)
        = buf c
          +:+ pipe_lines [shown <$> hcells; replicate (length hcells) "---"]
          +:+ pipe_lines
                ((fun row => (shown <$> row)
                             ++ replicate (length hcells - length row) "")
                   <$> drows)
          +:+ newline).
Proof.
  split; [|split].
  - intros Hrows. unfold convertTable. rewrite Hrows. reflexivity.
  - intros hrow drows Hrows.
    pose proof (expected_rows_cells (TableRows t) c) as Hcells.
    pose proof (table_rows_renders (TableRows t) c) as Hren.
    assert (Hhead : forall header data,
              expected_rows c (hrow :: drows) = header :: data ->
              header = expected_row c [] hrow).
    { unfold expected_rows. rewrite imap_cons. intros header data Heq.
      injection Heq as <- _. reflexivity. }
    rewrite Hrows in Hcells, Hren |- *.
    destruct (expected_rows c (hrow :: drows)) as [|header data] eqn:Hexp.
    { apply Forall2_nil_inv_r in Hcells. discriminate. }
    apply Forall2_cons_1 in Hcells as [Hlen Hdata].
    exists header, data.
    split; [reflexivity|]. split; [apply (Hhead _ data); reflexivity|].
    split; [exact Hlen|]. split; [exact Hdata|].
    apply convertTable_rows. rewrite Hrows. exact Hren.
  - intros hcells drows.
    rewrite (convertTable_rows (unstyled_table (hcells :: drows)) c
               (shown <$> hcells) (list_fmap _ _ (list_fmap _ _ shown) drows)).
    + rewrite length_fmap, <- list_fmap_compose. do 4 f_equal.
      apply list_fmap_ext. intros i row _. cbn. rewrite length_fmap. reflexivity.
    + cbn [unstyled_table TableRows]. rewrite table_rows_unstyled. reflexivity.
Qed.

Lemma table_renders_as_pipe_table_witness :
  @convertTable sample_tables (Some (text_table [])) (new_converter (leaf_tab None) 0)
  = new_converter (leaf_tab None) 0
  /\ @expected_rows sample_tables (new_converter (leaf_tab None) 0)
       (TableRows sample_table)
     = [["name"; "value"]; ["a"]; ["b\|c"; "d e"; "f"]]
  /\ buf (@convertTable sample_tables (Some sample_table)
            (new_converter (leaf_tab None) 0))
     = "| name | value |" +:+ newline
       +:+ "| --- | --- |" +:+ newline
       +:+ "| a |  |" +:+ newline
       +:+ "| b\|c | d e | f |" +:+ newline
       +:+ newline
  /\ buf (@convertTable sample_tables (Some sample_image_table)
            (new_converter sample_image_tab 0))
     = "| ![tab0_image_001.png](images/tab0_image_001.png)"
       +:+ " | ![A photo](images/tab0_image_002.jpg) |" +:+ newline
       +:+ "| --- | --- |" +:+ newline
       +:+ "| ![tab0_image_003.png](images/tab0_image_003.png) |  |" +:+ newline
       +:+ newline.
Proof.
  split; [|split; [|split]].
  - exact (proj1 (@table_renders_as_pipe_table sample_tables (text_table [])
                    (new_converter (leaf_tab None) 0)) eq_refl).
  - reflexivity.
  - destruct (proj1 (proj2 (@table_renders_as_pipe_table sample_tables sample_table
                              (new_converter (leaf_tab None) 0)))
                _ _ eq_refl) as (header & data & Hrows & _ & _ & _ & Hbuf).
    injection Hrows as <- <-. exact Hbuf.
  - destruct (proj1 (proj2 (@table_renders_as_pipe_table sample_tables
                              sample_image_table (new_converter sample_image_tab 0)))
                _ _ eq_refl) as (header & data & Hrows & _ & _ & _ & Hbuf).
    vm_compute in Hrows. injection Hrows as <- <-. exact Hbuf.
Defined.

(** C10. A row is filled up to the length of the header but never cut: the
    line of a data row that has more cells than the header has all the
    cells of the row, so it can have more columns than the header and the
    separator, as the last row of the sample table does.  ([table_rows]
    gives the escaped cell texts of the rows of the table.) *)
Theorem long_table_row_is_not_truncated `{UnicodeTables} (t : Table) (c : converter)
    (header : list string) (before : list (list string)) (row : list string)
    (after : list (list string)) :
  (table_rows (TableRows t) c).1 = header :: before ++ row :: after ->
  (length header < length row)%nat ->
  buf (convertTable (Some t) c)
  = buf c
    +:+ pipe_lines [header; replicate (length header) "---"]
    +:+ pipe_lines
          ((fun row => row ++ replicate (length header - length row) "") <$> before)
    +:+ pipe_lines [row]
    +:+ pipe_lines
          ((fun row => row ++ replicate (length header - length row) "") <$> after)
    +:+ newline.
Proof.
  intros Hrows Hlong. rewrite convertTable_buf, Hrows.
  cbn [table_markdown pipe_lines]. unfold table_line.
  rewrite data_lines_pipe_lines, fmap_app, fmap_cons, !pipe_lines_app.
  replace (length header - length row)%nat with 0%nat by lia.
  cbn [replicate]. rewrite app_nil_r.
  change (row :: ?rest) with ([row] ++ rest).
  rewrite pipe_lines_app. cbn [pipe_lines]. rewrite !append_assoc. reflexivity.
Qed.

Lemma long_table_row_is_not_truncated_witness :
  buf (@convertTable sample_tables (Some sample_table) (new_converter (leaf_tab None) 0))
  = "| name | value |" +:+ newline
    +:+ "| --- | --- |" +:+ newline
    +:+ "| a |  |" +:+ newline
    +:+ "| b\|c | d e | f |" +:+ newline
    +:+ newline.
Proof.
  exact (@long_table_row_is_not_truncated sample_tables sample_table
           (new_converter (leaf_tab None) 0)
           ["name"; "value"] [["a"]] ["b\|c"; "d e"; "f"] []
           eq_refl (le_n 3)).
Defined.

(** ** The tab flattener *)

Section FlattenFacts.

Lemma flattenTab_unfold (t : Tab) :
  flattenTab t = t :: flattenTabs (ChildTabs t).
Proof.
  destruct t as [children dt props]. reflexivity.
Qed.

Lemma flattenTabs_nil : flattenTabs [] = [].
Proof. reflexivity. Qed.

(** The equation of the loop of the source: the tab, then the flattening
    of its children, then the remaining siblings. *)
Lemma flattenTabs_cons (tab : Tab) (rest : list Tab) :
  flattenTabs (tab :: rest)
  = tab :: flattenTabs (ChildTabs tab) ++ flattenTabs rest.
Proof. cbn [flattenTabs]. rewrite flattenTab_unfold. reflexivity. Qed.

Lemma flattenTabs_app (tabs tabs' : list Tab) :
  flattenTabs (tabs ++ tabs') = flattenTabs tabs ++ flattenTabs tabs'.
Proof.
  induction tabs as [|tab rest IH]; [reflexivity|].
  cbn [app flattenTabs]. rewrite IH, app_assoc. reflexivity.
Qed.

Lemma flattenTabs_siblings (before : list Tab) (tab : Tab) (after : list Tab) :
  flattenTabs (before ++ tab :: after)
  = flattenTabs before ++ tab :: flattenTabs (ChildTabs tab) ++ flattenTabs after.
Proof. rewrite flattenTabs_app, flattenTabs_cons. reflexivity. Qed.

Lemma flattenTabs_length (tabs : list Tab) :
  (length tabs <= length (flattenTabs tabs))%nat.
Proof.
  induction tabs as [|tab rest IH]; [reflexivity|].
  rewrite flattenTabs_cons. cbn [length]. rewrite length_app. lia.
Qed.

Lemma flattenTabs_empty_iff (tabs : list Tab) :
  flattenTabs tabs = [] <-> tabs = [].
Proof.
  split; [|intros ->; reflexivity].
  destruct tabs as [|tab rest]; [reflexivity|].
  rewrite flattenTabs_cons. discriminate.
Qed.

(** Induction on a tab with the property at hand for all its children. *)
Lemma Tab_nested_ind (P : Tab -> Prop) :
  (forall children dt props,
      Forall P children -> P (mkTab children dt props)) ->
  forall t, P t.
Proof.
  intros Hstep. fix IH 1. intros [children dt props]. apply Hstep.
  induction children as [|child rest IHrest]; constructor.
  - apply IH.
  - exact IHrest.
Qed.

(** Wherever a tab occurs in the output, the flattening of its children
    follows it at once. *)
Lemma flattenTabs_children_follow (tabs : list Tab) (t : Tab) :
  In t (flattenTabs tabs) ->
  exists pre post,
    flattenTabs tabs = pre ++ t :: flattenTabs (ChildTabs t) ++ post.
Proof.
  assert (Hforest : forall tabs,
             Forall (fun tab => forall t, In t (flattenTabs (ChildTabs tab)) ->
                        exists pre post,
                          flattenTabs (ChildTabs tab)
                          = pre ++ t :: flattenTabs (ChildTabs t) ++ post) tabs ->
             forall t, In t (flattenTabs tabs) ->
               exists pre post,
                 flattenTabs tabs = pre ++ t :: flattenTabs (ChildTabs t) ++ post).
  { clear. intros tabs Hall. induction Hall as [|tab rest Htab _ IH]; intros t Hin.
    - destruct Hin.
    - rewrite flattenTabs_cons in Hin |- *.
      destruct Hin as [<- | Hin]; [|apply in_app_or in Hin as [Hin | Hin]].
      + exists [], (flattenTabs rest). reflexivity.
      + destruct (Htab t Hin) as (pre & post & Heq).
        exists (tab :: pre), (post ++ flattenTabs rest).
        rewrite Heq. cbn [app]. rewrite <- !app_assoc. cbn [app].
        rewrite <- app_assoc. reflexivity.
      + destruct (IH t Hin) as (pre & post & Heq).
        exists (tab :: flattenTabs (ChildTabs tab) ++ pre), post.
        rewrite Heq. cbn [app]. rewrite <- app_assoc. reflexivity. }
  revert t. apply Hforest.
  apply Forall_forall. intros tab _. revert tab.
  apply (Tab_nested_ind
           (fun tab => forall t, In t (flattenTabs (ChildTabs tab)) ->
              exists pre post,
                flattenTabs (ChildTabs tab)
                = pre ++ t :: flattenTabs (ChildTabs t) ++ post)).
  intros children dt props Hall. cbn [ChildTabs]. apply Hforest. exact Hall.
Qed.

End FlattenFacts.

(** C8. Flattening is the pre-order traversal of the tab tree: nothing for
    no tabs; otherwise the first tab, then the flattening of its children,
    then the flattening of its later siblings; so among siblings, and
    wherever a tab occurs in the result, the flattening of its children
    follows the tab at once, before the subtree of any later sibling.  A
    document without tabs makes [ExportDoc] return the error "document has
    no tabs" after the fetch and its message alone: no directory is made,
    no tab converted, nothing downloaded or written. *)
Theorem flatten_is_preorder_and_no_tabs_is_fatal `{UnicodeTables} :
  flattenTabs [] = []
  /\ (forall (tab : Tab) (rest : list Tab),
        flattenTabs (tab :: rest)
        = tab :: flattenTabs (ChildTabs tab) ++ flattenTabs rest)
  /\ (forall (before : list Tab) (tab : Tab) (after : list Tab),
        flattenTabs (before ++ tab :: after)
        = flattenTabs before ++ tab :: flattenTabs (ChildTabs tab) ++ flattenTabs after)
  /\ (forall (tabs : list Tab) (t : Tab),
        In t (flattenTabs tabs) ->
        exists pre post,
          flattenTabs tabs = pre ++ t :: flattenTabs (ChildTabs t) ++ post)
  /\ (forall (w : World) (sched : list nat) (docID outputDir : string) (doc : Document),
        docs_NewService w = None ->
        Documents_Get w docID = inr doc ->
        Tabs doc = [] ->
        ExportDoc w sched docID outputDir
        = ([Printf ("Fetching document " +:+ docID +:+ "..." +:+ newline)],
           Ok (Some "document has no tabs"))).
Proof.
  split; [exact flattenTabs_nil|].
  split; [exact flattenTabs_cons|].
  split; [exact flattenTabs_siblings|].
  split; [exact flattenTabs_children_follow|].
  intros w sched docID outputDir doc Hsrv Hget Htabs.
  unfold ExportDoc. rewrite Hsrv, Hget, Htabs. reflexivity.
Qed.

Lemma flatten_is_preorder_and_no_tabs_is_fatal_witness :
  (exists pre post,
     flattenTabs sample_tree
     = pre ++ titled_tab "b" [titled_tab "c" []]
           :: flattenTabs [titled_tab "c" []] ++ post)
  /\ @ExportDoc sample_tables (sample_world {| Tabs := [] |}) [] "doc" "out"
     = ([Printf ("Fetching document doc..." +:+ newline)],
        Ok (Some "document has no tabs")).
Proof.
  pose proof (@flatten_is_preorder_and_no_tabs_is_fatal sample_tables)
    as (_ & _ & _ & Hdeep & Hfatal).
  split.
  - apply (Hdeep sample_tree (titled_tab "b" [titled_tab "c" []])).
    cbn. right. left. reflexivity.
  - exact (Hfatal (sample_world {| Tabs := [] |}) [] "doc" "out" {| Tabs := [] |}
             eq_refl eq_refl eq_refl).
Defined.

(** ** The structural walker *)

Section WalkerFacts.

Context `{UnicodeTables}.

Lemma WriteString_WriteString (s t : string) (c : converter) :
  WriteString t (WriteString s c) = WriteString (s +:+ t) c.
Proof. unfold WriteString. cbn. rewrite append_assoc. reflexivity. Qed.

Lemma Repeat_ok (s : string) (count : Z) :
  0 <= count ->
  Z.of_nat (String.length s) * count <= maxInt ->
  Repeat s count = Ok (repeat_string s (Z.to_nat count)).
Proof.
  intros Hpos Hfit. unfold Repeat.
  destruct (Z.eqb_spec count 0) as [-> | H0]; [reflexivity|].
  destruct (Z.eqb_spec count 1) as [-> | H1].
  - change (Z.to_nat 1) with 1%nat. cbn [repeat_string].
    rewrite append_nil_r. reflexivity.
  - destruct (Z.ltb_spec count 0) as [Hneg | _]; [lia|].
    destruct (Z.ltb_spec maxInt (Z.of_nat (String.length s) * count)) as [Hbig | _];
      [lia | reflexivity].
Qed.

Lemma Repeat_negative (s : string) (count : Z) :
  count < 0 -> Repeat s count = Panic "strings: negative Repeat count".
Proof.
  intros Hneg. unfold Repeat.
  destruct (Z.eqb_spec count 0); [lia|].
  destruct (Z.eqb_spec count 1); [lia|].
  destruct (Z.ltb_spec count 0); [reflexivity | lia].
Qed.

Lemma writeHeading_ok (text : string) (level : Z) (c : converter) :
  0 <= level <= maxInt ->
  writeHeading text level c = Ok (WriteString (atx_heading level text) c).
Proof.
  intros Hlevel. unfold writeHeading, atx_heading.
  rewrite Repeat_ok by (cbn [String.length]; lia). cbn [res_bind].
  rewrite !WriteString_WriteString, ?append_assoc. reflexivity.
Qed.

Lemma heading_styles_level (name : string) (level : Z) :
  In (name, level) heading_styles ->
  headingLevelFromStyle name = level /\ 1 <= level <= 6.
Proof.
  unfold heading_styles. cbn [In]. intros Hin.
  repeat (destruct Hin as [[= <- <-] | Hin]; [split; [reflexivity | lia]|]).
  destruct Hin.
Qed.

(** [convertParagraph] on a paragraph without bullet. *)
Lemma convertParagraph_no_bullet (p : Paragraph) (c : converter) :
  Paragraph_Bullet p = None ->
  convertParagraph p c
  = let namedStyle := match Paragraph_ParagraphStyle p with
                      | Some style => NamedStyleType style
                      | None => ""
                      end in
    let r := renderParagraphElements (Elements p) (set_listState listTracker_zero c) in
    if String.eqb (TrimSpace r.1) "" then Ok (WriteString newline r.2)
    else if 0 <? headingLevelFromStyle namedStyle
         then writeHeading r.1 (headingLevelFromStyle namedStyle) r.2
         else Ok (WriteString (TrimRight r.1 newline +:+ newline +:+ newline) r.2).
Proof.
  intros Hbullet. unfold convertParagraph. rewrite Hbullet. cbv zeta.
  destruct (renderParagraphElements _ _) as [text c2]. cbn [fst snd].
  rewrite WriteString_WriteString. reflexivity.
Qed.

End WalkerFacts.

(** ** Claim on heading paragraphs *)

(** C3, as amended.  A paragraph with a named heading style (HEADING_1 to
    HEADING_6 for the levels 1 to 6, TITLE for level 1, SUBTITLE for level
    2) that has no bullet and whose rendered text is not blank is written
    as an ATX heading of that level: that many # characters, a space, the
    trimmed rendered text, and a blank line.  With a blank text a single
    newline is written instead, and with a bullet the paragraph goes to
    the list items. *)
Theorem heading_paragraph_renders_as_atx_heading `{UnicodeTables}
    (p : Paragraph) (c : converter) (name : string) (level : Z) :
  In (name, level) heading_styles ->
  Paragraph_ParagraphStyle p = Some {| NamedStyleType := name |} ->
  let r := renderParagraphElements (Elements p) (set_listState listTracker_zero c) in
  (Paragraph_Bullet p = None ->
   TrimSpace r.1 <> "" ->
   convertParagraph p c = Ok (WriteString (atx_heading level r.1) r.2)
   /\ written (convertParagraph p c)
      = Ok (buf c +:+ repeat_string "#" (Z.to_nat level) +:+ " "
            +:+ TrimSpace r.1 +:+ newline +:+ newline))
  /\ (Paragraph_Bullet p = None ->
      TrimSpace r.1 = "" ->
      written (convertParagraph p c) = Ok (buf c +:+ newline))
  /\ (Paragraph_Bullet p <> None ->
      convertParagraph p c = handleListItem p level c).
Proof.
  intros Hstyle Hnamed r.
  destruct (heading_styles_level name level Hstyle) as [Hlevel Hrange].
  pose proof (renderParagraphElements_frame (Elements p)
                (set_listState listTracker_zero c)) as (_ & _ & Hbuf & _).
  fold r in Hbuf. cbn [set_listState buf] in Hbuf.
  split; [|split].
  - intros Hbullet Htext.
    rewrite (convertParagraph_no_bullet p c Hbullet), Hnamed.
    cbn [NamedStyleType]. cbv zeta. fold r. rewrite Hlevel.
    apply String.eqb_neq in Htext. rewrite Htext.
    destruct (Z.ltb_spec 0 level) as [_ | Hbad]; [|lia].
    rewrite writeHeading_ok by (unfold maxInt; lia).
    split; [reflexivity|].
    cbn [written res_bind WriteString buf]. rewrite Hbuf. reflexivity.
  - intros Hbullet Htext.
    rewrite (convertParagraph_no_bullet p c Hbullet). cbv zeta. fold r.
    rewrite Htext. cbn [String.eqb written res_bind WriteString buf].
    rewrite Hbuf. reflexivity.
  - intros Hbullet. unfold convertParagraph. rewrite Hnamed.
    cbn [NamedStyleType]. rewrite Hlevel.
    destruct (Paragraph_Bullet p); [reflexivity | congruence].
Qed.

Lemma heading_paragraph_renders_as_atx_heading_witness :
  @written (@convertParagraph sample_tables
              (paragraph (Some "SUBTITLE") None
                 [text_element (" Scope " +:+ newline) (Some plain_style)])
              (new_converter (leaf_tab None) 0))
  = Ok ("## Scope" +:+ newline +:+ newline).
Proof.
  refine (proj2 (proj1 (@heading_paragraph_renders_as_atx_heading sample_tables
                   (paragraph (Some "SUBTITLE") None
                      [text_element (" Scope " +:+ newline) (Some plain_style)])
                   (new_converter (leaf_tab None) 0) "SUBTITLE" 2 _ eq_refl)
                   eq_refl _)).
  - cbn. tauto.
  - vm_compute. discriminate.
Defined.

(** C3 as it was stated fails on a heading paragraph without text, for
    which a single newline is written and no heading, and on one with a
    bullet, which is written as a list item. *)
Lemma heading_paragraph_without_text_or_with_bullet :
  @written (@convertParagraph sample_tables
              (paragraph (Some "HEADING_2") None [text_element newline (Some plain_style)])
              (new_converter (leaf_tab None) 0))
  = Ok newline
  /\ Ok newline <> Ok (atx_heading 2 newline)
  /\ @written (@convertParagraph sample_tables
                 (paragraph (Some "HEADING_2") (bullet 0 "L")
                    [text_element ("Scope" +:+ newline) (Some plain_style)])
                 (new_converter (leaf_tab None) 0))
     = Ok ("- Scope" +:+ newline)
  /\ Ok ("- Scope" +:+ newline) <> Ok (atx_heading 2 ("Scope" +:+ newline)).
Proof.
  split; [reflexivity|]. split; [discriminate|].
  split; [reflexivity | discriminate].
Qed.

(** ** The list state tracker *)

Section ListFacts.

Context `{UnicodeTables}.

Lemma int_add_no_wrap (n : Z) :
  minInt <= n < maxInt -> int_add n 1 = n + 1.
Proof.
  unfold minInt, maxInt, int_add, int_wrap. intros Hn.
  rewrite Z.mod_small by lia. lia.
Qed.

(** With a level that is not negative the lookup of lines 126-135 does
    not panic. *)
Lemma list_is_ordered_total (t : Tab) (id : string) (lvl : Z) :
  0 <= lvl -> exists ordered, list_is_ordered t id lvl = Ok ordered.
Proof.
  intros Hlvl. unfold list_is_ordered.
  destruct (negb (String.eqb id "")); [|eauto].
  destruct (Tab_DocumentTab t) as [dt|]; [|eauto].
  destruct (Lists dt) as [lists|]; [|eauto].
  destruct (lists !! id) as [l|]; [|eauto].
  destruct (List_ListProperties l) as [lp|]; [|eauto].
  destruct (Z.ltb_spec lvl (Z.of_nat (length (NestingLevels lp)))) as [Hlt|]; [|eauto].
  destruct (Z.ltb_spec lvl 0) as [|_]; [lia|].
  destruct (lookup_lt_is_Some_2 (NestingLevels lp) (Z.to_nat lvl)) as [nl ->];
    [lia | eauto].
Qed.

(** Without a definition for the list the item is not ordered. *)
Lemma list_is_ordered_undefined (t : Tab) (id : string) (lvl : Z) :
  list_definition t id = None -> list_is_ordered t id lvl = Ok false.
Proof.
  unfold list_definition, list_is_ordered. intros Hdef.
  destruct (negb (String.eqb id "")); [|reflexivity].
  destruct (Tab_DocumentTab t) as [dt|]; [|reflexivity]. cbn in Hdef.
  destruct (Lists dt) as [lists|]; [|reflexivity]. cbn in Hdef.
  rewrite Hdef. reflexivity.
Qed.

Lemma list_is_ordered_negative (t : Tab) (id : string) (lvl : Z) :
  lvl < 0 ->
  list_is_ordered t id lvl = Ok false
  \/ list_is_ordered t id lvl = Panic "index out of range".
Proof.
  intros Hneg. unfold list_is_ordered.
  destruct (negb (String.eqb id "")); [|auto].
  destruct (Tab_DocumentTab t) as [dt|]; [|auto].
  destruct (Lists dt) as [lists|]; [|auto].
  destruct (lists !! id) as [l|]; [|auto].
  destruct (List_ListProperties l) as [lp|]; [|auto].
  destruct (Z.ltb_spec lvl (Z.of_nat (length (NestingLevels lp)))); [|auto].
  destruct (Z.ltb_spec lvl 0); [auto | lia].
Qed.

(** What [handleListItem] does for a valid nesting level. *)
Lemma handleListItem_ok (p : Paragraph) (b : Bullet) (headingLevel : Z)
    (c : converter) :
  Paragraph_Bullet p = Some b ->
  valid_nesting_level (Bullet_NestingLevel b) ->
  exists ordered : bool,
    list_is_ordered (tab c) (ListId b) (Bullet_NestingLevel b) = Ok ordered
    /\ let lvl := Bullet_NestingLevel b in
       let ls := track_item (ListId b) lvl (listState c) in
       let r := renderParagraphElements (Elements p) (set_listState ls c) in
       handleListItem p headingLevel c
       = Ok (WriteString
               (repeat_string "  " (Z.to_nat lvl)
                +:+ (if ordered then fmt_d (item_count ls lvl) +:+ ". " else "- ")
                +:+ TrimSpace r.1 +:+ newline)
               r.2).
Proof.
  intros Hbullet [Hpos Hfit].
  destruct (list_is_ordered_total (tab c) (ListId b) (Bullet_NestingLevel b) Hpos)
    as [ordered Hord].
  exists ordered. split; [exact Hord|]. cbv zeta.
  unfold handleListItem. rewrite Hbullet. cbv zeta.
  rewrite Hord. cbn [res_bind set_listState tab].
  rewrite Repeat_ok by (cbn [String.length]; lia). cbn [res_bind].
  pose proof (renderParagraphElements_frame (Elements p)
                (set_listState (track_item (ListId b) (Bullet_NestingLevel b)
                                  (listState c)) c)) as (_ & _ & _ & Hls).
  destruct (renderParagraphElements _ _) as [rendered c2]. cbn [fst snd] in *.
  rewrite Hls. cbn [set_listState listState].
  destruct ordered; rewrite ?append_assoc; reflexivity.
Qed.

Lemma handleListItem_negative (p : Paragraph) (b : Bullet) (headingLevel : Z)
    (c : converter) :
  Paragraph_Bullet p = Some b ->
  Bullet_NestingLevel b < 0 ->
  exists msg, handleListItem p headingLevel c = Panic msg.
Proof.
  intros Hbullet Hneg. unfold handleListItem. rewrite Hbullet. cbv zeta.
  destruct (list_is_ordered_negative (tab c) (ListId b) (Bullet_NestingLevel b) Hneg)
    as [-> | ->]; cbn [res_bind]; [|eauto].
  rewrite Repeat_negative by exact Hneg. cbn [res_bind]. eauto.
Qed.

(** *** The transition of the tracker *)

Lemma track_item_identity (id : string) (lvl : Z) (ls : listTracker) :
  listID (track_item id lvl ls) = id /\ nestingLevel (track_item id lvl ls) = lvl.
Proof.
  unfold track_item. cbn [listID nestingLevel]. split; [|reflexivity].
  destruct (String.eqb_spec (listID ls) id); cbn [negb listID]; auto.
Qed.

Lemma count_at_empty (k : Z) : count_at ∅ k = 0.
Proof. unfold count_at. rewrite lookup_empty. reflexivity. Qed.

(** A different list: everything is reset, then the item is counted. *)
Lemma track_item_other_list (id : string) (lvl : Z) (ls : listTracker) :
  listID ls <> id ->
  track_item id lvl ls
  = {| listID := id; nestingLevel := lvl; itemCounts := Some {[ lvl := 1 ]} |}.
Proof.
  intros Hne. unfold track_item.
  apply String.eqb_neq in Hne. rewrite Hne.
  cbn [negb listID nestingLevel itemCounts].
  destruct (lvl <? 0).
  - rewrite map_filter_empty, count_at_empty. reflexivity.
  - rewrite count_at_empty. reflexivity.
Qed.

Lemma filter_not_deeper_lookup (lvl k : Z) (m : gmap Z Z) :
  ~ lvl < k ->
  filter (fun kv : Z * Z => ~ lvl < kv.1) m !! k = m !! k.
Proof.
  intros Hk. destruct (m !! k) as [x|] eqn:Hm.
  - apply map_lookup_filter_Some_2; [exact Hm | exact Hk].
  - apply map_lookup_filter_None_2. left. exact Hm.
Qed.

Lemma filter_deeper_lookup (lvl k : Z) (m : gmap Z Z) :
  lvl < k ->
  filter (fun kv : Z * Z => ~ lvl < kv.1) m !! k = None.
Proof.
  intros Hk. apply map_lookup_filter_None_2. right.
  intros x _ Hnot. apply Hnot. exact Hk.
Qed.

(** The same list: deeper counters go when the level decreases, the
    counter of the level is incremented, the others stay. *)
Lemma track_item_same_list (id : string) (lvl : Z) (ls : listTracker) :
  listID ls = id ->
  let counts := default ∅ (itemCounts ls) in
  exists counts' : gmap Z Z,
    itemCounts (track_item id lvl ls) = Some counts'
    /\ counts' !! lvl = Some (int_add (count_at counts lvl) 1)
    /\ (forall k, k < lvl -> counts' !! k = counts !! k)
    /\ (forall k, lvl < k ->
          counts' !! k = if lvl <? nestingLevel ls then None else counts !! k).
Proof.
  intros Hid counts. unfold track_item.
  rewrite Hid, String.eqb_refl. cbn [negb itemCounts].
  eexists. split; [reflexivity|].
  replace (match itemCounts ls with Some m => m | None => ∅ end) with counts
    by (unfold counts; destruct (itemCounts ls); reflexivity).
  destruct (Z.ltb_spec lvl (nestingLevel ls)) as [Hlt | Hge].
  - split; [|split].
    + rewrite lookup_insert_eq. unfold count_at.
      rewrite filter_not_deeper_lookup by lia. reflexivity.
    + intros k Hk. rewrite lookup_insert_ne by lia.
      apply filter_not_deeper_lookup. lia.
    + intros k Hk. rewrite lookup_insert_ne by lia.
      apply filter_deeper_lookup. exact Hk.
  - split; [|split].
    + apply lookup_insert_eq.
    + intros k Hk. apply lookup_insert_ne. lia.
    + intros k Hk. apply lookup_insert_ne. lia.
Qed.

End ListFacts.

(** ** Claims on list items *)

(** C2. On a list-item paragraph (with a nesting level that can be
    indented) [handleListItem] moves the tracker as follows.  If the list
    identifier of the item differs from the active one, all counters are
    dropped and the item is counted as the first of its level.  Otherwise,
    if the level of the item is shallower than the tracked one, the
    counters of all deeper levels are discarded and those of the shallower
    levels kept; if it is not shallower, all other counters are kept.  In
    each case the tracked level becomes the level of the item and the
    counter of that level is incremented, starting at 1.  An ordered item
    is labelled with that counter.  So the items at the levels 0, 0, 1, 1,
    0 of one ordered list are labelled 1., 2., 1., 2., 3. *)
Theorem list_tracker_transition_rules `{UnicodeTables}
    (p : Paragraph) (b : Bullet) (headingLevel : Z) (c : converter) :
  Paragraph_Bullet p = Some b ->
  valid_nesting_level (Bullet_NestingLevel b) ->
  let id := ListId b in
  let lvl := Bullet_NestingLevel b in
  let old := listState c in
  let counts : gmap Z Z := default ∅ (itemCounts old) in
  (exists c' : converter,
     handleListItem p headingLevel c = Ok c'
     /\ listID (listState c') = id
     /\ nestingLevel (listState c') = lvl
     /\ (listID old <> id -> itemCounts (listState c') = Some {[ lvl := 1 ]})
     /\ (listID old = id ->
         exists counts' : gmap Z Z,
           itemCounts (listState c') = Some counts'
           /\ counts' !! lvl = Some (int_add (count_at counts lvl) 1)
           /\ (counts !! lvl = None -> counts' !! lvl = Some 1)
           /\ (forall n, counts !! lvl = Some n -> minInt <= n < maxInt ->
                         counts' !! lvl = Some (n + 1))
           /\ (forall k, k < lvl -> counts' !! k = counts !! k)
           /\ (forall k, lvl < k ->
                 counts' !! k = if lvl <? nestingLevel old then None else counts !! k))
     /\ (list_is_ordered (tab c) id lvl = Ok true ->
         exists text : string,
           buf c' = buf c +:+ repeat_string "  " (Z.to_nat lvl)
                    +:+ fmt_d (item_count (listState c') lvl) +:+ ". "
                    +:+ text +:+ newline))
  /\ markdown_of (ConvertTab sample_list_tab "T" 0)
     = Ok ("# T" +:+ newline +:+ newline
           +:+ "1. a" +:+ newline
           +:+ "2. b" +:+ newline
           +:+ "  1. c" +:+ newline
           +:+ "  2. d" +:+ newline
           +:+ "3. e" +:+ newline).
Proof.
  intros Hbullet Hvalid id lvl old counts. split; [|reflexivity].
  destruct (handleListItem_ok p b headingLevel c Hbullet Hvalid)
    as (ordered & Hord & Hrun). cbv zeta in Hrun. fold id lvl old in Hrun, Hord.
  pose proof (renderParagraphElements_frame (Elements p)
                (set_listState (track_item id lvl old) c)) as (_ & _ & Hbuf & Hls).
  destruct (renderParagraphElements (Elements p)
              (set_listState (track_item id lvl old) c)) as [rendered c2].
  cbn [fst snd set_listState buf listState] in *.
  eexists. split; [exact Hrun|].
  cbn [WriteString listState buf]. rewrite Hls, Hbuf.
  destruct (track_item_identity id lvl old) as [Hid Hlvl].
  split; [exact Hid|]. split; [exact Hlvl|]. split; [|split].
  - intros Hne. rewrite (track_item_other_list id lvl old Hne). reflexivity.
  - intros Hsame.
    destruct (track_item_same_list id lvl old Hsame)
      as (counts' & Hcounts & Hat & Hbelow & Habove).
    fold counts in Hat, Hbelow, Habove.
    exists counts'. split; [exact Hcounts|]. split; [exact Hat|].
    split; [|split; [|split]].
    + intros Hnone. rewrite Hat. unfold count_at. rewrite Hnone. reflexivity.
    + intros n Hsome Hn. rewrite Hat. unfold count_at. rewrite Hsome.
      cbn [default]. rewrite int_add_no_wrap by exact Hn. reflexivity.
    + exact Hbelow.
    + exact Habove.
  - intros Htrue. rewrite Hord in Htrue. injection Htrue as ->.
    exists (TrimSpace rendered). rewrite !append_assoc. reflexivity.
Qed.

Lemma list_tracker_transition_rules_witness :
  exists c' : converter,
    @handleListItem sample_tables
      (paragraph None (bullet 0 "L") [text_element "e" (Some plain_style)]) 0
      (set_listState {| listID := "L"; nestingLevel := 1;
                        itemCounts := Some {[ 0 := 2; 1 := 2 ]} |}
                     (new_converter sample_list_tab 0))
    = Ok c'
    /\ nestingLevel (listState c') = 0.
Proof.
  assert (Hvalid : valid_nesting_level 0) by (split; [lia | vm_compute; discriminate]).
  pose proof (proj1 (@list_tracker_transition_rules sample_tables
                       (paragraph None (bullet 0 "L") [text_element "e" (Some plain_style)])
                       {| Bullet_NestingLevel := 0; ListId := "L" |} 0
                       (set_listState {| listID := "L"; nestingLevel := 1;
                                         itemCounts := Some {[ 0 := 2; 1 := 2 ]} |}
                                      (new_converter sample_list_tab 0))
                       eq_refl Hvalid)) as Hrules.
  destruct Hrules as (c' & Hrun & _ & Hlvl & _).
  exists c'. split; [exact Hrun | exact Hlvl].
Defined.

(** ** Unresolved references and totality *)

Section TotalFacts.

Context `{UnicodeTables}.

Lemma renderInlineObject_unresolved (elem : InlineObjectElement) (c : converter) :
  inline_object (tab c) (InlineObjectId elem) = None
  \/ (exists obj, inline_object (tab c) (InlineObjectId elem) = Some obj
                  /\ content_uri obj = "") ->
  renderInlineObject elem c = ("", c).
Proof.
  unfold inline_object, content_uri, renderInlineObject.
  destruct (Tab_DocumentTab (tab c)) as [dt|]; [|reflexivity]. cbn [mbind option_bind].
  destruct (InlineObjects dt) as [objs|]; [|reflexivity]. cbn [mbind option_bind].
  intros [-> | (obj & -> & Huri)]; [reflexivity|].
  destruct (InlineObject_InlineObjectProperties obj) as [props|];
    cbn in Huri; [|reflexivity].
  destruct (IOP_EmbeddedObject props) as [embedded|];
    cbn in Huri; [|reflexivity].
  destruct (EmbeddedObject_ImageProperties embedded) as [ip|];
    cbn in Huri; [|reflexivity].
  rewrite Huri. reflexivity.
Qed.

Lemma headingLevelFromStyle_range (style : string) :
  0 <= headingLevelFromStyle style <= 6.
Proof.
  unfold headingLevelFromStyle.
  repeat (match goal with |- context [String.eqb ?a ?b] => destruct (String.eqb a b) end;
          [lia|]).
  lia.
Qed.

Lemma convertParagraph_total (p : Paragraph) (c : converter) :
  (forall b, Paragraph_Bullet p = Some b -> valid_nesting_level (Bullet_NestingLevel b)) ->
  exists c', convertParagraph p c = Ok c'.
Proof.
  intros Hvalid. destruct (Paragraph_Bullet p) as [b|] eqn:Hbullet.
  - unfold convertParagraph. rewrite Hbullet.
    destruct (handleListItem_ok p b
                (headingLevelFromStyle
                   match Paragraph_ParagraphStyle p with
                   | Some style => NamedStyleType style
                   | None => ""
                   end) c Hbullet (Hvalid b eq_refl)) as (ordered & _ & Hrun).
    eexists. exact Hrun.
  - rewrite (convertParagraph_no_bullet p c Hbullet). cbv zeta.
    destruct (String.eqb _ ""); [eauto|].
    destruct (0 <? _); [|eauto].
    rewrite writeHeading_ok; [eauto|].
    pose proof (headingLevelFromStyle_range
                  match Paragraph_ParagraphStyle p with
                  | Some style => NamedStyleType style
                  | None => ""
                  end).
    unfold maxInt. lia.
Qed.

Lemma convertElements_total (content : list StructuralElement) (c : converter) :
  valid_bullets content -> exists c', convertElements content c = Ok c'.
Proof.
  intros Hvalid. revert c.
  induction Hvalid as [|elem rest Helem _ IH]; intros c; cbn [convertElements].
  - eauto.
  - assert (Hstep : exists c1, convertStructuralElement elem c = Ok c1).
    { unfold convertStructuralElement.
      destruct (SE_Paragraph elem) as [p|] eqn:Hp.
      - apply convertParagraph_total. intros b Hb. exact (Helem p b eq_refl Hb).
      - destruct (SE_Table elem); [eauto|].
        destruct (SE_SectionBreak elem); [eauto|].
        destruct (SE_TableOfContents elem); eauto. }
    destruct Hstep as [c1 ->]. cbn [res_bind]. apply IH.
Qed.

Lemma ConvertTab_total (t : Tab) (tabTitle : string) (index : Z) :
  valid_tab t -> exists r, ConvertTab t tabTitle index = Ok r.
Proof.
  intros Hvalid. unfold ConvertTab.
  rewrite writeHeading_ok by (unfold maxInt; lia). cbn [res_bind].
  destruct (Tab_DocumentTab t) as [dt|] eqn:Hdt; [|cbn [res_bind]; eauto].
  unfold convertBody.
  destruct (DocumentTab_Body dt) as [body|] eqn:Hbody; [|cbn [res_bind]; eauto].
  destruct (convertElements_total (Body_Content body)
              (WriteString (atx_heading 1 tabTitle)
                 {| tab := t; tabIndex := index; buf := ""; images := [];
                    imageCount := 0; listState := listTracker_zero |})
              (Hvalid dt body Hdt Hbody)) as [c2 ->].
  cbn [res_bind]. eauto.
Qed.

End TotalFacts.

(** C7. An inline image whose reference does not resolve through the
    inline objects of the tab, or whose embedded image has no content URI,
    renders as the empty string and leaves the converter as it was: no
    image is recorded, the image counter keeps its value, nothing fails.
    An item of a list without definition is written as an unordered item.
    And the conversion of a tab never panics when the nesting levels of
    its bullets are valid (not negative, and small enough to indent). *)
Theorem unresolved_references_degrade `{UnicodeTables} :
  (forall (elem : InlineObjectElement) (c : converter),
      inline_object (tab c) (InlineObjectId elem) = None
      \/ (exists obj, inline_object (tab c) (InlineObjectId elem) = Some obj
                      /\ content_uri obj = "") ->
      renderInlineObject elem c = ("", c))
  /\ (forall (p : Paragraph) (b : Bullet) (headingLevel : Z) (c : converter),
        Paragraph_Bullet p = Some b ->
        valid_nesting_level (Bullet_NestingLevel b) ->
        list_definition (tab c) (ListId b) = None ->
        exists (c' : converter) (text : string),
          handleListItem p headingLevel c = Ok c'
          /\ buf c' = buf c +:+ repeat_string "  " (Z.to_nat (Bullet_NestingLevel b))
                      +:+ "- " +:+ text +:+ newline)
  /\ (forall (t : Tab) (tabTitle : string) (index : Z),
        valid_tab t -> exists r, ConvertTab t tabTitle index = Ok r).
Proof.
  split; [exact renderInlineObject_unresolved|]. split; [|exact ConvertTab_total].
  intros p b headingLevel c Hbullet Hvalid Hdef.
  destruct (handleListItem_ok p b headingLevel c Hbullet Hvalid)
    as (ordered & Hord & Hrun).
  rewrite (list_is_ordered_undefined _ _ _ Hdef) in Hord. injection Hord as <-.
  cbv zeta in Hrun.
  pose proof (renderParagraphElements_frame (Elements p)
                (set_listState (track_item (ListId b) (Bullet_NestingLevel b)
                                  (listState c)) c)) as (_ & _ & Hbuf & _).
  destruct (renderParagraphElements _ _) as [rendered c2].
  cbn [fst snd set_listState buf] in *.
  eexists _, (TrimSpace rendered). split; [exact Hrun|].
  cbn [WriteString buf]. rewrite Hbuf, ?append_assoc. reflexivity.
Qed.

Lemma unresolved_references_degrade_witness :
  @renderInlineObject sample_tables {| InlineObjectId := "missing" |}
    (new_converter sample_broken_tab 0)
  = ("", new_converter sample_broken_tab 0)
  /\ @renderInlineObject sample_tables {| InlineObjectId := "empty" |}
       (new_converter sample_broken_tab 0)
     = ("", new_converter sample_broken_tab 0)
  /\ (exists (c' : converter) (text : string),
        @handleListItem sample_tables
          (paragraph None (bullet 1 "nowhere") [text_element "item" (Some plain_style)]) 0
          (new_converter sample_broken_tab 0) = Ok c'
        /\ buf c' = "" +:+ "  " +:+ "- " +:+ text +:+ newline)
  /\ exists r, @ConvertTab sample_tables sample_broken_tab "T" 0 = Ok r.
Proof.
  pose proof (@unresolved_references_degrade sample_tables) as (Himg & Hlist & Htotal).
  assert (Hvalid : valid_nesting_level 1) by (split; [lia | vm_compute; discriminate]).
  split; [|split; [|split]].
  - apply (Himg {| InlineObjectId := "missing" |} (new_converter sample_broken_tab 0)).
    left. reflexivity.
  - apply (Himg {| InlineObjectId := "empty" |} (new_converter sample_broken_tab 0)).
    right. exists empty_object. split; reflexivity.
  - exact (Hlist (paragraph None (bullet 1 "nowhere")
                    [text_element "item" (Some plain_style)])
                 {| Bullet_NestingLevel := 1; ListId := "nowhere" |} 0
                 (new_converter sample_broken_tab 0) eq_refl Hvalid eq_refl).
  - apply (Htotal sample_broken_tab "T" 0).
    intros dt body [= <-] [= <-]. cbn [Body_Content].
    unfold valid_bullets. constructor; [|constructor; [|constructor]].
    + intros p b Hp Hb. cbn in Hp. injection Hp as <-. cbn in Hb. discriminate.
    + intros p b Hp Hb. cbn in Hp. injection Hp as <-. cbn in Hb.
      injection Hb as <-. exact Hvalid.
Defined.

(** ** Image file names *)

Section FilenameFacts.

Context `{UnicodeTables}.

Lemma all_bytes_append (P : ascii -> bool) (s t : string) :
  all_bytes P (s +:+ t) = all_bytes P s && all_bytes P t.
Proof.
  induction s as [|a s IH]; [reflexivity|].
  rewrite append_cons. cbn [all_bytes]. rewrite IH, andb_assoc. reflexivity.
Qed.

Lemma string_of_uint_digits (d : uint) :
  all_bytes is_digit (NilEmpty.string_of_uint d) = true.
Proof. induction d; cbn [NilEmpty.string_of_uint all_bytes]; auto. Qed.

Lemma repeat_zero_digits (k : nat) :
  all_bytes is_digit (repeat_string "0" k) = true.
Proof.
  induction k as [|k IH]; [reflexivity|].
  cbn [repeat_string]. rewrite all_bytes_append, IH. reflexivity.
Qed.

Lemma pad_digits_digits (width : nat) (z : Z) :
  all_bytes is_digit (pad_digits width z) = true.
Proof.
  unfold pad_digits. cbv zeta.
  rewrite all_bytes_append, repeat_zero_digits, string_of_uint_digits. reflexivity.
Qed.

Lemma uint_of_string_zeros (k : nat) (s : string) :
  NilEmpty.uint_of_string (repeat_string "0" k +:+ s)
  = Nat.iter k D0 <$> NilEmpty.uint_of_string s.
Proof.
  induction k as [|k IH].
  - cbn [repeat_string Nat.iter]. change ("" +:+ s) with s.
    destruct (NilEmpty.uint_of_string s); reflexivity.
  - cbn [repeat_string]. rewrite append_assoc.
    change ("0" +:+ ?x) with (String "0" x).
    cbn [NilEmpty.uint_of_string]. rewrite IH.
    destruct (NilEmpty.uint_of_string s); reflexivity.
Qed.

Lemma of_uint_zeros (k : nat) (d : uint) :
  N.of_uint (Nat.iter k D0 d) = N.of_uint d.
Proof.
  induction k as [|k IH]; [reflexivity|].
  rewrite Nat.iter_succ. exact IH.
Qed.

Lemma digits_value_pad (width : nat) (z : Z) :
  digits_value (pad_digits width z) = Some (Z.to_N z).
Proof.
  unfold digits_value, pad_digits. cbv zeta.
  rewrite uint_of_string_zeros, NilEmpty.usu. cbn [fmap option_fmap option_map].
  rewrite of_uint_zeros, DecimalN.Unsigned.of_to. reflexivity.
Qed.

(** Padding keeps apart the numbers that are not negative. *)
Lemma pad_digits_inj (width width' : nat) (z z' : Z) :
  0 <= z -> 0 <= z' -> pad_digits width z = pad_digits width' z' -> z = z'.
Proof.
  intros Hz Hz' Heq.
  pose proof (digits_value_pad width z) as Hv.
  rewrite Heq, digits_value_pad in Hv. injection Hv as Hv. lia.
Qed.

Lemma fmt_d_nonneg (z : Z) : 0 <= z -> fmt_d z = pad_digits 0 z.
Proof. intros Hz. destruct z as [|p|p]; [reflexivity | reflexivity | lia]. Qed.

Lemma fmt_03d_nonneg (z : Z) : 0 <= z -> fmt_03d z = pad_digits 3 z.
Proof.
  intros Hz. unfold fmt_03d. destruct (Z.ltb_spec z 0); [lia | reflexivity].
Qed.

(** Two strings of bytes of one kind, each followed by the same byte of
    another kind, end at the same place. *)
Lemma split_at_separator (P : ascii -> bool) (sep : ascii) (s1 s2 r1 r2 : string) :
  all_bytes P s1 = true ->
  all_bytes P s2 = true ->
  P sep = false ->
  s1 +:+ String sep r1 = s2 +:+ String sep r2 ->
  s1 = s2 /\ r1 = r2.
Proof.
  intros H1 H2 Hsep. revert s2 H2.
  induction s1 as [|a s1 IH]; intros [|b s2] H2 Heq.
  - injection Heq as ->. auto.
  - rewrite append_cons in Heq. injection Heq as <- _.
    cbn [all_bytes] in H2. rewrite Hsep in H2. discriminate.
  - rewrite append_cons in Heq. injection Heq as -> _.
    cbn [all_bytes] in H1. rewrite Hsep in H1. discriminate.
  - rewrite !append_cons in Heq. injection Heq as -> Heq.
    cbn [all_bytes] in H1, H2.
    apply andb_true_iff in H1 as [_ H1]. apply andb_true_iff in H2 as [_ H2].
    destruct (IH H1 s2 H2 Heq) as [-> ->]. auto.
Qed.

Lemma guessImageExtension_dot (uri : string) :
  exists rest, guessImageExtension uri = String "." rest.
Proof.
  unfold guessImageExtension. cbv zeta.
  repeat (match goal with |- context [Contains ?s ?e] => destruct (Contains s e) end;
          [eexists; reflexivity|]).
  eexists; reflexivity.
Qed.

(** The name of an image tells the index of the tab and the number of
    the image. *)
Lemma image_filename_inj (i i' n n' : Z) (uri uri' : string) :
  0 <= i -> 0 <= i' -> 0 <= n -> 0 <= n' ->
  image_filename i n (guessImageExtension uri)
  = image_filename i' n' (guessImageExtension uri') ->
  i = i' /\ n = n'.
Proof.
  intros Hi Hi' Hn Hn'. unfold image_filename.
  destruct (guessImageExtension_dot uri) as [e ->].
  destruct (guessImageExtension_dot uri') as [e' ->].
  rewrite !fmt_d_nonneg, !fmt_03d_nonneg by assumption.
  intros Heq. apply (inj (String.app "tab")) in Heq.
  change ("_image_" +:+ ?x) with (String "_" ("image_" +:+ x)) in Heq.
  apply (split_at_separator is_digit) in Heq as [Hidx Heq];
    [|apply pad_digits_digits..|reflexivity].
  apply (inj (String.app "image_")) in Heq.
  apply (split_at_separator is_digit) in Heq as [Hnum _];
    [|apply pad_digits_digits..|reflexivity].
  split; eapply pad_digits_inj; eassumption.
Qed.

End FilenameFacts.

(** ** The image counter *)

Section NumberedFacts.

Context `{UnicodeTables}.

Lemma int_add_wrap (a b : Z) : int_add (int_wrap a) b = int_wrap (a + b).
Proof.
  unfold int_add, int_wrap. f_equal.
  replace ((a + 2 ^ 63) mod 2 ^ 64 - 2 ^ 63 + b + 2 ^ 63)
    with ((a + 2 ^ 63) mod 2 ^ 64 + b) by lia.
  rewrite Zplus_mod_idemp_l. f_equal. lia.
Qed.

Lemma int_wrap_small (z : Z) : minInt <= z <= maxInt -> int_wrap z = z.
Proof.
  unfold minInt, maxInt, int_wrap. intros Hz.
  rewrite Z.mod_small by lia. lia.
Qed.

Lemma numbered_new (t : Tab) (index : Z) : numbered index (new_converter t index).
Proof.
  split; [reflexivity|]. split; [reflexivity|].
  intros k img Hk. cbn in Hk. rewrite lookup_nil in Hk. discriminate.
Qed.

Lemma numbered_same_images (index : Z) (c c' : converter) :
  tabIndex c' = tabIndex c -> images c' = images c -> imageCount c' = imageCount c ->
  numbered index c -> numbered index c'.
Proof.
  intros Hidx Himgs Hcount (Hi & Hc & Hnames).
  split; [congruence|]. split; [congruence|].
  rewrite Himgs. exact Hnames.
Qed.

Lemma numbered_WriteString (index : Z) (s : string) (c : converter) :
  numbered index c -> numbered index (WriteString s c).
Proof. apply numbered_same_images; reflexivity. Qed.

Lemma numbered_set_listState (index : Z) (ls : listTracker) (c : converter) :
  numbered index c -> numbered index (set_listState ls c).
Proof. apply numbered_same_images; reflexivity. Qed.

Lemma numbered_renderInlineObject (index : Z) (elem : InlineObjectElement)
    (c : converter) :
  numbered index c -> numbered index (renderInlineObject elem c).2.
Proof.
  intros (Hi & Hc & Hnames).
  destruct (renderInlineObject_cases elem c) as [-> | (uri & alt & ->)];
    [repeat split; assumption|].
  cbn [snd]. split; [exact Hi|]. cbn [images imageCount]. split.
  - rewrite Hc, int_add_wrap, length_app. cbn [length]. f_equal. lia.
  - intros k img Hk.
    destruct (decide (k < length (images c))%nat) as [Hlt | Hge].
    + rewrite lookup_app_l in Hk by exact Hlt. eapply Hnames; exact Hk.
    + rewrite lookup_app_r in Hk by lia.
      destruct (k - length (images c))%nat as [|m] eqn:Hm; [|destruct m; discriminate].
      injection Hk as <-. cbn [Filename ContentURI].
      rewrite Hi, Hc, int_add_wrap. do 2 f_equal. lia.
Qed.

Lemma numbered_renderParagraphElement (index : Z) (elem : ParagraphElement)
    (c : converter) :
  numbered index c -> numbered index (renderParagraphElement elem c).2.
Proof.
  intros Hc. unfold renderParagraphElement.
  destruct (PE_TextRun elem); [exact Hc|].
  destruct (PE_InlineObjectElement elem); [apply numbered_renderInlineObject, Hc|].
  destruct (PE_HorizontalRule elem); exact Hc.
Qed.

Lemma numbered_renderParagraphElements (index : Z) (elements : list ParagraphElement)
    (c : converter) :
  numbered index c -> numbered index (renderParagraphElements elements c).2.
Proof.
  revert c. induction elements as [|elem rest IH]; intros c Hc; cbn; [exact Hc|].
  pose proof (numbered_renderParagraphElement index elem c Hc) as H1.
  destruct (renderParagraphElement elem c) as [s c1].
  pose proof (IH c1 H1) as H2.
  destruct (renderParagraphElements rest c1) as [s' c2]. exact H2.
Qed.

Lemma numbered_cell_text (index : Z) (content : list StructuralElement)
    (c : converter) :
  numbered index c -> numbered index (cell_text content c).2.
Proof.
  revert c. induction content as [|elem rest IH]; intros c Hc; cbn; [exact Hc|].
  destruct (SE_Paragraph elem) as [p|]; [|apply IH, Hc].
  pose proof (numbered_renderParagraphElements index (Elements p) c Hc) as H1.
  destruct (renderParagraphElements (Elements p) c) as [text c1].
  pose proof (IH c1 H1) as H2.
  destruct (cell_text rest c1) as [more c2]. exact H2.
Qed.

Lemma numbered_row_cells (index : Z) (cells : list TableCell) (c : converter) :
  numbered index c -> numbered index (row_cells cells c).2.
Proof.
  revert c. induction cells as [|cell rest IH]; intros c Hc; cbn; [exact Hc|].
  pose proof (numbered_cell_text index (TableCell_Content cell) c Hc) as H1.
  destruct (cell_text (TableCell_Content cell) c) as [text c1].
  pose proof (IH c1 H1) as H2.
  destruct (row_cells rest c1) as [more c2]. exact H2.
Qed.

Lemma numbered_table_rows (index : Z) (rows : list TableRow) (c : converter) :
  numbered index c -> numbered index (table_rows rows c).2.
Proof.
  revert c. induction rows as [|row rest IH]; intros c Hc; cbn; [exact Hc|].
  pose proof (numbered_row_cells index (TableCells row) c Hc) as H1.
  destruct (row_cells (TableCells row) c) as [cells c1].
  pose proof (IH c1 H1) as H2.
  destruct (table_rows rest c1) as [more c2]. exact H2.
Qed.

Lemma numbered_convertTable (index : Z) (table : option Table) (c : converter) :
  numbered index c -> numbered index (convertTable table c).
Proof.
  intros Hc. unfold convertTable. destruct table as [t|]; [|exact Hc].
  destruct (length (TableRows t) =? 0)%nat; [exact Hc|].
  pose proof (numbered_table_rows index (TableRows t) c Hc) as H1.
  destruct (table_rows (TableRows t) c) as [rows c1]. cbn [snd] in H1.
  destruct (length rows =? 0)%nat; [exact H1|].
  apply numbered_WriteString, H1.
Qed.

Lemma numbered_writeHeading (index : Z) (text : string) (level : Z)
    (c c' : converter) :
  writeHeading text level c = Ok c' -> numbered index c -> numbered index c'.
Proof.
  unfold writeHeading. destruct (Repeat "#" level); [|discriminate].
  cbn [res_bind]. intros [= <-] Hc.
  repeat apply numbered_WriteString. exact Hc.
Qed.

Lemma numbered_handleListItem (index : Z) (p : Paragraph) (headingLevel : Z)
    (c c' : converter) :
  handleListItem p headingLevel c = Ok c' -> numbered index c -> numbered index c'.
Proof.
  unfold handleListItem. destruct (Paragraph_Bullet p) as [b|]; [|discriminate].
  cbv zeta. destruct (list_is_ordered _ _ _) as [ordered|]; [|discriminate].
  cbn [res_bind]. destruct (Repeat "  " _) as [indent|]; [|discriminate].
  cbn [res_bind]. intros Hrun Hc.
  pose proof (numbered_renderParagraphElements index (Elements p) _
                (numbered_set_listState index
                   (track_item (ListId b) (Bullet_NestingLevel b) (listState c)) c Hc))
    as H1.
  destruct (renderParagraphElements _ _) as [rendered c2]. cbn [snd] in H1.
  destruct ordered; injection Hrun as <-; apply numbered_WriteString, H1.
Qed.

Lemma numbered_convertParagraph (index : Z) (p : Paragraph) (c c' : converter) :
  convertParagraph p c = Ok c' -> numbered index c -> numbered index c'.
Proof.
  unfold convertParagraph. cbv zeta.
  destruct (Paragraph_Bullet p) as [b|]; [apply numbered_handleListItem|].
  intros Hrun Hc.
  pose proof (numbered_renderParagraphElements index (Elements p) _
                (numbered_set_listState index listTracker_zero c Hc)) as H1.
  destruct (renderParagraphElements _ _) as [text c2]. cbn [snd] in H1.
  destruct (String.eqb (TrimSpace text) "").
  - injection Hrun as <-. apply numbered_WriteString, H1.
  - destruct (0 <? _).
    + eapply numbered_writeHeading; eassumption.
    + injection Hrun as <-. repeat apply numbered_WriteString. exact H1.
Qed.

Lemma numbered_convertStructuralElement (index : Z) (elem : StructuralElement)
    (c c' : converter) :
  convertStructuralElement elem c = Ok c' -> numbered index c -> numbered index c'.
Proof.
  unfold convertStructuralElement.
  destruct (SE_Paragraph elem) as [p|]; [apply numbered_convertParagraph|].
  destruct (SE_Table elem) as [t|].
  - intros Hrun Hc. injection Hrun as <-.
    exact (numbered_convertTable index (Some t) c Hc).
  - destruct (SE_SectionBreak elem); [intros [= <-]; auto|].
    destruct (SE_TableOfContents elem); intros [= <-]; auto.
Qed.

Lemma numbered_convertElements (index : Z) (content : list StructuralElement)
    (c c' : converter) :
  convertElements content c = Ok c' -> numbered index c -> numbered index c'.
Proof.
  revert c. induction content as [|elem rest IH]; intros c; cbn [convertElements].
  - intros [= <-]. auto.
  - destruct (convertStructuralElement elem c) as [c1|] eqn:Hstep; [|discriminate].
    cbn [res_bind]. intros Hrest Hc. apply (IH c1 Hrest).
    eapply numbered_convertStructuralElement; eassumption.
Qed.

(** The image at position [k] of the result of a tab is named after the
    index of the tab and [k + 1]. *)
Lemma ConvertTab_names (t : Tab) (tabTitle : string) (index : Z) (r : ConvertResult) :
  ConvertTab t tabTitle index = Ok r ->
  forall (k : nat) (img : ImageRef),
    Images r !! k = Some img ->
    Filename img
    = image_filename index (int_wrap (Z.of_nat (S k)))
        (guessImageExtension (ContentURI img)).
Proof.
  unfold ConvertTab. cbv zeta.
  destruct (writeHeading tabTitle 1 _) as [c1|] eqn:Hhead; [|discriminate].
  cbn [res_bind].
  pose proof (numbered_writeHeading index _ _ _ _ Hhead (numbered_new t index)) as H1.
  assert (Hbody : forall c2,
             match Tab_DocumentTab t with
             | Some dt => convertBody (DocumentTab_Body dt) c1
             | None => Ok c1
             end = Ok c2 -> numbered index c2).
  { intros c2. destruct (Tab_DocumentTab t) as [dt|]; [|intros [= <-]; exact H1].
    unfold convertBody. destruct (DocumentTab_Body dt) as [body|];
      [|intros [= <-]; exact H1].
    intros Hrun. eapply numbered_convertElements; eassumption. }
  destruct (match Tab_DocumentTab t with
            | Some dt => convertBody (DocumentTab_Body dt) c1
            | None => Ok c1
            end) as [c2|]; [|discriminate].
  cbn [res_bind]. intros [= <-]. cbn [Images].
  destruct (Hbody c2 eq_refl) as (_ & _ & Hnames). exact Hnames.
Qed.

End NumberedFacts.

(** ** The conversion phase *)

Section ExportFacts.

Context `{UnicodeTables}.

Lemma convert_task_value (tabs : list Tab) (i : nat) (results : list tabResult) :
  convert_task tabs i results
  = match task_value tabs i with
    | None => Ok results
    | Some (Ok v) => Ok (<[i := v]> results)
    | Some (Panic msg) => Panic msg
    end.
Proof.
  unfold convert_task, task_value.
  destruct (tabs !! i) as [t|]; [|reflexivity]. cbn [mbind option_bind].
  destruct (ConvertTab t (tabTitle t) (Z.of_nat i)); reflexivity.
Qed.

(** Two tasks can run in either order. *)
Lemma convert_task_swap (tabs : list Tab) (i j : nat) (rs rs1 rs2 : list tabResult) :
  convert_task tabs i rs = Ok rs1 ->
  convert_task tabs j rs1 = Ok rs2 ->
  exists rs1', convert_task tabs j rs = Ok rs1' /\ convert_task tabs i rs1' = Ok rs2.
Proof.
  intros Hi Hj. destruct (decide (i = j)) as [<- | Hne].
  - exists rs1. split; assumption.
  - rewrite convert_task_value in Hi, Hj.
    exists (match task_value tabs j with
            | Some (Ok v) => <[j := v]> rs
            | _ => rs
            end).
    rewrite !convert_task_value.
    destruct (task_value tabs i) as [[v|msg]|], (task_value tabs j) as [[v'|msg']|];
      try discriminate; injection Hi as <-; injection Hj as <-;
      (split; [reflexivity|]); try reflexivity.
    rewrite list_insert_insert_ne by exact Hne. reflexivity.
Qed.

(** The outcome of the conversion phase does not depend on the order in
    which the scheduler runs the tasks. *)
Lemma run_tasks_permutation (tabs : list Tab) (sched sched' : list nat) :
  sched ≡ₚ sched' ->
  forall rs rs', run_tasks tabs sched rs = Ok rs' -> run_tasks tabs sched' rs = Ok rs'.
Proof.
  induction 1 as [|i l l' _ IH|i j l|l1 l2 l3 _ IH1 _ IH2]; intros rs rs'.
  - auto.
  - cbn [run_tasks].
    destruct (convert_task tabs i rs) as [rs1|]; cbn [res_bind]; [|discriminate].
    apply IH.
  - cbn [run_tasks].
    destruct (convert_task tabs j rs) as [rs1|] eqn:Hj; cbn [res_bind]; [|discriminate].
    destruct (convert_task tabs i rs1) as [rs2|] eqn:Hi; cbn [res_bind]; [|discriminate].
    intros Hrest.
    destruct (convert_task_swap tabs j i rs rs1 rs2 Hj Hi) as (rs1' & -> & Hi').
    cbn [res_bind]. rewrite Hi'. exact Hrest.
  - intros Hrun. apply IH2, IH1, Hrun.
Qed.

(** A slot of the results holds what it held before the tasks ran, or
    the value of the task of its index. *)
Lemma run_tasks_slots (tabs : list Tab) (sched : list nat) (rs rs' : list tabResult) :
  run_tasks tabs sched rs = Ok rs' ->
  forall (i : nat) (r : tabResult),
    rs' !! i = Some r -> rs !! i = Some r \/ task_value tabs i = Some (Ok r).
Proof.
  revert rs. induction sched as [|j rest IH]; intros rs; cbn [run_tasks].
  - intros [= <-]. auto.
  - rewrite convert_task_value.
    destruct (task_value tabs j) as [[v|msg]|] eqn:Hj; cbn [res_bind];
      [|discriminate|apply IH].
    intros Hrun i r Hr.
    destruct (IH _ Hrun i r Hr) as [Hold | Hnew]; [|auto].
    apply list_lookup_insert_Some in Hold as [(<- & <- & _) | (_ & Hold)]; auto.
Qed.

Lemma convertTabs_slots (tabs : list Tab) (sched : list nat) (results : list tabResult) :
  convertTabs tabs sched = Ok results ->
  forall (i : nat) (r : tabResult),
    results !! i = Some r ->
    r = tabResult_zero
    \/ exists t, tabs !! i = Some t
                 /\ ConvertTab t (tabTitle t) (Z.of_nat i) = Ok (result r).
Proof.
  intros Hrun i r Hr.
  destruct (run_tasks_slots _ _ _ _ Hrun i r Hr) as [Hzero | Htask].
  - left. apply lookup_replicate_1 in Hzero as [-> _]. reflexivity.
  - right. unfold task_value in Htask.
    destruct (tabs !! i) as [t|]; [|discriminate]. cbn [mbind option_bind] in Htask.
    exists t. split; [reflexivity|].
    destruct (ConvertTab t (tabTitle t) (Z.of_nat i)) as [res|]; [|discriminate].
    cbn [res_bind] in Htask. injection Htask as <-. reflexivity.
Qed.

(** The names of the images of a slot, when they fit a slice. *)
Lemma slot_names (tabs : list Tab) (sched : list nat) (results : list tabResult)
    (i : nat) (r : tabResult) :
  convertTabs tabs sched = Ok results ->
  results !! i = Some r ->
  Z.of_nat (length (Images (result r))) <= maxInt ->
  forall (k : nat) (img : ImageRef),
    Images (result r) !! k = Some img ->
    Filename img
    = image_filename (Z.of_nat i) (Z.of_nat (S k))
        (guessImageExtension (ContentURI img)).
Proof.
  intros Hrun Hr Hlen k img Himg.
  destruct (convertTabs_slots _ _ _ Hrun i r Hr) as [-> | (t & _ & Hconv)].
  - cbn in Himg. rewrite lookup_nil in Himg. discriminate.
  - rewrite (ConvertTab_names _ _ _ _ Hconv k img Himg).
    do 2 f_equal. apply int_wrap_small.
    apply lookup_lt_Some in Himg. unfold minInt. lia.
Qed.

Lemma slot_named_by (tabs : list Tab) (sched : list nat) (results : list tabResult)
    (i : nat) (r : tabResult) :
  convertTabs tabs sched = Ok results ->
  results !! i = Some r ->
  Z.of_nat (length (Images (result r))) <= maxInt ->
  named_by (Z.of_nat i) (Filename <$> Images (result r)).
Proof.
  intros Hrun Hr Hlen k name Hk.
  apply list_lookup_fmap_Some in Hk as (img & -> & Himg).
  exists (ContentURI img). exact (slot_names _ _ _ _ _ Hrun Hr Hlen k img Himg).
Qed.

(** With valid bullets in every tab, every order of the tasks gives
    results. *)
Lemma run_tasks_total (tabs : list Tab) (sched : list nat) (rs : list tabResult) :
  Forall valid_tab tabs -> exists rs', run_tasks tabs sched rs = Ok rs'.
Proof.
  intros Hvalid. revert rs.
  induction sched as [|i rest IH]; intros rs; cbn [run_tasks]; [eauto|].
  unfold convert_task. destruct (tabs !! i) as [t|] eqn:Ht.
  - rewrite Forall_lookup in Hvalid.
    destruct (ConvertTab_total t (tabTitle t) (Z.of_nat i) (Hvalid i t Ht)) as [res ->].
    cbn [res_bind]. apply IH.
  - cbn [res_bind]. apply IH.
Qed.

Lemma convertTabs_total (tabs : list Tab) (sched : list nat) :
  Forall valid_tab tabs -> exists results, convertTabs tabs sched = Ok results.
Proof. intros Hvalid. apply run_tasks_total. exact Hvalid. Qed.

Lemma named_by_NoDup (index : Z) (names : list string) :
  0 <= index -> named_by index names -> NoDup names.
Proof.
  intros Hidx Hnames. apply NoDup_alt. intros k k' name Hk Hk'.
  destruct (Hnames k name Hk) as [uri Hname].
  destruct (Hnames k' name Hk') as [uri' Hname'].
  rewrite Hname in Hname'.
  apply image_filename_inj in Hname' as [_ Heq]; lia.
Qed.

Lemma named_by_disjoint (index index' : Z) (names names' : list string) (x : string) :
  0 <= index -> 0 <= index' -> index <> index' ->
  named_by index names -> named_by index' names' ->
  x ∈ names -> x ∉ names'.
Proof.
  intros Hidx Hidx' Hne Hnames Hnames' Hin Hin'.
  apply list_elem_of_lookup in Hin as [k Hk], Hin' as [k' Hk'].
  destruct (Hnames k x Hk) as [uri Hname].
  destruct (Hnames' k' x Hk') as [uri' Hname'].
  rewrite Hname in Hname'.
  apply image_filename_inj in Hname' as [Heq _]; lia.
Qed.

Lemma collectImages_cons (dir : string) (r : tabResult) (rs : list tabResult) :
  (fun d => Filename (ref d)) <$> collectImages dir (r :: rs)
  = (Filename <$> Images (result r))
    ++ ((fun d => Filename (ref d)) <$> collectImages dir rs).
Proof.
  unfold collectImages. cbn [flat_map]. rewrite fmap_app. f_equal.
  rewrite <- list_fmap_compose. reflexivity.
Qed.

Lemma collectImages_elem (dir : string) (rs : list tabResult) (x : string) :
  x ∈ (fun d => Filename (ref d)) <$> collectImages dir rs ->
  exists (j : nat) (r : tabResult),
    rs !! j = Some r /\ x ∈ Filename <$> Images (result r).
Proof.
  induction rs as [|r rs IH].
  - intros Hin. cbn in Hin. apply elem_of_nil in Hin. destruct Hin.
  - rewrite collectImages_cons. intros [Hin | Hin]%elem_of_app.
    + exists 0%nat, r. auto.
    + destruct (IH Hin) as (j & r' & Hj & Hx). exists (S j), r'. auto.
Qed.

(** Slots named after their positions have no name in common. *)
Lemma names_NoDup (dir : string) (offset : nat) (rs : list tabResult) :
  (forall (j : nat) (r : tabResult),
      rs !! j = Some r ->
      named_by (Z.of_nat (offset + j)) (Filename <$> Images (result r))) ->
  NoDup ((fun d => Filename (ref d)) <$> collectImages dir rs).
Proof.
  revert offset. induction rs as [|r rs IH]; intros offset Hnamed.
  - constructor.
  - rewrite collectImages_cons. apply NoDup_app. split; [|split].
    + apply (named_by_NoDup (Z.of_nat (offset + 0))); [lia|].
      apply (Hnamed 0%nat r). reflexivity.
    + intros x Hx Hx'.
      destruct (collectImages_elem dir rs x Hx') as (j & r' & Hj & Hin).
      revert Hin.
      apply (named_by_disjoint (Z.of_nat (offset + 0)) (Z.of_nat (offset + S j))
               (Filename <$> Images (result r))); [lia | lia | lia | | | exact Hx].
      * apply (Hnamed 0%nat r). reflexivity.
      * apply (Hnamed (S j) r'). exact Hj.
    + apply (IH (S offset)). intros j r' Hj.
      replace (S offset + j)%nat with (offset + S j)%nat by lia.
      apply (Hnamed (S j) r'). exact Hj.
Qed.

End ExportFacts.

(** ** Claim on image file names *)

(** C1. The file names of all the images that an export collects from its
    tabs are pairwise distinct, in whatever order the scheduler runs the
    conversion tasks: the image at position [k] of the tab at position [i]
    of the flattened tabs is named tab<i>_image_<k+1, at least three
    digits><extension>, which depends on nothing else than [i], [k] and
    the extension guessed from the URI of the image, and an order of the
    tasks that gives the results gives the same results in any permutation.  (The
    images of a tab are a Go slice, whose length fits an [int].) *)
Theorem image_filenames_are_distinct `{UnicodeTables}
    (tabs : list Tab) (sched : list nat) (results : list tabResult) (dir : string) :
  convertTabs tabs sched = Ok results ->
  Forall (fun r => Z.of_nat (length (Images (result r))) <= maxInt) results ->
  NoDup ((fun d => Filename (ref d)) <$> collectImages dir results)
  /\ (forall (i : nat) (r : tabResult) (k : nat) (img : ImageRef),
        results !! i = Some r ->
        Images (result r) !! k = Some img ->
        Filename img
        = "tab" +:+ fmt_d (Z.of_nat i) +:+ "_image_" +:+ fmt_03d (Z.of_nat (S k))
          +:+ guessImageExtension (ContentURI img))
  /\ (forall sched' : list nat,
        sched ≡ₚ sched' -> convertTabs tabs sched' = Ok results).
Proof.
  intros Hrun Hlen.
  assert (Hnamed : forall (i : nat) (r : tabResult),
             results !! i = Some r ->
             named_by (Z.of_nat i) (Filename <$> Images (result r))).
  { intros i r Hr. apply (slot_named_by tabs sched results i r Hrun Hr).
    rewrite Forall_lookup in Hlen. exact (Hlen i r Hr). }
  split; [|split].
  - apply (names_NoDup dir 0). exact Hnamed.
  - intros i r k img Hr Himg.
    rewrite Forall_lookup in Hlen.
    exact (slot_names tabs sched results i r Hrun Hr (Hlen i r Hr) k img Himg).
  - intros sched' Hperm. unfold convertTabs in *.
    exact (run_tasks_permutation tabs sched sched' Hperm _ _ Hrun).
Qed.

Lemma image_filenames_are_distinct_witness :
  NoDup ((fun d => Filename (ref d)) <$> collectImages "out/images" sample_results)
  /\ (fun d => Filename (ref d)) <$> collectImages "out/images" sample_results
     = ["tab0_image_001.png"; "tab0_image_002.jpg";
        "tab1_image_001.png"; "tab1_image_002.jpg"].
Proof.
  assert (Hrun : @convertTabs sample_tables sample_image_tabs [1%nat; 0%nat]
                 = Ok sample_results) by (vm_compute; reflexivity).
  assert (Hlen : Forall (fun r => Z.of_nat (length (Images (result r))) <= maxInt)
                        sample_results)
    by (repeat constructor; vm_compute; discriminate).
  split.
  - exact (proj1 (@image_filenames_are_distinct sample_tables sample_image_tabs
                    [1%nat; 0%nat] sample_results "out/images" Hrun Hlen)).
  - vm_compute. reflexivity.
Defined.

(** * Further properties *)

(** ** Rendering of runs and images *)

Section RenderFacts.

Context `{UnicodeTables}.

Lemma rev_cons (a : ascii) (s : string) :
  String.rev (String a s) = String.rev s +:+ String a "".
Proof. apply (rev_append (String a "") s). Qed.

Lemma rev_involutive (s : string) : String.rev (String.rev s) = s.
Proof.
  induction s as [|a s IH]; [reflexivity|].
  rewrite rev_cons, rev_append, IH. reflexivity.
Qed.

Lemma prefix_byte_append (a : ascii) (u v : string) :
  u <> "" ->
  String.prefix (String a "") (u +:+ v) = String.prefix (String a "") u.
Proof.
  intros Hu. destruct u as [|b u]; [congruence|].
  rewrite append_cons. cbn [String.prefix].
  destruct (ascii_dec a b); [|reflexivity]. rewrite !prefix_nil. reflexivity.
Qed.

Lemma rev_nonempty (s : string) : s <> "" -> String.rev s <> "".
Proof.
  destruct s as [|a s]; [congruence|]. intros _. rewrite rev_cons.
  destruct (String.rev s); discriminate.
Qed.

(** Whether a string ends in a newline is decided by any non-empty end
    of it. *)
Lemma HasSuffix_newline_append (s t : string) :
  t <> "" -> HasSuffix (s +:+ t) newline = HasSuffix t newline.
Proof.
  intros Ht. unfold HasSuffix. rewrite rev_append.
  apply (prefix_byte_append (byte 10)). apply rev_nonempty, Ht.
Qed.

Lemma trim_left_bytes_head (cutset s : string) (a : ascii) :
  in_cutset cutset a = true ->
  String.prefix (String a "") (trim_left_bytes cutset s) = false.
Proof.
  intros Ha. induction s as [|b s IH]; [reflexivity|].
  cbn [trim_left_bytes]. destruct (in_cutset cutset b) eqn:Hb; [exact IH|].
  cbn [String.prefix]. destruct (ascii_dec a b) as [-> | _]; [congruence | reflexivity].
Qed.

(** What [TrimRight] leaves does not end in a byte of the cutset. *)
Lemma TrimRight_no_newline (s : string) :
  HasSuffix (TrimRight s newline) newline = false.
Proof.
  unfold HasSuffix, TrimRight. rewrite rev_involutive.
  apply (trim_left_bytes_head newline _ (byte 10)). reflexivity.
Qed.

Lemma styled_no_newline (style : TextStyle) (body : string) :
  HasSuffix body newline = false ->
  HasSuffix (link_wrap style (strike style (emphasis style body))) newline = false.
Proof.
  intros Hbody.
  assert (Hemph : HasSuffix (emphasis style body) newline = false).
  { unfold emphasis.
    destruct (Bold style && Italic style); [|destruct (Bold style); [|destruct (Italic style)]];
      try exact Hbody;
      rewrite <- append_assoc, HasSuffix_newline_append by discriminate; reflexivity. }
  assert (Hstrike : HasSuffix (strike style (emphasis style body)) newline = false).
  { unfold strike. destruct (Strikethrough style); [|exact Hemph].
    rewrite <- append_assoc, HasSuffix_newline_append by discriminate. reflexivity. }
  unfold link_wrap. destruct (TextStyle_Link style) as [l|]; [|exact Hstrike].
  destruct (negb (String.eqb (Url l) "")); [|exact Hstrike].
  rewrite <- !append_assoc. apply HasSuffix_last_byte. discriminate.
Qed.

Lemma lower_byte_idempotent (a : ascii) : lower_byte (lower_byte a) = lower_byte a.
Proof. destruct a as [[] [] [] [] [] [] [] []]; reflexivity. Qed.

Lemma lower_byte_ascii (a : ascii) :
  (code (lower_byte a) <? 128)%nat = (code a <? 128)%nat.
Proof. destruct a as [[] [] [] [] [] [] [] []]; reflexivity. Qed.

Lemma ToLower_idempotent_ascii (s : string) :
  isASCII s = true -> ToLower (ToLower s) = ToLower s.
Proof.
  intros Hs. unfold ToLower. rewrite Hs.
  assert (Hlow : isASCII (map_bytes lower_byte s) = true).
  { induction s as [|a s IH]; [reflexivity|].
    cbn [isASCII map_bytes] in *. rewrite lower_byte_ascii.
    apply andb_true_iff in Hs as [-> Hs]. exact (IH Hs). }
  rewrite Hlow. clear Hs Hlow.
  induction s as [|a s IH]; [reflexivity|].
  cbn [map_bytes]. rewrite lower_byte_idempotent, IH. reflexivity.
Qed.

End RenderFacts.

(** X1. An inline image that resolves to an embedded object with a content
    URI is rendered as a Markdown image whose alternative text is the
    title of the object, else its description, else the file name; the
    image is recorded once, at the end of the images, with the identifier
    of the element, the URI and the file name, and the counter goes up by
    one; nothing else of the converter changes. *)
Theorem resolved_image_is_recorded `{UnicodeTables}
    (elem : InlineObjectElement) (c : converter) (obj : InlineObject)
    (embedded : EmbeddedObject) :
  inline_object (tab c) (InlineObjectId elem) = Some obj ->
  embedded_object obj = Some embedded ->
  content_uri obj <> "" ->
  let uri := content_uri obj in
  let count := int_add (imageCount c) 1 in
  let name := "tab" +:+ fmt_d (tabIndex c) +:+ "_image_" +:+ fmt_03d count
              +:+ guessImageExtension uri in
  let alt := if negb (String.eqb (EmbeddedObject_Title embedded) "")
             then EmbeddedObject_Title embedded
             else if negb (String.eqb (Description embedded) "")
                  then Description embedded
                  else name in
  renderInlineObject elem c
  = ("![" +:+ alt +:+ "](images/" +:+ name +:+ ")",
     {| tab := tab c; tabIndex := tabIndex c; buf := buf c;
        images := images c ++ [ {| ObjectID := InlineObjectId elem;
                                   ContentURI := uri;
                                   Filename := name |} ];
        imageCount := count;
        listState := listState c |}).
Proof.
  unfold inline_object, embedded_object, content_uri, renderInlineObject.
  destruct (Tab_DocumentTab (tab c)) as [dt|]; [|discriminate]. cbn [mbind option_bind].
  destruct (InlineObjects dt) as [objs|]; [|discriminate]. cbn [mbind option_bind].
  intros -> Hemb Huri. revert Hemb Huri.
  destruct (InlineObject_InlineObjectProperties obj) as [props|]; [|discriminate].
  cbn [mbind option_bind]. intros ->. cbn [mbind option_bind].
  destruct (EmbeddedObject_ImageProperties embedded) as [ip|]; cbn; [|congruence].
  intros Huri. apply String.eqb_neq in Huri. rewrite Huri.
  unfold image_filename.
  destruct (String.eqb (EmbeddedObject_Title embedded) "") eqn:Htitle; cbn [negb].
  - destruct (String.eqb (Description embedded) "") eqn:Hdesc; cbn [negb];
      rewrite ?Hdesc; reflexivity.
  - rewrite Htitle. reflexivity.
Qed.

Lemma resolved_image_is_recorded_witness :
  @renderInlineObject sample_tables {| InlineObjectId := "photo" |}
    (new_converter sample_image_tab 2)
  = ("![A photo](images/tab2_image_001.jpg)",
     {| tab := sample_image_tab; tabIndex := 2; buf := "";
        images := [ {| ObjectID := "photo"; ContentURI := "https://host/photo";
                       Filename := "tab2_image_001.jpg" |} ];
        imageCount := 1; listState := listTracker_zero |}).
Proof.
  assert (Huri : content_uri jpg_object <> "") by (vm_compute; discriminate).
  exact (@resolved_image_is_recorded sample_tables {| InlineObjectId := "photo" |}
           (new_converter sample_image_tab 2) jpg_object _ eq_refl eq_refl Huri).
Defined.

(** X2. The extension guessed for a URI is the first of .png, .gif, .svg
    and .webp that occurs in the lower-cased URI, and .jpg when none does;
    for a URI of ASCII bytes the guess does not depend on the case of the
    letters. *)
Theorem image_extension_is_first_match `{UnicodeTables} (uri : string) :
  guessImageExtension uri
  = default ".jpg" (List.find (Contains (ToLower uri)) image_extensions)
  /\ In (guessImageExtension uri) (image_extensions ++ [".jpg"])
  /\ (isASCII uri = true -> guessImageExtension (ToLower uri) = guessImageExtension uri).
Proof.
  split; [|split].
  - unfold guessImageExtension, image_extensions. cbn [List.find].
    destruct (Contains (ToLower uri) ".png"); [reflexivity|].
    destruct (Contains (ToLower uri) ".gif"); [reflexivity|].
    destruct (Contains (ToLower uri) ".svg"); [reflexivity|].
    destruct (Contains (ToLower uri) ".webp"); reflexivity.
  - unfold guessImageExtension, image_extensions. cbn [app In].
    destruct (Contains (ToLower uri) ".png"); [tauto|].
    destruct (Contains (ToLower uri) ".gif"); [tauto|].
    destruct (Contains (ToLower uri) ".svg"); [tauto|].
    destruct (Contains (ToLower uri) ".webp"); tauto.
  - intros Hascii. unfold guessImageExtension.
    rewrite (ToLower_idempotent_ascii uri Hascii). reflexivity.
Qed.

Lemma image_extension_is_first_match_witness :
  @guessImageExtension sample_tables "HTTPS://HOST/A.GIF?AS=.PNG" = ".png".
Proof.
  assert (Hascii : isASCII "HTTPS://HOST/A.GIF?AS=.PNG" = true) by reflexivity.
  pose proof (proj2 (proj2 (@image_extension_is_first_match sample_tables
                              "HTTPS://HOST/A.GIF?AS=.PNG")) Hascii) as Hcase.
  rewrite <- Hcase. reflexivity.
Defined.

(** X3. A text run that is not rendered as inline code (it has no style,
    or its font is not monospace, or its content is blank) is rendered
    with a newline at its end exactly when its content ends in a newline. *)
Theorem styled_run_keeps_final_newline `{UnicodeTables} (tr : TextRun) :
  (forall style, TextRun_TextStyle tr = Some style ->
                 isMonospace style && negb (String.eqb (TrimSpace (TextRun_Content tr)) "")
                 = false) ->
  HasSuffix (renderTextRun tr) newline = HasSuffix (TextRun_Content tr) newline.
Proof.
  destruct tr as [content [style|]]; cbn [TextRun_Content TextRun_TextStyle];
    intros Hcode.
  - rewrite (renderTextRun_styled content style (Hcode style eq_refl)). cbv zeta.
    destruct (String.eqb_spec (TrimRight content newline) "") as [Hempty | Hbody].
    + destruct (HasSuffix content newline); reflexivity.
    + destruct (HasSuffix content newline).
      * apply HasSuffix_append.
      * rewrite append_nil_r. apply styled_no_newline, TrimRight_no_newline.
  - unfold renderTextRun. cbn [TextRun_Content TextRun_TextStyle].
    destruct (String.eqb content newline); reflexivity.
Qed.

Lemma styled_run_keeps_final_newline_witness :
  HasSuffix (@renderTextRun sample_tables
               (sample_run ("a" +:+ newline +:+ newline)
                  (Some (sample_style true false false (Some "u") None)))) newline
  = true.
Proof.
  refine (@styled_run_keeps_final_newline sample_tables
            (sample_run ("a" +:+ newline +:+ newline)
               (Some (sample_style true false false (Some "u") None))) _).
  intros style Hstyle. injection Hstyle as <-. reflexivity.
Defined.

(** ** The converter only appends *)

Section ExtendsFacts.

Context `{UnicodeTables}.

Lemma starts_with_refl (s : string) : starts_with s s.
Proof. exists "". rewrite append_nil_r. reflexivity. Qed.

Lemma starts_with_trans (s t u : string) :
  starts_with s t -> starts_with t u -> starts_with s u.
Proof.
  intros [r ->] [r' ->]. exists (r +:+ r'). apply append_assoc.
Qed.

Lemma extends_refl (c : converter) : extends c c.
Proof. repeat split; [apply starts_with_refl | reflexivity]. Qed.

Lemma extends_trans (c1 c2 c3 : converter) :
  extends c1 c2 -> extends c2 c3 -> extends c1 c3.
Proof.
  intros (Ha & Hb & Hc & Hd) (Ha' & Hb' & Hc' & Hd').
  split; [congruence|]. split; [congruence|]. split.
  - eapply starts_with_trans; eassumption.
  - etrans; eassumption.
Qed.

Lemma extends_WriteString (s : string) (c : converter) : extends c (WriteString s c).
Proof. repeat split; [exists s; reflexivity | reflexivity]. Qed.

Lemma extends_set_listState (ls : listTracker) (c : converter) :
  extends c (set_listState ls c).
Proof. repeat split; [apply starts_with_refl | reflexivity]. Qed.

Lemma extends_renderInlineObject (elem : InlineObjectElement) (c : converter) :
  extends c (renderInlineObject elem c).2.
Proof.
  destruct (renderInlineObject_cases elem c) as [-> | (uri & alt & ->)];
    [apply extends_refl|].
  repeat split; [apply starts_with_refl | apply prefix_app_r; reflexivity].
Qed.

Lemma extends_renderParagraphElement (elem : ParagraphElement) (c : converter) :
  extends c (renderParagraphElement elem c).2.
Proof.
  unfold renderParagraphElement.
  destruct (PE_TextRun elem); [apply extends_refl|].
  destruct (PE_InlineObjectElement elem); [apply extends_renderInlineObject|].
  destruct (PE_HorizontalRule elem); apply extends_refl.
Qed.

Lemma extends_renderParagraphElements (elements : list ParagraphElement)
    (c : converter) :
  extends c (renderParagraphElements elements c).2.
Proof.
  revert c. induction elements as [|elem rest IH]; intros c; cbn.
  - apply extends_refl.
  - pose proof (extends_renderParagraphElement elem c) as H1.
    destruct (renderParagraphElement elem c) as [s c1].
    pose proof (IH c1) as H2.
    destruct (renderParagraphElements rest c1) as [s' c2].
    eapply extends_trans; eassumption.
Qed.

Lemma extends_cell_text (content : list StructuralElement) (c : converter) :
  extends c (cell_text content c).2.
Proof.
  revert c. induction content as [|elem rest IH]; intros c; cbn.
  - apply extends_refl.
  - destruct (SE_Paragraph elem) as [p|]; [|apply IH].
    pose proof (extends_renderParagraphElements (Elements p) c) as H1.
    destruct (renderParagraphElements (Elements p) c) as [text c1].
    pose proof (IH c1) as H2.
    destruct (cell_text rest c1) as [more c2].
    eapply extends_trans; eassumption.
Qed.

Lemma extends_row_cells (cells : list TableCell) (c : converter) :
  extends c (row_cells cells c).2.
Proof.
  revert c. induction cells as [|cell rest IH]; intros c; cbn.
  - apply extends_refl.
  - pose proof (extends_cell_text (TableCell_Content cell) c) as H1.
    destruct (cell_text (TableCell_Content cell) c) as [text c1].
    pose proof (IH c1) as H2.
    destruct (row_cells rest c1) as [more c2].
    eapply extends_trans; eassumption.
Qed.

Lemma extends_table_rows (rows : list TableRow) (c : converter) :
  extends c (table_rows rows c).2.
Proof.
  revert c. induction rows as [|row rest IH]; intros c; cbn.
  - apply extends_refl.
  - pose proof (extends_row_cells (TableCells row) c) as H1.
    destruct (row_cells (TableCells row) c) as [cells c1].
    pose proof (IH c1) as H2.
    destruct (table_rows rest c1) as [more c2].
    eapply extends_trans; eassumption.
Qed.

Lemma extends_convertTable (table : option Table) (c : converter) :
  extends c (convertTable table c).
Proof.
  unfold convertTable. destruct table as [t|]; [|apply extends_refl].
  destruct (length (TableRows t) =? 0)%nat; [apply extends_refl|].
  pose proof (extends_table_rows (TableRows t) c) as H1.
  destruct (table_rows (TableRows t) c) as [rows c1]. cbn [snd] in H1.
  destruct (length rows =? 0)%nat; [exact H1|].
  eapply extends_trans; [exact H1 | apply extends_WriteString].
Qed.

Lemma listState_convertTable (table : option Table) (c : converter) :
  listState (convertTable table c) = listState c.
Proof.
  unfold convertTable. destruct table as [t|]; [|reflexivity].
  destruct (length (TableRows t) =? 0)%nat; [reflexivity|].
  pose proof (table_rows_frame (TableRows t) c) as (_ & _ & _ & Hls).
  destruct (table_rows (TableRows t) c) as [rows c1]. cbn [snd] in Hls.
  destruct (length rows =? 0)%nat; exact Hls.
Qed.

Lemma extends_writeHeading (text : string) (level : Z) (c c' : converter) :
  writeHeading text level c = Ok c' -> extends c c'.
Proof.
  unfold writeHeading. destruct (Repeat "#" level); cbn [res_bind]; [|discriminate].
  intros [= <-]. rewrite !WriteString_WriteString. apply extends_WriteString.
Qed.

Lemma extends_handleListItem (p : Paragraph) (headingLevel : Z) (c c' : converter) :
  handleListItem p headingLevel c = Ok c' -> extends c c'.
Proof.
  unfold handleListItem. destruct (Paragraph_Bullet p) as [b|]; [|discriminate].
  cbv zeta. destruct (list_is_ordered _ _ _) as [ordered|]; cbn [res_bind];
    [|discriminate].
  destruct (Repeat "  " _) as [indent|]; cbn [res_bind]; [|discriminate].
  pose proof (extends_renderParagraphElements (Elements p)
                (set_listState (track_item (ListId b) (Bullet_NestingLevel b)
                                  (listState c)) c)) as H1.
  destruct (renderParagraphElements _ _) as [rendered c2]. cbn [snd] in H1.
  intros Hrun.
  assert (Hc2 : extends c c2).
  { eapply extends_trans; [apply extends_set_listState | exact H1]. }
  destruct ordered; injection Hrun as <-;
    (eapply extends_trans; [exact Hc2 | apply extends_WriteString]).
Qed.

Lemma extends_convertParagraph (p : Paragraph) (c c' : converter) :
  convertParagraph p c = Ok c' -> extends c c'.
Proof.
  unfold convertParagraph. cbv zeta.
  destruct (Paragraph_Bullet p) as [b|]; [apply extends_handleListItem|].
  pose proof (extends_renderParagraphElements (Elements p)
                (set_listState listTracker_zero c)) as H1.
  destruct (renderParagraphElements _ _) as [text c2]. cbn [snd] in H1.
  assert (Hc2 : extends c c2).
  { eapply extends_trans; [apply extends_set_listState | exact H1]. }
  destruct (String.eqb (TrimSpace text) "").
  - intros [= <-]. eapply extends_trans; [exact Hc2 | apply extends_WriteString].
  - destruct (0 <? _).
    + intros Hrun. eapply extends_trans; [exact Hc2|].
      eapply extends_writeHeading; exact Hrun.
    + intros [= <-]. rewrite WriteString_WriteString.
      eapply extends_trans; [exact Hc2 | apply extends_WriteString].
Qed.

Lemma extends_convertStructuralElement (elem : StructuralElement) (c c' : converter) :
  convertStructuralElement elem c = Ok c' -> extends c c'.
Proof.
  unfold convertStructuralElement.
  destruct (SE_Paragraph elem) as [p|]; [apply extends_convertParagraph|].
  destruct (SE_Table elem) as [t|].
  - intros Hrun. injection Hrun as <-. exact (extends_convertTable (Some t) c).
  - destruct (SE_SectionBreak elem); [intros [= <-]; apply extends_refl|].
    destruct (SE_TableOfContents elem); intros [= <-]; apply extends_refl.
Qed.

Lemma extends_convertElements (content : list StructuralElement) (c c' : converter) :
  convertElements content c = Ok c' -> extends c c'.
Proof.
  revert c. induction content as [|elem rest IH]; intros c; cbn [convertElements].
  - intros [= <-]. apply extends_refl.
  - destruct (convertStructuralElement elem c) as [c1|] eqn:Hstep; cbn [res_bind];
      [|discriminate].
    intros Hrest. eapply extends_trans; [|apply (IH c1 Hrest)].
    eapply extends_convertStructuralElement; exact Hstep.
Qed.

End ExtendsFacts.

(** X4. Whatever a body is made of, its conversion only appends: the tab
    and its index stay, what the buffer held is the beginning of what it
    holds afterwards, and the images recorded before are the first of the
    images recorded afterwards.  So what has been written is never
    rewritten and an image, once recorded, is never changed or dropped. *)
Theorem conversion_only_appends `{UnicodeTables}
    (content : list StructuralElement) (c c' : converter) :
  convertElements content c = Ok c' ->
  tab c' = tab c /\ tabIndex c' = tabIndex c
  /\ (exists written, buf c' = buf c +:+ written)
  /\ (exists recorded, images c' = images c ++ recorded).
Proof.
  intros Hrun.
  destruct (extends_convertElements content c c' Hrun) as (Htab & Hidx & Hbuf & Himgs).
  split; [exact Htab|]. split; [exact Hidx|]. split; [exact Hbuf | exact Himgs].
Qed.

Lemma conversion_only_appends_witness :
  exists c' : converter,
    @convertElements sample_tables [list_item 0 "L" "a"; table_element sample_table]
      (WriteString "before" (new_converter sample_list_tab 0)) = Ok c'
    /\ exists written, buf c' = "before" +:+ written.
Proof.
  destruct (@convertElements sample_tables [list_item 0 "L" "a"; table_element sample_table]
              (WriteString "before" (new_converter sample_list_tab 0))) as [c'|msg] eqn:Hrun;
    [|vm_compute in Hrun; discriminate].
  exists c'. split; [reflexivity|].
  exact (proj1 (proj2 (proj2 (@conversion_only_appends sample_tables _ _ c' Hrun)))).
Defined.

(** X5. The Markdown of a tab begins with the title as a heading of level
    1, the title trimmed, and a blank line; for a tab without document
    tab, or without body, this heading is all of the Markdown and there
    is no image. *)
Theorem tab_markdown_begins_with_title `{UnicodeTables}
    (t : Tab) (tabTitle : string) (index : Z) :
  (forall r, ConvertTab t tabTitle index = Ok r ->
             exists rest, Markdown r
                          = "# " +:+ TrimSpace tabTitle +:+ newline +:+ newline +:+ rest)
  /\ (Tab_DocumentTab t = None
      \/ (exists dt, Tab_DocumentTab t = Some dt /\ DocumentTab_Body dt = None) ->
      ConvertTab t tabTitle index
      = Ok {| Markdown := "# " +:+ TrimSpace tabTitle +:+ newline +:+ newline;
              Images := [] |}).
Proof.
  assert (Hhead : writeHeading tabTitle 1 (new_converter t index)
                  = Ok (WriteString ("# " +:+ TrimSpace tabTitle +:+ newline +:+ newline)
                          (new_converter t index))).
  { rewrite writeHeading_ok by (unfold maxInt; lia). reflexivity. }
  split.
  - intros r. unfold ConvertTab. cbv zeta.
    change {| tab := t; tabIndex := index; buf := ""; images := [];
              imageCount := 0; listState := listTracker_zero |}
      with (new_converter t index).
    rewrite Hhead. cbn [res_bind].
    destruct (Tab_DocumentTab t) as [dt|].
    + unfold convertBody. destruct (DocumentTab_Body dt) as [body|].
      * destruct (convertElements _ _) as [c2|] eqn:Hrun; cbn [res_bind]; [|discriminate].
        intros [= <-]. cbn [Markdown].
        destruct (extends_convertElements _ _ _ Hrun) as (_ & _ & [rest Hbuf] & _).
        exists rest. rewrite Hbuf. cbn [WriteString buf new_converter].
        rewrite !append_assoc. reflexivity.
      * cbn [res_bind]. intros [= <-]. exists "". cbn [Markdown WriteString buf new_converter].
        rewrite ?append_assoc, ?append_nil_r. reflexivity.
    + cbn [res_bind]. intros [= <-]. exists "". cbn [Markdown WriteString buf new_converter].
      rewrite ?append_assoc, ?append_nil_r. reflexivity.
  - intros Hnone. unfold ConvertTab. cbv zeta.
    change {| tab := t; tabIndex := index; buf := ""; images := [];
              imageCount := 0; listState := listTracker_zero |}
      with (new_converter t index).
    rewrite Hhead. cbn [res_bind].
    destruct Hnone as [-> | (dt & -> & Hbody)]; [reflexivity|].
    unfold convertBody. rewrite Hbody. reflexivity.
Qed.

Lemma tab_markdown_begins_with_title_witness :
  @ConvertTab sample_tables (leaf_tab None) "  Notes " 4
  = Ok {| Markdown := "# Notes" +:+ newline +:+ newline; Images := [] |}.
Proof.
  exact (proj2 (@tab_markdown_begins_with_title sample_tables (leaf_tab None) "  Notes " 4)
           (or_introl eq_refl)).
Defined.

(** X6. A table leaves the list tracker alone: unlike a paragraph without
    bullet, a table between two items of a list does not restart the
    numbering.  Its conversion only appends to the buffer and to the
    images. *)
Theorem table_keeps_list_state `{UnicodeTables} (table : option Table) (c : converter) :
  listState (convertTable table c) = listState c
  /\ tab (convertTable table c) = tab c
  /\ tabIndex (convertTable table c) = tabIndex c
  /\ (exists written, buf (convertTable table c) = buf c +:+ written)
  /\ (exists recorded, images (convertTable table c) = images c ++ recorded).
Proof.
  split; [apply listState_convertTable|].
  destruct (extends_convertTable table c) as (Htab & Hidx & Hbuf & Himgs).
  split; [exact Htab|]. split; [exact Hidx|]. split; [exact Hbuf | exact Himgs].
Qed.

(** ** Paragraphs, lists and table lines *)

Section ParagraphFacts.

Context `{UnicodeTables}.

Lemma headingLevelFromStyle_other (name : string) :
  ~ In name heading_names -> headingLevelFromStyle name = 0.
Proof.
  unfold heading_names, heading_styles, headingLevelFromStyle.
  cbn [fmap list_fmap fst In]. intros Hnot.
  repeat (match goal with
          | |- context [String.eqb name ?s] =>
              destruct (String.eqb_spec name s) as [-> | _]; [exfalso; tauto|]
          end).
  reflexivity.
Qed.

Lemma track_item_fresh (id : string) (lvl : Z) :
  track_item id lvl listTracker_zero
  = {| listID := id; nestingLevel := lvl; itemCounts := Some {[ lvl := 1 ]} |}.
Proof.
  destruct (String.eqb_spec "" id) as [<- | Hne].
  - unfold track_item, listTracker_zero. cbn [listID itemCounts nestingLevel negb String.eqb].
    destruct (lvl <? 0).
    + rewrite map_filter_empty, count_at_empty. reflexivity.
    + rewrite count_at_empty. reflexivity.
  - apply track_item_other_list. exact Hne.
Qed.

(** A paragraph without bullet never panics and leaves the zero tracker. *)
Lemma convertParagraph_no_bullet_ok (p : Paragraph) (c : converter) :
  Paragraph_Bullet p = None ->
  exists c', convertParagraph p c = Ok c' /\ listState c' = listTracker_zero.
Proof.
  intros Hbullet. rewrite (convertParagraph_no_bullet p c Hbullet). cbv zeta.
  pose proof (renderParagraphElements_frame (Elements p)
                (set_listState listTracker_zero c)) as (_ & _ & _ & Hls).
  destruct (renderParagraphElements _ _) as [text c2]. cbn [fst snd] in *.
  cbn [set_listState listState] in Hls.
  destruct (String.eqb (TrimSpace text) ""); [eexists; split; [reflexivity | exact Hls]|].
  destruct (0 <? _).
  - rewrite writeHeading_ok.
    + eexists. split; [reflexivity | exact Hls].
    + pose proof (headingLevelFromStyle_range
                    match Paragraph_ParagraphStyle p with
                    | Some style => NamedStyleType style
                    | None => ""
                    end). unfold maxInt. lia.
  - eexists. split; [reflexivity | exact Hls].
Qed.

Lemma count_byte_append (a : ascii) (s t : string) :
  count_byte a (s +:+ t) = (count_byte a s + count_byte a t)%nat.
Proof.
  induction s as [|b s IH]; [reflexivity|].
  rewrite append_cons. cbn [count_byte]. rewrite IH. lia.
Qed.

Lemma escape_cell_no_newline (cellText : string) :
  count_byte (byte 10) (escape_cell cellText) = 0%nat.
Proof.
  rewrite escape_cell_bytewise.
  induction cellText as [|a s IH]; [reflexivity|].
  cbn [bytewise]. rewrite count_byte_append, IH. unfold escape_byte.
  destruct (Ascii.eqb a (byte 124)); [reflexivity|].
  destruct (Ascii.eqb a (byte 10)) eqn:Ha; [reflexivity|].
  cbn [count_byte]. rewrite Ha. reflexivity.
Qed.

Lemma row_cells_no_newline (cells : list TableCell) (c : converter) :
  Forall (fun s => count_byte (byte 10) s = 0%nat) (row_cells cells c).1.
Proof.
  revert c. induction cells as [|cell rest IH]; intros c; cbn; [constructor|].
  destruct (cell_text (TableCell_Content cell) c) as [text c1].
  specialize (IH c1). destruct (row_cells rest c1) as [more c2]. cbn [fst] in *.
  constructor; [apply escape_cell_no_newline | exact IH].
Qed.

Lemma table_rows_no_newline (rows : list TableRow) (c : converter) :
  Forall (Forall (fun s => count_byte (byte 10) s = 0%nat)) (table_rows rows c).1
  /\ length (table_rows rows c).1 = length rows.
Proof.
  revert c. induction rows as [|row rest IH]; intros c; cbn; [split; [constructor | reflexivity]|].
  pose proof (row_cells_no_newline (TableCells row) c) as Hrow.
  destruct (row_cells (TableCells row) c) as [cells c1].
  destruct (IH c1) as [Hrest Hlen]. destruct (table_rows rest c1) as [more c2].
  cbn [fst length] in *. split; [constructor; assumption | congruence].
Qed.

Lemma Join_no_newline (row : list string) :
  Forall (fun s => count_byte (byte 10) s = 0%nat) row ->
  count_byte (byte 10) (Join row " | ") = 0%nat.
Proof.
  induction 1 as [|s rest Hs Hrest IH]; [reflexivity|].
  destruct rest as [|s' rest']; [exact Hs|].
  change (Join (s :: s' :: rest') " | ") with (s +:+ " | " +:+ Join (s' :: rest') " | ").
  rewrite !count_byte_append, Hs, IH. reflexivity.
Qed.

Lemma table_line_one_newline (row : list string) :
  Forall (fun s => count_byte (byte 10) s = 0%nat) row ->
  count_byte (byte 10) (table_line row) = 1%nat.
Proof.
  intros Hrow. unfold table_line.
  rewrite !count_byte_append, (Join_no_newline row Hrow). reflexivity.
Qed.

Lemma data_lines_newlines (n : nat) (rows : list (list string)) :
  Forall (Forall (fun s => count_byte (byte 10) s = 0%nat)) rows ->
  count_byte (byte 10) (data_lines n rows) = length rows.
Proof.
  induction 1 as [|row rest Hrow _ IH]; [reflexivity|].
  cbn [data_lines length]. rewrite count_byte_append, IH, table_line_one_newline;
    [reflexivity|].
  rewrite pad_row_spec. apply Forall_app. split; [exact Hrow|].
  apply Forall_replicate. reflexivity.
Qed.

End ParagraphFacts.

(** X7. A paragraph without bullet never fails and ends the list: it
    leaves the tracker without list, so that the next list item, of
    whatever list and at whatever valid level, is counted as the first of
    its level. *)
Theorem paragraph_without_bullet_ends_list `{UnicodeTables}
    (p : Paragraph) (c : converter) :
  Paragraph_Bullet p = None ->
  exists c' : converter,
    convertParagraph p c = Ok c'
    /\ listState c' = listTracker_zero
    /\ forall (q : Paragraph) (b : Bullet),
         Paragraph_Bullet q = Some b ->
         valid_nesting_level (Bullet_NestingLevel b) ->
         exists c'' : converter,
           convertParagraph q c' = Ok c''
           /\ listState c''
              = {| listID := ListId b;
                   nestingLevel := Bullet_NestingLevel b;
                   itemCounts := Some {[ Bullet_NestingLevel b := 1 ]} |}.
Proof.
  intros Hbullet.
  destruct (convertParagraph_no_bullet_ok p c Hbullet) as (c' & Hrun & Hls).
  exists c'. split; [exact Hrun|]. split; [exact Hls|].
  intros q b Hq Hvalid. unfold convertParagraph. rewrite Hq.
  destruct (handleListItem_ok q b
              (headingLevelFromStyle
                 match Paragraph_ParagraphStyle q with
                 | Some style => NamedStyleType style
                 | None => ""
                 end) c' Hq Hvalid) as (ordered & _ & Hitem).
  cbv zeta in Hitem. rewrite Hitem. eexists. split; [reflexivity|].
  pose proof (renderParagraphElements_frame (Elements q)
                (set_listState (track_item (ListId b) (Bullet_NestingLevel b)
                                  (listState c')) c')) as (_ & _ & _ & Hframe).
  cbn [WriteString listState]. rewrite Hframe. cbn [set_listState listState].
  rewrite Hls. apply track_item_fresh.
Qed.

Lemma paragraph_without_bullet_ends_list_witness :
  exists c' : converter,
    @convertParagraph sample_tables
      (paragraph None None [text_element "between" (Some plain_style)])
      (set_listState {| listID := "L"; nestingLevel := 0;
                        itemCounts := Some {[ 0 := 7 ]} |}
                     (new_converter sample_list_tab 0))
    = Ok c'
    /\ listState c' = listTracker_zero.
Proof.
  destruct (@paragraph_without_bullet_ends_list sample_tables
              (paragraph None None [text_element "between" (Some plain_style)])
              (set_listState {| listID := "L"; nestingLevel := 0;
                                itemCounts := Some {[ 0 := 7 ]} |}
                             (new_converter sample_list_tab 0))
              eq_refl) as (c' & Hrun & Hls & _).
  exists c'. split; [exact Hrun | exact Hls].
Defined.

(** X8. A paragraph without bullet whose named style is none of the
    heading styles (or that has no style) and whose rendered text is not
    blank is written as that text without its trailing newlines, followed
    by a blank line; leading white space is kept. *)
Theorem plain_paragraph_is_text_and_blank_line `{UnicodeTables}
    (p : Paragraph) (c : converter) :
  Paragraph_Bullet p = None ->
  ~ In (match Paragraph_ParagraphStyle p with
        | Some style => NamedStyleType style
        | None => ""
        end) heading_names ->
  let r := renderParagraphElements (Elements p) (set_listState listTracker_zero c) in
  TrimSpace r.1 <> "" ->
  written (convertParagraph p c)
  = Ok (buf c +:+ TrimRight r.1 newline +:+ newline +:+ newline).
Proof.
  intros Hbullet Hstyle r Htext.
  rewrite (convertParagraph_no_bullet p c Hbullet). cbv zeta. fold r.
  rewrite (headingLevelFromStyle_other _ Hstyle).
  apply String.eqb_neq in Htext. rewrite Htext.
  change (0 <? 0) with false. cbn [written res_bind WriteString buf].
  pose proof (renderParagraphElements_frame (Elements p)
                (set_listState listTracker_zero c)) as (_ & _ & Hbuf & _).
  fold r in Hbuf. rewrite Hbuf. reflexivity.
Qed.

Lemma plain_paragraph_is_text_and_blank_line_witness :
  @written (@convertParagraph sample_tables
              (paragraph (Some "NORMAL_TEXT") None
                 [text_element ("  indented" +:+ newline) (Some plain_style)])
              (new_converter (leaf_tab None) 0))
  = Ok ("  indented" +:+ newline +:+ newline).
Proof.
  refine (@plain_paragraph_is_text_and_blank_line sample_tables
            (paragraph (Some "NORMAL_TEXT") None
               [text_element ("  indented" +:+ newline) (Some plain_style)])
            (new_converter (leaf_tab None) 0) eq_refl _ _).
  - vm_compute. intros Hin. decompose [or] Hin; discriminate || assumption.
  - vm_compute. discriminate.
Defined.



(** X10. The Markdown of a table with rows has one line for each row, one
    for the separator and an empty line at its end: the newlines of the
    cells having been replaced, it has exactly as many newlines as the
    table has rows, and two more. *)
Theorem table_has_one_line_for_each_row `{UnicodeTables} (t : Table) (c : converter) :
  TableRows t <> [] ->
  exists markdown : string,
    buf (convertTable (Some t) c) = buf c +:+ markdown
    /\ count_byte (byte 10) markdown = (length (TableRows t) + 2)%nat.
Proof.
  intros Hrows. exists (table_markdown (table_rows (TableRows t) c).1).
  split; [apply convertTable_buf|].
  destruct (table_rows_no_newline (TableRows t) c) as [Hfree Hlen].
  destruct (table_rows (TableRows t) c).1 as [|header data].
  - destruct (TableRows t); [congruence | discriminate].
  - rewrite <- Hlen. cbn [table_markdown length].
    apply Forall_cons in Hfree as [Hheader Hdata].
    rewrite !count_byte_append, (table_line_one_newline header Hheader),
      (data_lines_newlines _ data Hdata), table_line_one_newline.
    + cbn [count_byte newline bytes]. rewrite Ascii.eqb_refl. lia.
    + apply Forall_replicate. reflexivity.
Qed.

Lemma table_has_one_line_for_each_row_witness :
  exists markdown : string,
    buf (@convertTable sample_tables (Some sample_table) (new_converter (leaf_tab None) 0))
    = "" +:+ markdown
    /\ count_byte (byte 10) markdown = 5%nat.
Proof.
  assert (Hrows : TableRows sample_table <> []) by discriminate.
  exact (@table_has_one_line_for_each_row sample_tables sample_table
           (new_converter (leaf_tab None) 0) Hrows).
Defined.

(** ** Tabs and file names *)

Section TabFacts.

Lemma tab_count_unfold (t : Tab) : tab_count t = S (forest_count (ChildTabs t)).
Proof. destruct t as [children dt props]. reflexivity. Qed.

(** A property of forests that holds for the children of every tab of a
    forest whenever it holds for the forest holds for all forests. *)
Lemma forest_ind (P : list Tab -> Prop) :
  (forall tabs, Forall (fun tab => P (ChildTabs tab)) tabs -> P tabs) ->
  forall tabs, P tabs.
Proof.
  intros Hstep tabs. apply Hstep. apply Forall_forall. intros tab _. revert tab.
  apply (Tab_nested_ind (fun tab => P (ChildTabs tab))).
  intros children dt props Hall. cbn [ChildTabs]. apply Hstep. exact Hall.
Qed.

Lemma flattenTabs_in_forest (tabs : list Tab) (t : Tab) :
  In t (flattenTabs tabs) <-> in_forest t tabs.
Proof.
  split.
  - revert t. pattern tabs. apply forest_ind. clear tabs.
    intros tabs Hall. induction Hall as [|tab rest Htab _ IH]; intros t Hin.
    + destruct Hin.
    + rewrite flattenTabs_cons in Hin.
      destruct Hin as [<- | Hin]; [constructor|].
      apply in_app_or in Hin as [Hin | Hin].
      * apply in_forest_child, Htab, Hin.
      * apply in_forest_later, IH, Hin.
  - induction 1 as [rest | tab rest _ IH | tab rest _ IH];
      rewrite flattenTabs_cons.
    + left. reflexivity.
    + right. apply in_or_app. left. exact IH.
    + right. apply in_or_app. right. exact IH.
Qed.

Lemma flattenTabs_count (tabs : list Tab) :
  length (flattenTabs tabs) = forest_count tabs.
Proof.
  pattern tabs. apply forest_ind. clear tabs.
  intros tabs Hall. induction Hall as [|tab rest Htab _ IH]; [reflexivity|].
  rewrite flattenTabs_cons. cbn [length forest_count].
  rewrite length_app, Htab, IH, tab_count_unfold. reflexivity.
Qed.

Lemma all_bytes_rev (P : ascii -> bool) (s : string) :
  all_bytes P (String.rev s) = all_bytes P s.
Proof.
  induction s as [|a s IH]; [reflexivity|].
  rewrite rev_cons, all_bytes_append, IH. cbn [all_bytes].
  rewrite andb_true_r. apply andb_comm.
Qed.

(** Trimming leaves an end of the string. *)
Lemma all_bytes_trim_space_run (P : ascii -> bool) (backwards : bool) (s : string) :
  all_bytes P s = true -> all_bytes P (trim_space_run backwards s) = true.
Proof.
  remember (String.length s) as n eqn:Hn. revert s Hn.
  induction n as [n IH] using lt_wf_ind. intros s -> Hs.
  destruct s as [|a s1]; [reflexivity|].
  cbn [all_bytes] in Hs. apply andb_true_iff in Hs as [Ha Hs1].
  cbn [trim_space_run].
  destruct (asciiSpace a).
  { apply (IH (String.length s1)); [cbn; lia | reflexivity | exact Hs1]. }
  destruct s1 as [|b s2]; [cbn [all_bytes]; rewrite Ha; reflexivity|].
  cbn [all_bytes] in Hs1. apply andb_true_iff in Hs1 as [Hb Hs2].
  destruct (if backwards then space2 b a else space2 a b).
  { apply (IH (String.length s2)); [cbn; lia | reflexivity | exact Hs2]. }
  destruct s2 as [|c s3]; [cbn [all_bytes]; rewrite Ha, Hb; reflexivity|].
  cbn [all_bytes] in Hs2. apply andb_true_iff in Hs2 as [Hc Hs3].
  destruct (if backwards then space3 c b a else space3 a b c).
  { apply (IH (String.length s3)); [cbn; lia | reflexivity | exact Hs3]. }
  cbn [all_bytes]. rewrite Ha, Hb, Hc, Hs3. reflexivity.
Qed.

Lemma all_bytes_TrimSpace (P : ascii -> bool) (s : string) :
  all_bytes P s = true -> all_bytes P (TrimSpace s) = true.
Proof.
  intros Hs. unfold TrimSpace.
  rewrite all_bytes_rev. apply all_bytes_trim_space_run.
  rewrite all_bytes_rev. apply all_bytes_trim_space_run. exact Hs.
Qed.

Lemma replace_byte_clean (a : ascii) :
  all_bytes (fun b => negb (is_hostile b)) (replace_byte replacer_pairs a) = true.
Proof. destruct a as [[] [] [] [] [] [] [] []]; reflexivity. Qed.

Lemma replacer_Replace_clean (s : string) :
  all_bytes (fun b => negb (is_hostile b)) (replacer_Replace replacer_pairs s) = true.
Proof.
  induction s as [|a s IH]; [reflexivity|].
  cbn [replacer_Replace]. rewrite all_bytes_append, replace_byte_clean, IH.
  reflexivity.
Qed.

End TabFacts.

(** X11. Flattening neither loses nor invents a tab: a tab is in the
    result exactly when it is one of the tabs of the tree (a root or below
    a root), and the result has as many entries as the tree has tabs. *)
Theorem flatten_has_exactly_the_tabs_of_the_tree (tabs : list Tab) :
  (forall t : Tab, In t (flattenTabs tabs) <-> in_forest t tabs)
  /\ length (flattenTabs tabs) = forest_count tabs.
Proof.
  split; [intros t; apply flattenTabs_in_forest | apply flattenTabs_count].
Qed.

Lemma flatten_has_exactly_the_tabs_of_the_tree_witness :
  in_forest (titled_tab "d" []) sample_tree
  /\ In (titled_tab "d" []) (flattenTabs sample_tree).
Proof.
  assert (H : in_forest (titled_tab "d" []) sample_tree).
  { apply in_forest_here || (apply in_forest_child; cbn [ChildTabs titled_tab]).
    apply in_forest_later. apply in_forest_here. }
  split; [exact H|].
  exact (proj2 (proj1 (flatten_has_exactly_the_tabs_of_the_tree sample_tree) _) H).
Defined.

(** X12. Tabs without children are their own flattening, so that
    flattening the result of a flattening whose tabs are taken without
    their children changes nothing. *)
Theorem flatten_of_childless_tabs_is_identity (tabs : list Tab) :
  Forall (fun t => ChildTabs t = []) tabs -> flattenTabs tabs = tabs.
Proof.
  induction 1 as [|tab rest Htab _ IH]; [reflexivity|].
  rewrite flattenTabs_cons, Htab, IH. reflexivity.
Qed.

Lemma flatten_of_childless_tabs_is_identity_witness :
  flattenTabs [titled_tab "a" []; titled_tab "b" []]
  = [titled_tab "a" []; titled_tab "b" []].
Proof.
  apply flatten_of_childless_tabs_is_identity.
  repeat constructor.
Defined.

(** X13. The title of a tab is never empty, and the file name made of a
    title is never empty and has none of the bytes that [sanitizeFilename]
    replaces or removes (slash, backslash, colon, star, question mark,
    double quote, angle brackets, pipe) in it, whatever the title: in
    particular it has no path separator. *)
Theorem sanitized_name_is_clean (t : Tab) (name : string) :
  tabTitle t <> ""
  /\ sanitizeFilename name <> ""
  /\ all_bytes (fun a => negb (is_hostile a)) (sanitizeFilename name) = true
  /\ all_bytes (fun a => negb (is_hostile a)) (sanitizeFilename name +:+ ".md") = true.
Proof.
  assert (Hclean : all_bytes (fun a => negb (is_hostile a)) (sanitizeFilename name) = true).
  { unfold sanitizeFilename. cbv zeta.
    destruct (String.eqb _ ""); [reflexivity|].
    apply all_bytes_TrimSpace, replacer_Replace_clean. }
  split; [|split; [|split]].
  - unfold tabTitle. destruct (Tab_TabProperties t) as [props|]; [|discriminate].
    destruct (String.eqb_spec (TabProperties_Title props) "") as [|Hne]; cbn [negb];
      [discriminate | exact Hne].
  - unfold sanitizeFilename. cbv zeta.
    destruct (String.eqb_spec (TrimSpace (replacer_Replace replacer_pairs name)) "")
      as [|Hne]; [discriminate | exact Hne].
  - exact Hclean.
  - rewrite all_bytes_append, Hclean. reflexivity.
Qed.

(** ** The orchestrator *)

Section OrchestratorFacts.

Context `{UnicodeTables}.

Lemma run_tasks_length (tabs : list Tab) (sched : list nat) (rs rs' : list tabResult) :
  run_tasks tabs sched rs = Ok rs' -> length rs' = length rs.
Proof.
  revert rs. induction sched as [|j rest IH]; intros rs; cbn [run_tasks].
  - intros [= <-]. reflexivity.
  - rewrite convert_task_value.
    destruct (task_value tabs j) as [[v|msg]|]; cbn [res_bind]; [|discriminate|apply IH].
    intros Hrun. rewrite (IH _ Hrun). apply length_insert.
Qed.

(** A task that runs leaves its value in its slot, whatever runs later. *)
Lemma run_tasks_filled (tabs : list Tab) (sched : list nat) (rs rs' : list tabResult)
    (i : nat) (t : Tab) :
  run_tasks tabs sched rs = Ok rs' ->
  i ∈ sched -> (i < length rs)%nat -> tabs !! i = Some t ->
  exists v, task_value tabs i = Some (Ok v) /\ rs' !! i = Some v.
Proof.
  revert rs. induction sched as [|j rest IH]; intros rs Hrun Hin Hlt Ht.
  - apply elem_of_nil in Hin. destruct Hin.
  - cbn [run_tasks] in Hrun. rewrite convert_task_value in Hrun.
    destruct (decide (i ∈ rest)) as [Hrest | Hnot].
    + destruct (task_value tabs j) as [[v|msg]|]; cbn [res_bind] in Hrun;
        [|discriminate|].
      * apply (IH _ Hrun Hrest); [rewrite length_insert; exact Hlt | exact Ht].
      * apply (IH _ Hrun Hrest); assumption.
    + apply elem_of_cons in Hin as [-> | Hin]; [|contradiction].
      assert (Hval : exists r, task_value tabs j = Some r).
      { unfold task_value. rewrite Ht. cbn. eauto. }
      destruct Hval as [[v|msg] Hval]; rewrite Hval in Hrun; cbn [res_bind] in Hrun;
        [|discriminate].
      exists v. split; [exact Hval|].
      assert (Hkeep : forall sched rs rs', run_tasks tabs sched rs = Ok rs' ->
                        j ∉ sched -> rs' !! j = rs !! j).
      { clear. intros sched. induction sched as [|k rest IH]; intros rs rs';
          cbn [run_tasks].
        - intros [= <-] _. reflexivity.
        - rewrite convert_task_value. intros Hrun Hnot.
          apply not_elem_of_cons in Hnot as [Hne Hnot].
          destruct (task_value tabs k) as [[v|msg]|]; cbn [res_bind] in Hrun;
            [|discriminate|exact (IH _ _ Hrun Hnot)].
          rewrite (IH _ _ Hrun Hnot). apply list_lookup_insert_ne. congruence. }
      rewrite (Hkeep _ _ _ Hrun Hnot). apply list_lookup_insert_eq. exact Hlt.
Qed.

Lemma written_files_app (a b : list Event) :
  written_files (a ++ b) = written_files a ++ written_files b.
Proof. apply flat_map_app. Qed.

Lemma downloads_app (a b : list Event) :
  downloads (a ++ b) = downloads a ++ downloads b.
Proof. apply flat_map_app. Qed.

Lemma made_directories_app (a b : list Event) :
  made_directories (a ++ b) = made_directories a ++ made_directories b.
Proof. apply flat_map_app. Qed.

Lemma actions_app (a b : list Event) : actions (a ++ b) = actions a ++ actions b.
Proof. apply List.filter_app. Qed.

(** Messages write, download and make nothing. *)
Lemma messages_only {A : Type} (f : A -> string) (l : list A) :
  written_files (map (fun x => Printf (f x)) l) = []
  /\ downloads (map (fun x => Printf (f x)) l) = []
  /\ made_directories (map (fun x => Printf (f x)) l) = []
  /\ actions (map (fun x => Printf (f x)) l) = [].
Proof. induction l as [|x l (H1 & H2 & H3 & H4)]; cbn; auto. Qed.

Lemma started_downloads (w : World) (imgs : list imageDownload) :
  let started := map (fun img => Download (ContentURI (ref img))
                        (filepath_Join w (imagesDir img) (Filename (ref img)))) imgs in
  written_files started = []
  /\ made_directories started = []
  /\ downloads started = map (image_download w) imgs
  /\ actions started = map (download_event w) imgs.
Proof.
  cbv zeta. induction imgs as [|img imgs (H1 & H2 & H3 & H4)]; [cbn; auto|].
  cbn [map length replicate]. repeat split.
  - exact H1.
  - exact H2.
  - cbn [downloads flat_map app]. f_equal. exact H3.
  - cbn [actions List.filter is_action]. f_equal. exact H4.
Qed.

Lemma downloadImages_trace (w : World) (imgs : list imageDownload) :
  written_files (downloadImages w imgs) = []
  /\ made_directories (downloadImages w imgs) = []
  /\ downloads (downloadImages w imgs) = map (image_download w) imgs
  /\ actions (downloadImages w imgs) = map (download_event w) imgs.
Proof.
  unfold downloadImages. cbv zeta.
  rewrite written_files_app, made_directories_app, downloads_app, actions_app.
  destruct (started_downloads w imgs) as (-> & -> & -> & ->).
  destruct (0 <? length (flat_map (download_warning w) imgs))%nat.
  - destruct (messages_only (fun wn => "  - " +:+ wn +:+ newline)
                (flat_map (download_warning w) imgs)) as (H1 & H2 & H3 & H4).
    change (written_files (Printf ?m :: ?l)) with (written_files l).
    change (made_directories (Printf ?m :: ?l)) with (made_directories l).
    change (downloads (Printf ?m :: ?l)) with (downloads l).
    change (actions (Printf ?m :: ?l)) with (actions l).
    rewrite H1, H2, H3, H4, !app_nil_r. auto.
  - cbn. rewrite !app_nil_r. auto.
Qed.

(** The writes of the Markdown files: those of the first [n] results,
    all of them when no write fails. *)
Lemma writeFiles_trace (w : World) (outputDir : string) (results : list tabResult) :
  exists n : nat,
    (n <= length results)%nat
    /\ written_files (writeFiles w outputDir results).1
       = map (tab_file w outputDir) (take n results)
    /\ downloads (writeFiles w outputDir results).1 = []
    /\ made_directories (writeFiles w outputDir results).1 = []
    /\ actions (writeFiles w outputDir results).1
       = map (tab_write w outputDir) (take n results)
    /\ ((writeFiles w outputDir results).2 = None -> n = length results).
Proof.
  induction results as [|r rest (n & Hn & Hw & Hd & Hm & Hs & Hall)].
  - exists 0%nat. cbn. repeat split; auto.
  - cbn [writeFiles].
    destruct (os_WriteFile w (filepath_Join w outputDir (filename r))
                (Markdown (result r))) as [err|].
    + exists 1%nat. cbn. repeat split; try lia; try reflexivity. discriminate.
    + destruct (writeFiles w outputDir rest) as [evs e]. cbn [fst snd] in *.
      exists (S n). cbn [length take map replicate].
      repeat split.
      * lia.
      * cbn [written_files flat_map app]. fold (written_files evs).
        rewrite Hw. reflexivity.
      * exact Hd.
      * exact Hm.
      * cbn [actions List.filter is_action]. fold (actions evs).
        rewrite Hs. reflexivity.
      * intros He. f_equal. apply Hall, He.
Qed.

(** The first write that fails ends the writes. *)
Lemma writeFiles_failure (w : World) (outputDir : string) (results : list tabResult)
    (k : nat) (r : tabResult) (err : error) :
  results !! k = Some r ->
  (forall j r', (j < k)%nat -> results !! j = Some r' ->
                os_WriteFile w (tab_file w outputDir r').1 (tab_file w outputDir r').2
                = None) ->
  os_WriteFile w (tab_file w outputDir r).1 (tab_file w outputDir r).2 = Some err ->
  (writeFiles w outputDir results).2
  = Some ("failed to write " +:+ (tab_file w outputDir r).1 +:+ ": " +:+ err)
  /\ written_files (writeFiles w outputDir results).1
     = map (tab_file w outputDir) (take (S k) results).
Proof.
  revert k. induction results as [|r0 rest IH]; intros k Hk Hbefore Hfail.
  - rewrite lookup_nil in Hk. discriminate.
  - cbn [writeFiles]. destruct k as [|k].
    + injection Hk as ->. unfold tab_file in Hfail. cbn [fst snd] in Hfail.
      rewrite Hfail. cbn. rewrite take_0. auto.
    + pose proof (Hbefore 0%nat r0 (Nat.lt_0_succ k) eq_refl) as Hok.
      unfold tab_file in Hok. cbn [fst snd] in Hok. rewrite Hok.
      destruct (IH k Hk) as [Herr Hw].
      * intros j r' Hj Hr'. apply (Hbefore (S j) r'); [lia | exact Hr'].
      * exact Hfail.
      * destruct (writeFiles w outputDir rest) as [evs e]. cbn [fst snd] in *.
        split; [exact Herr|].
        cbn [written_files flat_map app]. fold (written_files evs).
        rewrite Hw. reflexivity.
Qed.

Lemma writeFiles_with_downloads (w : World) (outcome : string -> string -> option error)
    (outputDir : string) (results : list tabResult) :
  writeFiles (with_downloads w outcome) outputDir results
  = writeFiles w outputDir results.
Proof.
  induction results as [|r rest IH]; [reflexivity|].
  cbn [writeFiles with_downloads filepath_Join os_WriteFile]. rewrite IH. reflexivity.
Qed.

End OrchestratorFacts.

Section ExportDocFacts.

Context `{UnicodeTables}.

(** [ExportDoc] once the tabs are converted: the events up to the writes,
    then the writes. *)
Lemma ExportDoc_converted (w : World) (sched : list nat) (docID outputDir : string)
    (doc : Document) (results : list tabResult) :
  docs_NewService w = None ->
  Documents_Get w docID = inr doc ->
  Tabs doc <> [] ->
  os_MkdirAll w (filepath_Join w outputDir "images") = None ->
  convertTabs (flattenTabs (Tabs doc)) sched = Ok results ->
  let dir := filepath_Join w outputDir "images" in
  let imgs := collectImages dir results in
  let indexPath := filepath_Join w outputDir "tabs.md" in
  exists pre : list Event,
    made_directories pre = [dir]
    /\ written_files pre = []
    /\ downloads pre = map (image_download w) imgs
    /\ actions pre = MkdirAll dir :: map (download_event w) imgs
    /\ ExportDoc w sched docID outputDir
       = match writeFiles w outputDir results with
         | (evs, Some err) => (pre ++ evs, Ok (Some err))
         | (evs, None) =>
             match os_WriteFile w indexPath (generateIndex results) with
             | Some err =>
                 (pre ++ evs ++ [WriteFile indexPath (generateIndex results)],
                  Ok (Some ("failed to write tabs.md: " +:+ err)))
             | None =>
                 (pre ++ evs ++ [WriteFile indexPath (generateIndex results);
                                 Printf ("  Wrote: " +:+ indexPath +:+ newline);
                                 Printf ("Done!" +:+ newline)],
                  Ok None)
             end
         end.
Proof.
  intros Hsrv Hget Htabs Hmk Hconv dir imgs indexPath.
  unfold ExportDoc. rewrite Hsrv, Hget.
  assert (Hlen : (length (flattenTabs (Tabs doc)) =? 0)%nat = false).
  { apply Nat.eqb_neq. intros Hzero. apply Htabs.
    apply flattenTabs_empty_iff. destruct (flattenTabs (Tabs doc)); [reflexivity | discriminate]. }
  rewrite Hlen. cbv zeta. rewrite Hmk, Hconv. subst dir imgs indexPath.
  set (dir := filepath_Join w outputDir "images").
  set (imgs := collectImages dir results).
  set (indexPath := filepath_Join w outputDir "tabs.md").
  eexists. split; [|split; [|split; [|split]]]; cycle 4.
  - destruct (writeFiles w outputDir results) as [evs [err|]].
    + reflexivity.
    + destruct (os_WriteFile w indexPath (generateIndex results));
        rewrite <- ?app_assoc; reflexivity.
  - rewrite !made_directories_app.
    destruct (messages_only (fun r => "  Converted: " +:+ title r +:+ newline) results)
      as (_ & _ & -> & _).
    destruct (0 <? length imgs)%nat; [|reflexivity].
    change (made_directories (Printf ?m :: ?l)) with (made_directories l).
    destruct (downloadImages_trace w imgs) as (_ & -> & _). reflexivity.
  - rewrite !written_files_app.
    destruct (messages_only (fun r => "  Converted: " +:+ title r +:+ newline) results)
      as (-> & _).
    destruct (0 <? length imgs)%nat; [|reflexivity].
    change (written_files (Printf ?m :: ?l)) with (written_files l).
    destruct (downloadImages_trace w imgs) as (-> & _). reflexivity.
  - rewrite !downloads_app.
    destruct (messages_only (fun r => "  Converted: " +:+ title r +:+ newline) results)
      as (_ & -> & _).
    destruct (Nat.ltb_spec 0 (length imgs)) as [Hpos | Hzero].
    + change (downloads (Printf ?m :: ?l)) with (downloads l).
      destruct (downloadImages_trace w imgs) as (_ & _ & -> & _). reflexivity.
    + destruct imgs; [reflexivity | cbn in Hzero; lia].
  - rewrite !actions_app.
    destruct (messages_only (fun r => "  Converted: " +:+ title r +:+ newline) results)
      as (_ & _ & _ & ->).
    destruct (Nat.ltb_spec 0 (length imgs)) as [Hpos | Hzero].
    + change (actions (Printf ?m :: ?l)) with (actions l).
      destruct (downloadImages_trace w imgs) as (_ & _ & _ & ->). reflexivity.
    + destruct imgs; [reflexivity | cbn in Hzero; lia].
Qed.

End ExportDocFacts.

(** X14. When the scheduler has run the task of every tab, in whatever
    order, the results have one slot for each tab, in the order of the
    tabs, and the slot of a tab holds its title, the file name made of the
    title and the conversion of the tab with its position as index. *)
Theorem complete_schedule_fills_every_slot `{UnicodeTables}
    (tabs : list Tab) (sched : list nat) (results : list tabResult) :
  sched ≡ₚ seq 0 (length tabs) ->
  convertTabs tabs sched = Ok results ->
  length results = length tabs
  /\ forall (i : nat) (t : Tab),
       tabs !! i = Some t ->
       exists res : ConvertResult,
         ConvertTab t (tabTitle t) (Z.of_nat i) = Ok res
         /\ results !! i
            = Some {| title := tabTitle t;
                      filename := sanitizeFilename (tabTitle t) +:+ ".md";
                      result := res |}.
Proof.
  intros Hperm Hrun. unfold convertTabs in Hrun.
  pose proof (run_tasks_length _ _ _ _ Hrun) as Hlen.
  rewrite length_replicate in Hlen. split; [exact Hlen|].
  intros i t Ht.
  destruct (run_tasks_filled tabs sched _ results i t Hrun) as (v & Hval & Hslot).
  - rewrite Hperm. apply elem_of_seq. apply lookup_lt_Some in Ht. lia.
  - rewrite length_replicate. apply lookup_lt_Some in Ht. exact Ht.
  - exact Ht.
  - unfold task_value in Hval. rewrite Ht in Hval. cbn [mbind option_bind] in Hval.
    destruct (ConvertTab t (tabTitle t) (Z.of_nat i)) as [res|]; [|discriminate].
    cbn [res_bind] in Hval. injection Hval as <-.
    exists res. split; [reflexivity | exact Hslot].
Qed.

Lemma complete_schedule_fills_every_slot_witness :
  length sample_results = 2%nat
  /\ title <$> sample_results = ["Untitled"; "Untitled"].
Proof.
  assert (Hperm : [1%nat; 0%nat] ≡ₚ seq 0 (length sample_image_tabs))
    by (apply perm_swap).
  assert (Hrun : @convertTabs sample_tables sample_image_tabs [1%nat; 0%nat]
                 = Ok sample_results) by (vm_compute; reflexivity).
  split.
  - exact (proj1 (@complete_schedule_fills_every_slot sample_tables sample_image_tabs
                    [1%nat; 0%nat] sample_results Hperm Hrun)).
  - vm_compute. reflexivity.
Defined.

(** X15. When the document is fetched, has tabs, the directory is made,
    the tabs are converted and every write succeeds, [ExportDoc] returns
    no error; it makes the images directory and no other, starts one
    download for each collected image, in order, and writes the Markdown
    file of each result, in the order of the results, and then the
    index. *)
Theorem export_writes_every_tab_then_the_index `{UnicodeTables}
    (w : World) (sched : list nat) (docID outputDir : string)
    (doc : Document) (results : list tabResult) :
  docs_NewService w = None ->
  Documents_Get w docID = inr doc ->
  Tabs doc <> [] ->
  os_MkdirAll w (filepath_Join w outputDir "images") = None ->
  convertTabs (flattenTabs (Tabs doc)) sched = Ok results ->
  (forall path data, os_WriteFile w path data = None) ->
  (ExportDoc w sched docID outputDir).2 = Ok None
  /\ made_directories (ExportDoc w sched docID outputDir).1
     = [filepath_Join w outputDir "images"]
  /\ downloads (ExportDoc w sched docID outputDir).1
     = map (image_download w)
           (collectImages (filepath_Join w outputDir "images") results)
  /\ written_files (ExportDoc w sched docID outputDir).1
     = map (tab_file w outputDir) results ++ [index_file w outputDir results].
Proof.
  intros Hsrv Hget Htabs Hmk Hconv Hwrite.
  destruct (ExportDoc_converted w sched docID outputDir doc results
              Hsrv Hget Htabs Hmk Hconv) as (pre & Hm & Hw & Hd & _ & ->).
  destruct (writeFiles_trace w outputDir results) as (n & _ & Hfiles & Hdl & Hdirs & _ & Hall).
  assert (Hnone : (writeFiles w outputDir results).2 = None).
  { clear - Hwrite. induction results as [|r rest IH]; [reflexivity|].
    cbn [writeFiles]. rewrite Hwrite.
    destruct (writeFiles w outputDir rest) as [evs e]. exact IH. }
  specialize (Hall Hnone). subst n. rewrite firstn_all in Hfiles.
  destruct (writeFiles w outputDir results) as [evs e]. cbn [fst snd] in *. subst e.
  rewrite Hwrite. cbn [fst snd]. split; [reflexivity|].
  rewrite !made_directories_app, !downloads_app, !written_files_app.
  rewrite Hm, Hw, Hd, Hfiles, Hdl, Hdirs. cbn. rewrite !app_nil_r. auto.
Qed.

Lemma export_writes_every_tab_then_the_index_witness :
  (@ExportDoc sample_tables (sample_world {| Tabs := sample_image_tabs |})
     [1%nat; 0%nat] "doc" "out").2 = Ok None
  /\ fst <$> written_files
       (@ExportDoc sample_tables (sample_world {| Tabs := sample_image_tabs |})
          [1%nat; 0%nat] "doc" "out").1
     = ["out/Untitled.md"; "out/Untitled.md"; "out/tabs.md"].
Proof.
  assert (Htabs : Tabs {| Tabs := sample_image_tabs |} <> []) by discriminate.
  assert (Hrun : @convertTabs sample_tables
                   (flattenTabs (Tabs {| Tabs := sample_image_tabs |})) [1%nat; 0%nat]
                 = Ok sample_results) by (vm_compute; reflexivity).
  split.
  - exact (proj1 (@export_writes_every_tab_then_the_index sample_tables
                    (sample_world {| Tabs := sample_image_tabs |}) [1%nat; 0%nat]
                    "doc" "out" {| Tabs := sample_image_tabs |} sample_results
                    eq_refl eq_refl Htabs eq_refl Hrun (fun _ _ => eq_refl))).
  - vm_compute. reflexivity.
Defined.

(** X16. The outcomes of the downloads change nothing but messages: with
    other outcomes [ExportDoc] returns the same, makes the same
    directories, starts the same downloads and writes the same files.  A
    failed download never fails the export. *)
Theorem download_outcomes_do_not_matter `{UnicodeTables}
    (w : World) (outcome : string -> string -> option error)
    (sched : list nat) (docID outputDir : string) :
  (ExportDoc (with_downloads w outcome) sched docID outputDir).2
  = (ExportDoc w sched docID outputDir).2
  /\ made_directories (ExportDoc (with_downloads w outcome) sched docID outputDir).1
     = made_directories (ExportDoc w sched docID outputDir).1
  /\ downloads (ExportDoc (with_downloads w outcome) sched docID outputDir).1
     = downloads (ExportDoc w sched docID outputDir).1
  /\ written_files (ExportDoc (with_downloads w outcome) sched docID outputDir).1
     = written_files (ExportDoc w sched docID outputDir).1.
Proof.
  destruct (docs_NewService w) as [err|] eqn:Hsrv.
  { unfold ExportDoc. cbn [with_downloads docs_NewService]. rewrite Hsrv. auto. }
  destruct (Documents_Get w docID) as [err|doc] eqn:Hget.
  { unfold ExportDoc. cbn [with_downloads docs_NewService Documents_Get].
    rewrite Hsrv, Hget. auto. }
  destruct (Tabs doc) as [|t0 ts] eqn:Htabs.
  { unfold ExportDoc. cbn [with_downloads docs_NewService Documents_Get].
    rewrite Hsrv, Hget, Htabs. auto. }
  assert (Hne : Tabs doc <> []) by (rewrite Htabs; discriminate).
  destruct (os_MkdirAll w (filepath_Join w outputDir "images")) as [err|] eqn:Hmk.
  { unfold ExportDoc.
    cbn [with_downloads docs_NewService Documents_Get filepath_Join os_MkdirAll].
    rewrite Hsrv, Hget. destruct (length (flattenTabs (Tabs doc)) =? 0)%nat; [auto|].
    cbv zeta. rewrite Hmk. auto. }
  destruct (convertTabs (flattenTabs (Tabs doc)) sched) as [results|msg] eqn:Hconv.
  - destruct (ExportDoc_converted w sched docID outputDir doc results
                Hsrv Hget Hne Hmk Hconv) as (pre & Hm & Hw & Hd & _ & ->).
    destruct (ExportDoc_converted (with_downloads w outcome) sched docID outputDir doc
                results Hsrv Hget Hne Hmk Hconv) as (pre' & Hm' & Hw' & Hd' & _ & ->).
    rewrite writeFiles_with_downloads.
    cbn [with_downloads filepath_Join os_WriteFile] in *.
    assert (Hsame : map (image_download (with_downloads w outcome))
                      (collectImages (filepath_Join w outputDir "images") results)
                    = map (image_download w)
                        (collectImages (filepath_Join w outputDir "images") results))
      by reflexivity.
    rewrite Hsame in Hd'.
    destruct (writeFiles w outputDir results) as [evs [err|]]; cbn [fst snd].
    + rewrite !made_directories_app, !downloads_app, !written_files_app.
      rewrite Hm, Hw, Hd, Hm', Hw', Hd'. auto.
    + destruct (os_WriteFile w (filepath_Join w outputDir "tabs.md") (generateIndex results));
        cbn [fst snd];
        rewrite !made_directories_app, !downloads_app, !written_files_app;
        rewrite Hm, Hw, Hd, Hm', Hw', Hd'; auto.
  - unfold ExportDoc.
    cbn [with_downloads docs_NewService Documents_Get filepath_Join os_MkdirAll].
    rewrite Hsrv, Hget. destruct (length (flattenTabs (Tabs doc)) =? 0)%nat; [auto|].
    cbv zeta. rewrite Hmk, Hconv. auto.
Qed.

(** X17. The first write of a Markdown file that fails ends the export:
    [ExportDoc] returns the error of that write, the writes it has made
    are those of the results up to and including that one, and neither a
    later file nor the index is written. *)
Theorem failed_write_ends_the_export `{UnicodeTables}
    (w : World) (sched : list nat) (docID outputDir : string)
    (doc : Document) (results : list tabResult)
    (k : nat) (r : tabResult) (err : error) :
  docs_NewService w = None ->
  Documents_Get w docID = inr doc ->
  Tabs doc <> [] ->
  os_MkdirAll w (filepath_Join w outputDir "images") = None ->
  convertTabs (flattenTabs (Tabs doc)) sched = Ok results ->
  results !! k = Some r ->
  (forall j r', (j < k)%nat -> results !! j = Some r' ->
                os_WriteFile w (tab_file w outputDir r').1 (tab_file w outputDir r').2
                = None) ->
  os_WriteFile w (tab_file w outputDir r).1 (tab_file w outputDir r).2 = Some err ->
  (ExportDoc w sched docID outputDir).2
  = Ok (Some ("failed to write " +:+ (tab_file w outputDir r).1 +:+ ": " +:+ err))
  /\ written_files (ExportDoc w sched docID outputDir).1
     = map (tab_file w outputDir) (take (S k) results).
Proof.
  intros Hsrv Hget Htabs Hmk Hconv Hk Hbefore Hfail.
  destruct (ExportDoc_converted w sched docID outputDir doc results
              Hsrv Hget Htabs Hmk Hconv) as (pre & _ & Hw & _ & _ & ->).
  destruct (writeFiles_failure w outputDir results k r err Hk Hbefore Hfail)
    as [Herr Hfiles].
  destruct (writeFiles w outputDir results) as [evs e]. cbn [fst snd] in *. subst e.
  cbn [fst snd]. split; [reflexivity|].
  rewrite written_files_app, Hw, Hfiles. reflexivity.
Qed.

Lemma failed_write_ends_the_export_witness :
  (@ExportDoc sample_tables (full_disk_world {| Tabs := sample_image_tabs |})
     [0%nat; 1%nat] "doc" "out").2
  = Ok (Some "failed to write out/Untitled.md: disk full").
Proof.
  assert (Htabs : Tabs {| Tabs := sample_image_tabs |} <> []) by discriminate.
  assert (Hrun : @convertTabs sample_tables
                   (flattenTabs (Tabs {| Tabs := sample_image_tabs |})) [0%nat; 1%nat]
                 = Ok sample_results) by (vm_compute; reflexivity).
  assert (Hfirst : forall j r', (j < 0)%nat -> sample_results !! j = Some r' ->
                     os_WriteFile (full_disk_world {| Tabs := sample_image_tabs |})
                       (tab_file (full_disk_world {| Tabs := sample_image_tabs |}) "out" r').1
                       (tab_file (full_disk_world {| Tabs := sample_image_tabs |}) "out" r').2
                     = None) by (intros j r' Hj; lia).
  destruct (sample_results !! 0%nat) as [r|] eqn:Hr; [|vm_compute in Hr; discriminate].
  pose proof (proj1 (@failed_write_ends_the_export sample_tables
                       (full_disk_world {| Tabs := sample_image_tabs |}) [0%nat; 1%nat]
                       "doc" "out" {| Tabs := sample_image_tabs |} sample_results 0 r
                       "disk full" eq_refl eq_refl Htabs eq_refl Hrun Hr Hfirst eq_refl))
    as Hend.
  rewrite Hend. vm_compute in Hr. injection Hr as <-. reflexivity.
Defined.



(** ** main.go and auth.go *)

Section MainFacts.

Lemma split_from_field (field rest : string) :
  all_bytes not_slash field = true ->
  split_from "/" (field +:+ String (byte 47) rest) 0
  = field :: split_from "/" rest 0.
Proof.
  induction field as [|a field IH]; intros Hfield.
  - change ("" +:+ String (byte 47) rest) with (String (byte 47) rest).
    cbn [split_from String.prefix String.length Nat.sub].
    destruct (ascii_dec "/" (byte 47)) as [_ | Hne]; [|exfalso; apply Hne; reflexivity].
    rewrite prefix_nil. reflexivity.
  - cbn [all_bytes] in Hfield. apply andb_true_iff in Hfield as [Ha Hfield].
    rewrite append_cons. cbn [split_from String.prefix].
    destruct (ascii_dec "/" a) as [<- | _]; [discriminate|].
    rewrite (IH Hfield). reflexivity.
Qed.

Lemma split_from_last (field : string) :
  all_bytes not_slash field = true -> split_from "/" field 0 = [field].
Proof.
  induction field as [|a field IH]; intros Hfield; [reflexivity|].
  cbn [all_bytes] in Hfield. apply andb_true_iff in Hfield as [Ha Hfield].
  cbn [split_from String.prefix].
  destruct (ascii_dec "/" a) as [<- | _]; [discriminate|].
  rewrite (IH Hfield). reflexivity.
Qed.

(** [TrimRight] stops at a last byte that is not in the cutset. *)
Lemma TrimRight_keep (s cutset : string) (a : ascii) :
  in_cutset cutset a = false ->
  TrimRight (s +:+ String a "") cutset = s +:+ String a "".
Proof.
  intros Ha. unfold TrimRight. rewrite rev_append.
  change (String.rev (String a "")) with (String a "").
  rewrite append_cons. change ("" +:+ String.rev s) with (String.rev s).
  cbn [trim_left_bytes]. rewrite Ha, rev_cons, rev_involutive. reflexivity.
Qed.

Lemma part_after_d_found (parts : list string) (id : string) :
  part_after_d parts = Some id ->
  exists before after,
    parts = before ++ "d" :: id :: after /\ ~ In "d" before.
Proof.
  induction parts as [|part rest IH]; [discriminate|].
  cbn [part_after_d]. destruct (String.eqb_spec part "d") as [-> | Hne].
  - destruct rest as [|next rest']; [discriminate|].
    intros [= <-]. exists [], rest'. split; [reflexivity | intros []].
  - intros Hrest. destruct (IH Hrest) as (before & after & -> & Hnot).
    exists (part :: before), after. split; [reflexivity|].
    intros [Heq | Hin]; [congruence | contradiction].
Qed.

Lemma part_after_d_none (parts : list string) :
  part_after_d parts = None ->
  forall before next after, parts <> before ++ "d" :: next :: after.
Proof.
  induction parts as [|part rest IH]; intros Hnone before next after Heq.
  - destruct before; discriminate.
  - cbn [part_after_d] in Hnone.
    destruct before as [|b before]; cbn [app] in Heq;
      injection Heq as Hpart Hrest.
    + rewrite Hpart, Hrest in Hnone. cbn in Hnone. discriminate.
    + destruct (String.eqb part "d").
      * rewrite Hrest in Hnone.
        destruct before; cbn [app] in Hnone; discriminate.
      * exact (IH Hnone _ _ _ Hrest).
Qed.

Lemma hex_digit_round_trip (a : ascii) :
  byte (16 * hex_value (hex_digit (code a / 16)) + hex_value (hex_digit (code a mod 16)))
  = a
  /\ is_hex (hex_digit (code a / 16)) = true
  /\ is_hex (hex_digit (code a mod 16)) = true.
Proof. destruct a as [[] [] [] [] [] [] [] []]; vm_compute; auto. Qed.

Lemma unhex_fmt_x (b : list ascii) : unhex (fmt_x b) = b.
Proof.
  induction b as [|a b IH]; [reflexivity|].
  cbn [fmt_x unhex]. rewrite IH.
  destruct (hex_digit_round_trip a) as (-> & _). reflexivity.
Qed.

End MainFacts.

(** X19. [extractDocID] on an input that, trimmed, has no slash returns
    the trimmed input as the identifier, without error and without
    parsing, also when it is empty.  Otherwise an error of the parser is
    returned as an invalid URL; a path of the form /document/d/ID/edit
    gives ID for every ID without slash; and in general the identifier
    returned is the part of the path that follows the first part "d" that
    has a part after it, an error being returned when there is none. *)
Theorem document_id_is_the_part_after_d
    (url_Parse : string -> error + URL) (input : string) :
  (Contains (TrimSpace input) "/" = false ->
   extractDocID url_Parse input = (TrimSpace input, None))
  /\ (forall err,
        Contains (TrimSpace input) "/" = true ->
        url_Parse (TrimSpace input) = inl err ->
        extractDocID url_Parse input = ("", Some ("invalid URL: " +:+ err)))
  /\ (forall id,
        Contains (TrimSpace input) "/" = true ->
        all_bytes not_slash id = true ->
        url_Parse (TrimSpace input) = inr {| Path := "/document/d/" +:+ id +:+ "/edit" |} ->
        extractDocID url_Parse input = (id, None))
  /\ (forall u,
        Contains (TrimSpace input) "/" = true ->
        url_Parse (TrimSpace input) = inr u ->
        (forall id, extractDocID url_Parse input = (id, None) ->
                    exists before after,
                      Split (Trim (Path u) "/") "/" = before ++ "d" :: id :: after
                      /\ ~ In "d" before)
        /\ ((extractDocID url_Parse input).2 <> None ->
            extractDocID url_Parse input
            = ("", Some ("could not extract document ID from URL: " +:+ TrimSpace input))
            /\ forall before next after,
                 Split (Trim (Path u) "/") "/" <> before ++ "d" :: next :: after)).
Proof.
  split; [|split; [|split]].
  - intros Hplain. unfold extractDocID. cbv zeta. rewrite Hplain. reflexivity.
  - intros err Hurl Hparse. unfold extractDocID. cbv zeta.
    rewrite Hurl, Hparse. reflexivity.
  - intros id Hurl Hid Hparse. unfold extractDocID. cbv zeta.
    rewrite Hurl, Hparse. cbn [negb Path].
    assert (Htrim : Trim ("/document/d/" +:+ id +:+ "/edit") "/"
                    = "document" +:+ String (byte 47)
                        ("d" +:+ String (byte 47) (id +:+ String (byte 47) "edit"))).
    { unfold Trim.
      assert (Hleft : trim_left_bytes "/" ("/document/d/" +:+ id +:+ "/edit")
                      = ("document/d/" +:+ id +:+ "/edi") +:+ "t").
      { rewrite ?append_assoc. reflexivity. }
      rewrite Hleft, TrimRight_keep by reflexivity.
      rewrite ?append_assoc. reflexivity. }
    rewrite Htrim. unfold Split.
    rewrite !split_from_field, split_from_last by (reflexivity || exact Hid).
    reflexivity.
  - intros u Hurl Hparse. unfold extractDocID. cbv zeta.
    rewrite Hurl, Hparse. cbn [negb].
    destruct (part_after_d (Split (Trim (Path u) "/") "/")) as [id0|] eqn:Hparts.
    + split.
      * intros id [= <-]. apply part_after_d_found. exact Hparts.
      * cbn [snd]. congruence.
    + split.
      * intros id. discriminate.
      * intros _. split; [reflexivity|]. apply part_after_d_none. exact Hparts.
Qed.

Lemma document_id_is_the_part_after_d_witness :
  extractDocID path_only_parse "  abc123 " = ("abc123", None)
  /\ extractDocID path_only_parse "/document/d/abc123/edit" = ("abc123", None).
Proof.
  pose proof (document_id_is_the_part_after_d path_only_parse "  abc123 ")
    as (Hplain & _).
  pose proof (document_id_is_the_part_after_d path_only_parse "/document/d/abc123/edit")
    as (_ & _ & Hurl & _).
  split.
  - exact (Hplain eq_refl).
  - exact (Hurl "abc123" eq_refl eq_refl eq_refl).
Defined.

(** X20. The state of the OAuth flow is the hexadecimal form of the bytes
    read: two lower-case hexadecimal digits for each byte, 32 digits for
    the 16 bytes, from which the bytes can be read back; so different
    bytes give different states. *)
Theorem random_state_is_hexadecimal (b b' : list ascii) :
  String.length (randomState b) = (2 * length b)%nat
  /\ all_bytes is_hex (randomState b) = true
  /\ unhex (randomState b) = b
  /\ (randomState b = randomState b' -> b = b').
Proof.
  unfold randomState. split; [|split; [|split]].
  - induction b as [|a b IH]; [reflexivity|].
    cbn [fmt_x String.length length]. rewrite IH. lia.
  - induction b as [|a b IH]; [reflexivity|].
    cbn [fmt_x all_bytes]. rewrite IH.
    destruct (hex_digit_round_trip a) as (_ & -> & ->). reflexivity.
  - apply unhex_fmt_x.
  - intros Heq. rewrite <- (unhex_fmt_x b), <- (unhex_fmt_x b'), Heq. reflexivity.
Qed.

Lemma random_state_is_hexadecimal_witness :
  randomState [byte 0; byte 255; byte 10; byte 171] = randomState (unhex "00ff0aab")
  /\ [byte 0; byte 255; byte 10; byte 171] = unhex "00ff0aab".
Proof.
  assert (H : randomState [byte 0; byte 255; byte 10; byte 171]
              = randomState (unhex "00ff0aab")) by reflexivity.
  split; [exact H|].
  pose proof (random_state_is_hexadecimal
                [byte 0; byte 255; byte 10; byte 171] (unhex "00ff0aab"))
    as (_ & _ & _ & Hinj).
  exact (Hinj H).
Defined.
